(** * MindMeld: session recorder, analytics, leaderboard and token rotation

    A shallow embedding of the server side of the MindMeld application
    (the session route and the analytics helpers of server/routes/sessions.js,
    the User and Session models, the leaderboard aggregation of the users
    router and the refresh-token utilities with their middleware) together
    with the properties stated for them.

    Conventions.  JavaScript numbers that hold counters (xp, level,
    totalSessions, streak) are modelled as [Z]; numbers that hold measured
    values (score, accuracy, duration, averages) are modelled as exact
    rationals [Q], compared with [==]: a [Q] stands for the double it is the
    value of, and sums and means are then taken exactly.  Where an answer
    turns on the rounding (the trend and the improvement figure, which
    compare a computed change with a threshold or divide by a computed mean)
    the arithmetic is that of IEEE 754 doubles, module [Double].  The body of
    a submission comes twice: with its numeric fields as numbers
    ([SessionRecorder.Body]) and as it arrives, where such a field may be a
    string and the body may name a [userId] ([Wire.RawBody]).  Documents of
    the store are records, collections are lists or finite maps. *)

From Stdlib Require Import ZArith QArith Qround Qabs Lia Lqa SpecFloat.
From stdpp Require Import base list strings gmap pretty sorting.

Open Scope Z_scope.

(** ** JavaScript arithmetic helpers *)

Module JS.

(** [Math.floor] on a finite number. *)
Definition floor (x : Q) : Z := Qfloor x.

(** [Math.round]: nearest integer, halves rounded towards +infinity. *)
Definition round (x : Q) : Z := Qfloor (x + (1 # 2))%Q.

(** [Math.min] / [Math.max] on finite numbers. *)
Definition min (x y : Q) : Q := if Qle_bool x y then x else y.
Definition max (x y : Q) : Q := if Qle_bool x y then y else x.

(** [arr.includes(x)] on an array of integers. *)
Definition includes (arr : list Z) (x : Z) : bool :=
  bool_decide (x ∈ arr).

(** Strict equality [x === q] of two finite numbers. *)
Definition strict_eq (x y : Q) : bool := Qeq_bool x y.

(** Sum of a list of finite numbers, as [reduce((sum, s) => sum + s, 0)]. *)
Definition sum (l : list Q) : Q := foldl Qplus 0%Q l.

End JS.

(** ** The User document (the User schema, in server/models/RefreshToken.js) *)

Record Badge := mkBadge {
  badge_id : string;
  badge_name : string;
  badge_description : string
}.

Record Stats := mkStats {
  totalSessions : Z;
  totalPlayTime : Q;
  averageScore : Q;
  bestStreak : Z;
  gamesPlayed : gmap string Z
}.

Record User := mkUser {
  firstName : string;
  lastName : string;
  level : Z;
  xp : Z;
  streak : Z;
  lastActiveDate : Z;
  badges : list Badge;
  stats : Stats
}.

(** Schema defaults of a freshly registered user. *)
Definition defaultStats : Stats :=
  {| totalSessions := 0; totalPlayTime := 0%Q; averageScore := 0%Q;
     bestStreak := 0; gamesPlayed := ∅ |}.

Definition newUser (first last : string) (created : Z) : User :=
  {| firstName := first; lastName := last; level := 1; xp := 0; streak := 0;
     lastActiveDate := created; badges := []; stats := defaultStats |}.

Definition set_level (l : Z) (u : User) : User :=
  {| firstName := firstName u; lastName := lastName u; level := l; xp := xp u;
     streak := streak u; lastActiveDate := lastActiveDate u;
     badges := badges u; stats := stats u |}.

Definition set_xp (x : Z) (u : User) : User :=
  {| firstName := firstName u; lastName := lastName u; level := level u; xp := x;
     streak := streak u; lastActiveDate := lastActiveDate u;
     badges := badges u; stats := stats u |}.

Definition set_badges (b : list Badge) (u : User) : User :=
  {| firstName := firstName u; lastName := lastName u; level := level u;
     xp := xp u; streak := streak u; lastActiveDate := lastActiveDate u;
     badges := b; stats := stats u |}.

Definition set_stats (s : Stats) (u : User) : User :=
  {| firstName := firstName u; lastName := lastName u; level := level u;
     xp := xp u; streak := streak u; lastActiveDate := lastActiveDate u;
     badges := badges u; stats := s |}.

Definition set_streak (n : Z) (u : User) : User :=
  {| firstName := firstName u; lastName := lastName u; level := level u;
     xp := xp u; streak := n; lastActiveDate := lastActiveDate u;
     badges := badges u; stats := stats u |}.

Definition set_lastActiveDate (d : Z) (u : User) : User :=
  {| firstName := firstName u; lastName := lastName u; level := level u;
     xp := xp u; streak := streak u; lastActiveDate := d;
     badges := badges u; stats := stats u |}.

(** [userSchema.methods.updateStreak], with [today] for [new Date()], as far
    as the stored document goes.  The method also assigns [this.bestStreak],
    which is not a path of the schema ([stats.bestStreak] is), so that
    assignment never reaches the document. *)
Definition updateStreak (today : Z) (u : User) : User :=
  let daysDiff := (today - lastActiveDate u) / (1000 * 60 * 60 * 24) in
  let u1 :=
    if bool_decide (daysDiff = 1) then set_streak (streak u + 1) u
    else if bool_decide (daysDiff > 1) then set_streak 1 u
    else u in
  set_lastActiveDate today u1.

(** Result of [addXP]: [{ leveledUp: true, newLevel }] or [{ leveledUp: false }]. *)
Record LevelResult := mkLevelResult {
  leveledUp : bool;
  newLevel : option Z
}.

(** [userSchema.methods.addXP]. *)
Definition addXP (points : Z) (u : User) : LevelResult * User :=
  let u1 := set_xp (xp u + points) u in
  let newLevel := xp u1 / 1000 + 1 in
  if bool_decide (newLevel > level u1) then
    ({| leveledUp := true; newLevel := Some newLevel |}, set_level newLevel u1)
  else
    ({| leveledUp := false; newLevel := None |}, u1).

(** [userSchema.methods.awardBadge]: [find] an existing badge with the same
    id; push and answer [true] only when there is none. *)
Definition awardBadge (badgeData : Badge) (u : User) : bool * User :=
  match List.find (λ b, String.eqb (badge_id b) (badge_id badgeData)) (badges u) with
  | None => (true, set_badges (badges u ++ [badgeData]) u)
  | Some _ => (false, u)
  end.

(** What a method that only awards XP or badges leaves alone. *)
Definition untouched (u u' : User) : Prop :=
  stats u' = stats u ∧ streak u' = streak u
  ∧ lastActiveDate u' = lastActiveDate u
  ∧ firstName u' = firstName u ∧ lastName u' = lastName u.

(** Number of badges of [u] that carry the id [id]. *)
Definition badgeCount (id : string) (u : User) : nat :=
  length (filter (λ i, i = id) (badge_id <$> badges u)).

(** ** The Session document (server/models/Session.js) *)

Record Percentiles := mkPercentiles {
  pct_overall : Z;
  pct_ageGroup : Z;
  pct_profession : Z
}.

Record MLPredictions := mkMLPredictions {
  nextSessionScore : Q;
  improvementProbability : Q;
  recommendedDifficulty : string
}.

Record Session := mkSession {
  s_userId : Z;
  s_gameType : string;
  s_domain : string;
  s_difficulty : string;
  s_duration : Q;
  s_score : Q;
  s_accuracy : Q;
  s_reactionTime : option Q;
  s_percentileScores : option Percentiles;
  s_mlPredictions : option MLPredictions;
  s_createdAt : Z
}.

Definition gameTypes : list string :=
  ["n-back"; "dual-task"; "flanker"; "attention-network"; "simple-reaction";
   "choice-reaction"; "ravens-matrices"; "tower-hanoi"].

Definition domains : list string :=
  ["working_memory"; "attention"; "processing_speed"; "problem_solving"].

Definition difficulties : list string := ["easy"; "medium"; "hard"].

Definition in_range (lo hi x : Q) : bool := Qle_bool lo x && Qle_bool x hi.

(** The schema validators run by [session.save()]: enums, [min] and [max]. *)
Definition schema_valid (s : Session) : bool :=
  bool_decide (s_gameType s ∈ gameTypes)
  && bool_decide (s_domain s ∈ domains)
  && bool_decide (s_difficulty s ∈ difficulties)
  && Qle_bool 0 (s_duration s)
  && in_range 0 100 (s_score s)
  && in_range 0 100 (s_accuracy s)
  && match s_reactionTime s with
     | Some rt => Qle_bool 0 rt
     | None => true
     end.

(** [sessionSchema.methods.calculatePercentile]; the three calls of
    [Math.random()] are the arguments [r1 r2 r3]. *)
Definition calculatePercentile (score r1 r2 r3 : Q) : Percentiles :=
  let basePercentile := JS.min 95 (JS.max 5 (score + r1 * 20 - 10))%Q in
  {| pct_overall := JS.round basePercentile;
     pct_ageGroup := JS.round (basePercentile + r2 * 10 - 5)%Q;
     pct_profession := JS.round (basePercentile + r3 * 8 - 4)%Q |}.

(** ** POST /api/sessions (server/routes/sessions.js) *)

Module SessionRecorder.

(** The request body whose [duration], [score] and [accuracy] are JSON
    numbers and which has no [userId] key.  Module [Wire] has the body in
    general (numbers sent as strings, a [userId] of its own) and the route on
    it; on the bodies of this type the two agree ([wire_postSession]). *)
Record Body := mkBody {
  gameType : string;
  domain : string;
  difficulty : string;
  duration : Q;
  score : Q;
  accuracy : Q;
  reactionTime : option Q
}.

(** What the request takes from its environment: the clock, the values of
    [Math.random()] and the answer of the ML service ([None] when the call
    or the recommendation that follows it fails). *)
Record Env := mkEnv {
  now : Z;
  random : nat → Q;
  mlResponse : option MLPredictions
}.

Record Store := mkStore {
  sessions : list Session;
  users : gmap Z User
}.

(** One entry of [errors.array()]: the field that failed. *)
Record ValidationError := mkError { path : string }.

Inductive Response :=
| BadRequest (errors : list ValidationError)
| ServerError
| Created (session : Session) (xpGained : Z) (levelResult : LevelResult)
          (totalXP currentLevel : Z).

Definition isIn (values : list string) (x : string) : bool :=
  bool_decide (x ∈ values).

(** [isInt({ min })]: an integer value not below [min].  The validator reads
    the value in its string form, and a number prints as a plain numeral only
    below 10^21 (from there on with an exponent, which is refused). *)
Definition isInt (min : Z) (x : Q) : bool :=
  bool_decide (Qden (Qred x) = 1%positive) && Qle_bool (inject_Z min) x
  && negb (Qle_bool (inject_Z (10 ^ 21)) (Qabs x)).

(** [isFloat({ min, max })]. *)
Definition isFloat (min max : Q) (x : Q) : bool := in_range min max x.

Definition check (field : string) (ok : bool) : list ValidationError :=
  if ok then [] else [ {| path := field |} ].

(** The validation chain of the route and [validationResult(req)]. *)
Definition validationResult (b : Body) : list ValidationError :=
  check "gameType" (isIn gameTypes (gameType b))
  ++ check "domain" (isIn domains (domain b))
  ++ check "difficulty" (isIn difficulties (difficulty b))
  ++ check "duration" (isInt 1 (duration b))
  ++ check "score" (isFloat 0 100 (score b))
  ++ check "accuracy" (isFloat 0 100 (accuracy b)).

(** [new Session({ userId: req.user.id, ...req.body })] with its percentile
    scores, for a body of type [Body]: it has no [userId] of its own
    ([Wire.newSession] has the other case). *)
Definition newSession (uid : Z) (b : Body) (e : Env) : Session :=
  {| s_userId := uid; s_gameType := gameType b; s_domain := domain b;
     s_difficulty := difficulty b; s_duration := duration b;
     s_score := score b; s_accuracy := accuracy b;
     s_reactionTime := reactionTime b;
     s_percentileScores :=
       Some (calculatePercentile (score b) (random e 0%nat) (random e 1%nat)
                                 (random e 2%nat));
     s_mlPredictions := None;
     s_createdAt := now e |}.

Definition set_mlPredictions (p : MLPredictions) (s : Session) : Session :=
  {| s_userId := s_userId s; s_gameType := s_gameType s;
     s_domain := s_domain s; s_difficulty := s_difficulty s;
     s_duration := s_duration s; s_score := s_score s;
     s_accuracy := s_accuracy s; s_reactionTime := s_reactionTime s;
     s_percentileScores := s_percentileScores s;
     s_mlPredictions := Some p; s_createdAt := s_createdAt s |}.

(** The badge rule set of [checkAndAwardBadges]. *)
Definition candidateBadges (u : User) (s : Session) : list Badge :=
  (if bool_decide (totalSessions (stats u) = 1) then
     [ {| badge_id := "first-session"; badge_name := "Getting Started";
          badge_description :=
            "Completed your first cognitive training session" |} ]
   else [])
  ++ (if JS.strict_eq (s_score s) 100 then
        [ {| badge_id := "perfect-score"; badge_name := "Perfect Performance";
             badge_description :=
               "Achieved a perfect score in a training session" |} ]
      else [])
  ++ (if JS.includes [10; 25; 50; 100] (totalSessions (stats u)) then
        [ {| badge_id := "sessions-" +:+ pretty (totalSessions (stats u));
             badge_name := pretty (totalSessions (stats u)) +:+ " Sessions";
             badge_description :=
               "Completed " +:+ pretty (totalSessions (stats u))
               +:+ " training sessions" |} ]
      else [])
  ++ (if JS.includes [7; 14; 30] (streak u) then
        [ {| badge_id := "streak-" +:+ pretty (streak u);
             badge_name := pretty (streak u) +:+ "-Day Streak";
             badge_description :=
               "Maintained a " +:+ pretty (streak u)
               +:+ "-day training streak" |} ]
      else []).

(** The award loop: a badge that is new brings 100 XP. *)
Definition awardOne (u : User) (badge : Badge) : User :=
  let (awarded, u1) := awardBadge badge u in
  if awarded then snd (addXP 100 u1) else u1.

Definition checkAndAwardBadges (u : User) (s : Session) : User :=
  foldl awardOne u (candidateBadges u s).

(** XP of a session: [Math.floor(score / 10) * 10 + 50]. *)
Definition xpGained (b : Body) : Z := JS.floor (score b / 10) * 10 + 50.

(** Lines 43-52: counters, running average and per-game count, for a body of
    type [Body]: [+] adds two numbers ([Wire.updateStats] has the case of a
    string, where it concatenates). *)
Definition updateStats (b : Body) (st : Stats) : Stats :=
  let n := totalSessions st + 1 in
  let totalScore := (averageScore st * inject_Z (n - 1) + score b)%Q in
  let currentCount := default 0 (gamesPlayed st !! gameType b) in
  {| totalSessions := n;
     totalPlayTime := (totalPlayTime st + duration b)%Q;
     averageScore := (totalScore / inject_Z n)%Q;
     bestStreak := bestStreak st;
     gamesPlayed := <[gameType b := currentCount + 1]> (gamesPlayed st) |}.

(** Lines 42-61: everything the handler does to the user document. *)
Definition updateUser (b : Body) (s : Session) (u : User) : LevelResult * User :=
  let u1 := set_stats (updateStats b (stats u)) u in
  let (levelResult, u2) := addXP (xpGained b) u1 in
  (levelResult, checkAndAwardBadges u2 s).

(** The fallback of the [catch] branch; two more calls of [Math.random()]. *)
Definition mockPredictions (b : Body) (e : Env) : MLPredictions :=
  {| nextSessionScore := (score b + random e 3%nat * 10 - 5)%Q;
     improvementProbability := random e 4%nat;
     recommendedDifficulty := difficulty b |}.

(** The route handler, for an authenticated request of user [uid]. *)
Definition postSession (uid : Z) (b : Body) (e : Env) (db : Store)
  : Response * Store :=
  match validationResult b with
  | (_ :: _) as errors => (BadRequest errors, db)
  | [] =>
    let session := newSession uid b e in
    if negb (schema_valid session) then (ServerError, db)
    else
      match users db !! uid with
      | None =>
        (ServerError, {| sessions := sessions db ++ [session]; users := users db |})
      | Some user =>
        let (levelResult, user') := updateUser b session user in
        let session' :=
          set_mlPredictions
            (match mlResponse e with
             | Some p => p
             | None => mockPredictions b e
             end) session in
        (Created session' (xpGained b) levelResult (xp user') (level user'),
         {| sessions := sessions db ++ [session'];
            users := <[uid := user']> (users db) |})
      end
  end.

(** *** Sequences of requests *)

Record Request := mkRequest {
  req_user : Z;
  req_body : Body;
  req_env : Env
}.

Definition handle (db : Store) (r : Request) : Response * Store :=
  postSession (req_user r) (req_body r) (req_env r) db.

(** The store after a sequence of requests, served one after the other. *)
Definition serve (db : Store) (rs : list Request) : Store :=
  foldl (λ d r, snd (handle d r)) db rs.

Definition isCreated (r : Response) : bool :=
  match r with
  | Created _ _ _ _ _ => true
  | _ => false
  end.

(** The scores of the submissions of user [uid] that were accepted (answered
    201) while [rs] was served from [db], oldest first. *)
Fixpoint acceptedScores (uid : Z) (db : Store) (rs : list Request) : list Q :=
  match rs with
  | [] => []
  | r :: rs' =>
    let (resp, db') := handle db r in
    (if bool_decide (req_user r = uid) && isCreated resp
     then [score (req_body r)] else [])
    ++ acceptedScores uid db' rs'
  end.

(** Arithmetic mean of a non-empty list of scores. *)
Definition mean (l : list Q) : Q :=
  (JS.sum l / inject_Z (Z.of_nat (length l)))%Q.

(** The XP-awarding operations of the endpoint, each performed by [addXP]. *)
Inductive XPOp :=
| SessionGrant (b : Body)
| BadgeBonus.

Definition points (op : XPOp) : Z :=
  match op with
  | SessionGrant b => xpGained b
  | BadgeBonus => 100
  end.

Definition award (u : User) (op : XPOp) : User := snd (addXP (points op) u).

(** The ids of the streak-milestone badges. *)
Definition streakBadgeIds : list string := ["streak-7"; "streak-14"; "streak-30"].

(** *** Concrete requests *)

(** The scenario of the specification: a first session with a perfect score. *)
Definition scenarioBody (rt : option Q) : Body :=
  {| gameType := "n-back"; domain := "working_memory"; difficulty := "medium";
     duration := 60; score := 100; accuracy := 100; reactionTime := rt |}.

Definition sampleBody (sc : Q) : Body :=
  {| gameType := "flanker"; domain := "attention"; difficulty := "easy";
     duration := 45; score := sc; accuracy := 80; reactionTime := Some 350%Q |}.

Definition sampleEnv : Env :=
  {| now := 1700000000000; random := λ _, (1 # 2)%Q; mlResponse := None |}.

Definition sampleStore : Store :=
  {| sessions := []; users := {[ 7 := newUser "Ada" "Lovelace" 1690000000000 ]} |}.

Definition sampleRequests : list Request :=
  [ {| req_user := 7; req_body := sampleBody 100; req_env := sampleEnv |};
    {| req_user := 7; req_body := sampleBody 120; req_env := sampleEnv |};
    {| req_user := 7; req_body := sampleBody 50; req_env := sampleEnv |} ].

(** A session grant is only made for a body that passed validation. *)
Definition granted (op : XPOp) : Prop :=
  match op with
  | SessionGrant b => validationResult b = []
  | BadgeBonus => True
  end.

End SessionRecorder.

(** ** JavaScript numbers *)

Module Double.

(** A JavaScript number is an IEEE 754 binary64 value, and every operation
    rounds its exact result to the nearest such value, ties to even. *)
Definition double : Type := spec_float.

Definition prec : Z := 53.
Definition emax : Z := 1024.

Definition add : double → double → double := SFadd prec emax.
Definition sub : double → double → double := SFsub prec emax.
Definition mul : double → double → double := SFmul prec emax.
Definition div : double → double → double := SFdiv prec emax.

(** The double nearest to an integer. *)
Definition of_Z (z : Z) : double := binary_normalize prec emax z 0 false.

(** The double of a stored number.  A double is the quotient of its
    numerator and its denominator, which are doubles themselves, so the
    division gives it back exactly; any other rational is rounded. *)
Definition of_Q (q : Q) : double := div (of_Z (Qnum q)) (of_Z (Zpos (Qden q))).

(** [x < y] and [x > y]; every comparison with [NaN] is false. *)
Definition lt (x y : double) : bool := SFltb x y.
Definition gt (x y : double) : bool := SFltb y x.

(** Truthiness of a number: the zeros and [NaN] are falsy. *)
Definition truthy (x : double) : bool :=
  match x with
  | S754_nan | S754_zero _ => false
  | S754_infinity _ | S754_finite _ _ _ => true
  end.

(** [x || y]. *)
Definition or (x y : double) : double := if truthy x then x else y.

(** [Math.round]: the nearest integer, a tie going up; a value between -0.5
    and 0 gives -0. *)
Definition round (x : double) : double :=
  match x with
  | S754_finite s m e =>
    if bool_decide (0 ≤ e) then x
    else
      let v := cond_Zopp s (Zpos m) in
      let z := (2 * v + 2 ^ (- e)) / 2 ^ (1 - e) in
      if bool_decide (z = 0) then S754_zero s else of_Z z
  | _ => x
  end.

Definition isNaN (x : double) : bool :=
  match x with
  | S754_nan => true
  | _ => false
  end.

Definition isZero (x : double) : bool :=
  match x with
  | S754_zero _ => true
  | _ => false
  end.

Definition hundred : double := of_Z 100.
Definition five : double := of_Z 5.
Definition minusFive : double := of_Z (-5).

End Double.

(** ** Analytics helpers (the analytics router, in server/routes/sessions.js) *)

Module Analytics.

(** JavaScript numbers as far as the helpers need them: finite values,
    [NaN] and the two infinities.  Signed zeros are not distinguished. *)
Inductive num :=
| Fin (q : Q)
| NaN
| Inf (negative : bool).

Definition sgn (q : Q) : bool := negb (Qle_bool 0 q).

Definition is_zero (q : Q) : bool := Qeq_bool q 0.

Definition div (x y : num) : num :=
  match x, y with
  | Fin a, Fin b =>
    if is_zero b then (if is_zero a then NaN else Inf (sgn a)) else Fin (a / b)
  | NaN, _ | _, NaN => NaN
  | Inf _, Inf _ => NaN
  | Inf s, Fin b => Inf (xorb s (sgn b))
  | Fin _, Inf _ => Fin 0
  end.

(** Truthiness of a number: [0] and [NaN] are falsy. *)
Definition truthy (x : num) : bool :=
  match x with
  | Fin a => negb (is_zero a)
  | NaN => false
  | Inf _ => true
  end.

(** [x || y]. *)
Definition or (x y : num) : num := if truthy x then x else y.

Definition length_num {A} (l : list A) : num := Fin (inject_Z (Z.of_nat (length l))).

(** [sessions.reduce((sum, s) => sum + s.score, 0)]. *)
Definition totalScore (sessions : list Session) : num :=
  Fin (JS.sum (s_score <$> sessions)).

(** [arr.slice(from, to)]. *)
Definition slice {A} (from to : nat) (l : list A) : list A :=
  take (to - from) (drop from l).

End Analytics.

(** ** The trend, in the numbers of the program *)

Module Trends.

Import Double.

(** The score of a stored session, as the double that it is. *)
Definition score (s : Session) : double := of_Q (s_score s).

(** [sessions.reduce((sum, s) => sum + s.score, 0)]. *)
Definition totalScore (sessions : list Session) : double :=
  foldl (λ sum s, add sum (score s)) (of_Z 0) sessions.

(** [arr.length]. *)
Definition count {A} (l : list A) : double := of_Z (Z.of_nat (length l)).

(** [arr.slice(from, to)]. *)
Definition slice {A} (from to : nat) (l : list A) : list A :=
  take (to - from) (drop from l).

(** [Math.round(x * 100) / 100]. *)
Definition round2 (x : double) : double := div (round (mul x hundred)) hundred.

Record Trends := mkTrends {
  trend : string;
  change : double;
  recentAverage : option double
}.

(** [calculatePerformanceTrends]; [sessions] come most recent first. *)
Definition calculatePerformanceTrends (sessions : list Session) : Trends :=
  if bool_decide (length sessions < 2)%nat then
    {| trend := "stable"; change := of_Z 0; recentAverage := None |}
  else
    let recent := slice 0 5 sessions in
    let older := slice 5 10 sessions in
    let recentAvg := div (totalScore recent) (count recent) in
    let olderAvg := or (div (totalScore older) (count older)) recentAvg in
    let change := mul (div (sub recentAvg olderAvg) olderAvg) hundred in
    {| trend := if gt change five then "improving"
                else if lt change minusFive then "declining"
                else "stable";
       change := round2 change;
       recentAverage := Some (round2 recentAvg) |}.

(** *** The trend as the specification words it *)

(** The mean score of a slice: [NaN] when it is empty. *)
Definition meanScore (sessions : list Session) : double :=
  div (totalScore sessions) (count sessions).

(** The relative change, in percent, of the mean score of the 5 most recent
    sessions against the mean of the 5 before them, computed as written. *)
Definition statedChange (sessions : list Session) : double :=
  let recentMean := meanScore (take 5 sessions) in
  let precedingMean := meanScore (take 5 (drop 5 sessions)) in
  mul (div (sub recentMean precedingMean) precedingMean) hundred.

Definition labelOf (c : double) : string :=
  if gt c five then "improving"
  else if lt c minusFive then "declining"
  else "stable".

(** The same relative change over exact rationals, for histories whose
    earlier sessions have a mean that is not 0. *)
Definition exactChange (sessions : list Session) : Q :=
  let recent := SessionRecorder.mean (s_score <$> take 5 sessions) in
  let preceding := SessionRecorder.mean (s_score <$> take 5 (drop 5 sessions)) in
  ((recent - preceding) / preceding * 100)%Q.

(** A stored session with the given score, for concrete histories. *)
Definition scored (sc : Q) : Session :=
  {| s_userId := 7; s_gameType := "flanker"; s_domain := "attention";
     s_difficulty := "easy"; s_duration := 45; s_score := sc; s_accuracy := 80;
     s_reactionTime := None; s_percentileScores := None;
     s_mlPredictions := None; s_createdAt := 1700000000000 |}.

(** *** The improvement figure of the ML routes (server/routes/ml3.js) *)

(** [calculateImprovementTrend] of the first ML router: no fallback for the
    baseline. *)
Definition calculateImprovementTrend (sessions : list Session) : double :=
  if bool_decide (length sessions < 5)%nat then of_Z 0
  else
    let recent := slice 0 5 sessions in
    let older := slice 5 10 sessions in
    let recentAvg := div (totalScore recent) (count recent) in
    let olderAvg := div (totalScore older) (count older) in
    mul (div (sub recentAvg olderAvg) olderAvg) hundred.

(** [calculateImprovementTrend] of the second ML router: the baseline falls
    back to the recent mean. *)
Definition calculateImprovementTrend' (sessions : list Session) : double :=
  if bool_decide (length sessions < 5)%nat then of_Z 0
  else
    let recent := slice 0 5 sessions in
    let older := slice 5 10 sessions in
    let recentAvg := div (totalScore recent) (count recent) in
    let olderAvg := or (div (totalScore older) (count older)) recentAvg in
    mul (div (sub recentAvg olderAvg) olderAvg) hundred.

End Trends.

(** ** GET /api/users/leaderboard (the users router, in server/routes/ml3.js) *)

Module Leaderboard.

Import SessionRecorder.

(** The clock of a request: [now] and the local midnight and first of the
    month that [new Date(y, m, d)] and [new Date(y, m, 1)] give for it. *)
Record Clock := mkClock {
  clock_now : Z;
  startOfDay : Z;
  startOfMonth : Z
}.

Definition week : Z := 7 * 24 * 60 * 60 * 1000.

(** The [switch (timeframe)] of the handler. *)
Definition startDate (timeframe : string) (c : Clock) : Z :=
  if String.eqb timeframe "daily" then startOfDay c
  else if String.eqb timeframe "weekly" then clock_now c - week
  else if String.eqb timeframe "monthly" then startOfMonth c
  else clock_now c - week.

(** One document of the [$group] stage. *)
Record Group := mkGroup {
  g_id : Z;
  g_totalSessions : Z;
  g_averageScore : Q;
  g_totalXP : Q;
  g_bestScore : Q
}.

(** One document after [$lookup], [$unwind] and [$project]. *)
Record Entry := mkEntry {
  e_userId : Z;
  e_firstName : string;
  e_lastName : string;
  e_level : Z;
  e_totalSessions : Z;
  e_averageScore : Q;
  e_totalXP : Q;
  e_bestScore : Q
}.

Record Ranked := mkRanked {
  entry : Entry;
  rank : Z;
  isCurrentUser : bool
}.

(** [$match: { createdAt: { $gte: startDate } }]. *)
Definition matchStage (start : Z) (ss : list Session) : list Session :=
  filter (λ s, start ≤ s_createdAt s) ss.

Definition sessionsOf (uid : Z) (ss : list Session) : list Session :=
  filter (λ s, s_userId s = uid) ss.

(** [$max] over a non-empty group. *)
Definition maxScore (l : list Q) : Q :=
  match l with
  | [] => 0
  | x :: l' => foldl JS.max x l'
  end.

Definition groupOf (uid : Z) (ss : list Session) : Group :=
  let scores := s_score <$> sessionsOf uid ss in
  {| g_id := uid;
     g_totalSessions := Z.of_nat (length scores);
     g_averageScore := mean scores;
     g_totalXP := JS.sum ((λ x, x * (1 # 10))%Q <$> scores);
     g_bestScore := maxScore scores |}.

(** [$group: { _id: '$userId', ... }]: one document per user with a session
    in the window, in order of first appearance. *)
Definition groupStage (ss : list Session) : list Group :=
  (λ uid, groupOf uid ss) <$> remove_dups (s_userId <$> ss).

(** [$round: [x, place]] of the aggregation framework: to [place] decimals,
    a tie going to the even neighbour. *)
Definition mongoRound (x : Q) (place : nat) : Q :=
  let scale := inject_Z (10 ^ Z.of_nat place) in
  let y := (x * scale)%Q in
  let f := Qfloor y in
  let d := (y - inject_Z f)%Q in
  let r := if negb (Qle_bool (1 # 2) d) then f
           else if negb (Qle_bool d (1 # 2)) then f + 1
           else if Z.even f then f else f + 1 in
  (inject_Z r / scale)%Q.

(** [$lookup] into users, [$unwind] and [$project]: a group whose user
    document is missing is dropped. *)
Definition projectStage (us : gmap Z User) (g : Group) : option Entry :=
  u ← us !! g_id g;
  Some {| e_userId := g_id g;
          e_firstName := firstName u;
          e_lastName := lastName u;
          e_level := level u;
          e_totalSessions := g_totalSessions g;
          e_averageScore := mongoRound (g_averageScore g) 1;
          e_totalXP := mongoRound (g_totalXP g) 0;
          e_bestScore := g_bestScore g |}.

(** The order of [$sort: { averageScore: -1, totalSessions: -1 }]. *)
Definition precedes_b (avg1 : Q) (n1 : Z) (avg2 : Q) (n2 : Z) : bool :=
  negb (Qle_bool avg1 avg2) || (Qeq_bool avg1 avg2 && bool_decide (n2 ≤ n1)).

Definition precedes (a b : Entry) : Prop :=
  precedes_b (e_averageScore a) (e_totalSessions a)
             (e_averageScore b) (e_totalSessions b).

Definition precedesGroup (a b : Group) : Prop :=
  precedes_b (g_averageScore a) (g_totalSessions a)
             (g_averageScore b) (g_totalSessions b).

Definition sortStage (es : list Entry) : list Entry := merge_sort precedes es.

(** The pipeline up to [$sort]. *)
Definition aggregate (start : Z) (db : Store) : list Entry :=
  sortStage (omap (projectStage (users db)) (groupStage (matchStage start (sessions db)))).

(** [leaderboard.map((user, index) => ({ ...user, rank: index + 1, ... }))]. *)
Definition addRank (me : Z) (es : list Entry) : list Ranked :=
  imap (λ index e, {| entry := e; rank := Z.of_nat index + 1;
                      isCurrentUser := bool_decide (e_userId e = me) |}) es.

(** [findIndex(...) + 1], [-1 + 1] when nothing is found. *)
Fixpoint findIndex {A} (p : A → bool) (l : list A) : Z :=
  match l with
  | [] => -1
  | x :: l' => if p x then 0
               else let i := findIndex p l' in if bool_decide (i = -1) then -1 else i + 1
  end.

Record Board := mkBoard {
  leaderboard : list Ranked;
  currentUserRank : Z;
  timeframe_of : string;
  totalParticipants : Z
}.

(** The handler for user [me]; [None] is the 500 answer that follows when
    [$limit] rejects a limit that is not positive. *)
Definition getLeaderboard (me : Z) (timeframe : string) (limit : Z) (c : Clock)
    (db : Store) : option Board :=
  let start := startDate timeframe c in
  if bool_decide (limit ≤ 0) then None
  else
    let top := take (Z.to_nat limit) (aggregate start db) in
    let ranked := addRank me top in
    let myRank :=
      match List.find isCurrentUser ranked with
      | Some r => rank r
      | None =>
        let allUsers :=
          merge_sort precedesGroup (groupStage (matchStage start (sessions db))) in
        findIndex (λ g, bool_decide (g_id g = me)) allUsers + 1
      end in
    Some {| leaderboard := ranked; currentUserRank := myRank;
            timeframe_of := timeframe;
            totalParticipants := Z.of_nat (size (users db)) |}.

(** The scores of user [uid] in the window that starts at [start]. *)
Definition windowScores (uid : Z) (start : Z) (db : Store) : list Q :=
  s_score <$> sessionsOf uid (matchStage start (sessions db)).

(** *** Concrete stores *)

Definition atScore (uid : Z) (sc : Q) : Session :=
  {| s_userId := uid; s_gameType := "flanker"; s_domain := "attention";
     s_difficulty := "easy"; s_duration := 45; s_score := sc; s_accuracy := 80;
     s_reactionTime := None; s_percentileScores := None;
     s_mlPredictions := None; s_createdAt := 1700000000000 |}.

Definition sampleClock : Clock :=
  {| clock_now := 1700000100000; startOfDay := 1699999200000;
     startOfMonth := 1698796800000 |}.

Definition twoUsers : gmap Z User :=
  {[ 1 := newUser "Ada" "Lovelace" 1690000000000;
     2 := newUser "Alan" "Turing" 1690000000000 ]}.

(** Ada has nine sessions, eight at 80 and one at 81 (mean 80.11...); Alan has
    ten, nine at 80 and one at 81 (mean 80.1). *)
Definition tieStore : Store :=
  {| sessions := replicate 8 (atScore 1 80) ++ [atScore 1 81]
                 ++ replicate 9 (atScore 2 80) ++ [atScore 2 81];
     users := twoUsers |}.


End Leaderboard.

(** ** Refresh-token rotation (utils/tokens.js and server/middlewares/refresh.js) *)

Module Tokens.

(** A signed JWT, symbolically: its payload, its expiry (in seconds) and the
    secret it was signed with. *)
Record Jwt := mkJwt {
  jwt_userId : Z;
  jwt_jti : option string;
  jwt_exp : Z;
  jwt_secret : string
}.

Record Config := mkConfig {
  JWT_ACCESS_SECRET : string;
  JWT_REFRESH_SECRET : string
}.

(** The RefreshToken document (server/models/RefreshToken.js). *)
Record RefreshToken := mkRefreshToken {
  userId : Z;
  jti : string;
  expiresAt : Z;
  isBlacklisted : bool;
  userAgent : option string;
  ipAddress : option string
}.

Record Store := mkStore {
  refreshTokens : list RefreshToken;
  accounts : gset Z
}.

(** What a call takes from its environment: [Date.now()] in milliseconds
    and the value of [uuidv4()]. *)
Record Env := mkEnv {
  now : Z;
  uuid : string
}.

Definition seconds (ms : Z) : Z := ms / 1000.

(** [jwt.sign(payload, secret, { expiresIn })], [expiresIn] in seconds. *)
Definition sign (uid : Z) (j : option string) (secret : string)
    (expiresIn : Z) (e : Env) : Jwt :=
  {| jwt_userId := uid; jwt_jti := j; jwt_exp := seconds (now e) + expiresIn;
     jwt_secret := secret |}.

(** [jwt.verify(token, secret)]: the signature and the expiry are checked;
    [None] stands for the exception. *)
Definition verify (token : Jwt) (secret : string) (e : Env) : option Jwt :=
  if String.eqb (jwt_secret token) secret
     && bool_decide (seconds (now e) < jwt_exp token)
  then Some token else None.

Definition generateAccessToken (cfg : Config) (uid : Z) (e : Env) : Jwt :=
  sign uid None (JWT_ACCESS_SECRET cfg) (15 * 60) e.

Definition setTokens (l : list RefreshToken) (db : Store) : Store :=
  {| refreshTokens := l; accounts := accounts db |}.

(** [generateRefreshToken]: the document is saved first; the unique index
    on [jti] makes the save throw ([None]) when the [jti] is taken. *)
Definition generateRefreshToken (cfg : Config) (uid : Z)
    (agent ip : option string) (e : Env) (db : Store) : option (Jwt * Store) :=
  let expiresIn := 7 * 24 * 60 * 60 * 1000 in
  let doc := {| userId := uid; jti := uuid e; expiresAt := now e + expiresIn;
                isBlacklisted := false; userAgent := agent; ipAddress := ip |} in
  if bool_decide (uuid e ∈ jti <$> refreshTokens db) then None
  else
    Some (sign uid (Some (uuid e)) (JWT_REFRESH_SECRET cfg) (7 * 24 * 60 * 60) e,
          setTokens (refreshTokens db ++ [doc]) db).

(** [verifyRefreshToken]: the token must verify and a document with its
    [jti] and [userId] that is not blacklisted must exist. *)
Definition verifyRefreshToken (cfg : Config) (token : Jwt) (e : Env) (db : Store)
    : option (Jwt * RefreshToken) :=
  decoded ← verify token (JWT_REFRESH_SECRET cfg) e;
  doc ← List.find (λ d, bool_decide (Some (jti d) = jwt_jti decoded)
                        && bool_decide (userId d = jwt_userId decoded)
                        && negb (isBlacklisted d)) (refreshTokens db);
  Some (decoded, doc).

Definition blacklist (d : RefreshToken) : RefreshToken :=
  {| userId := userId d; jti := jti d; expiresAt := expiresAt d;
     isBlacklisted := true; userAgent := userAgent d; ipAddress := ipAddress d |}.

(** [updateOne(filter, { isBlacklisted: true })]: the first match only. *)
Fixpoint updateOne (p : RefreshToken → bool) (l : list RefreshToken)
    : list RefreshToken :=
  match l with
  | [] => []
  | d :: l' => if p d then blacklist d :: l' else d :: updateOne p l'
  end.

Definition blacklistRefreshToken (j : option string) (db : Store) : Store :=
  setTokens (updateOne (λ d, bool_decide (Some (jti d) = j)) (refreshTokens db)) db.

(** [revokeAllUserTokens]: [updateMany] over the user's live documents. *)
Definition revokeAllUserTokens (uid : Z) (db : Store) : Store :=
  setTokens ((λ d, if bool_decide (userId d = uid) && negb (isBlacklisted d)
                   then blacklist d else d) <$> refreshTokens db) db.

(** [cleanExpiredTokens], and the TTL index of the collection. *)
Definition cleanExpiredTokens (e : Env) (db : Store) : Store :=
  setTokens (filter (λ d, ¬ expiresAt d < now e) (refreshTokens db)) db.

Record Request := mkRequest {
  cookie_refreshToken : option Jwt;
  header_userAgent : option string;
  req_ip : option string
}.

Inductive Response :=
| Unauthorized (error : string)
| Next (user : Z) (accessToken refreshToken : Jwt).

(** [refreshTokenMiddleware]. *)
Definition refreshTokenMiddleware (cfg : Config) (req : Request) (e : Env)
    (db : Store) : Response * Store :=
  match cookie_refreshToken req with
  | None => (Unauthorized "Refresh token not provided.", db)
  | Some refreshToken =>
    match verifyRefreshToken cfg refreshToken e db with
    | None => (Unauthorized "Invalid refresh token.", db)
    | Some (decoded, _) =>
      if bool_decide (jwt_userId decoded ∈ accounts db) then
        let db1 := blacklistRefreshToken (jwt_jti decoded) db in
        let newAccessToken := generateAccessToken cfg (jwt_userId decoded) e in
        match generateRefreshToken cfg (jwt_userId decoded)
                (header_userAgent req) (req_ip req) e db1 with
        | None => (Unauthorized "Invalid refresh token.", db1)
        | Some (newRefreshToken, db2) =>
          (Next (jwt_userId decoded) newAccessToken newRefreshToken, db2)
        end
      else (Unauthorized "User not found.", db)
    end
  end.

(** The operations that touch the collection of refresh tokens. *)
Inductive Op :=
| Login (uid : Z) (agent ip : option string) (e : Env)
| Refresh (req : Request) (e : Env)
| Logout (uid : Z)
| Expire (e : Env).

Definition step (cfg : Config) (db : Store) (op : Op) : Store :=
  match op with
  | Login uid agent ip e =>
    match generateRefreshToken cfg uid agent ip e db with
    | Some (_, db') => db'
    | None => db
    end
  | Refresh req e => snd (refreshTokenMiddleware cfg req e db)
  | Logout uid => revokeAllUserTokens uid db
  | Expire e => cleanExpiredTokens e db
  end.

Definition run (cfg : Config) (db : Store) (ops : list Op) : Store :=
  foldl (step cfg) db ops.

(** The [uuidv4()] value an operation draws, if it draws one. *)
Definition drawn (op : Op) : option string :=
  match op with
  | Login _ _ _ e | Refresh _ e => Some (uuid e)
  | Logout _ | Expire _ => None
  end.

Definition isNext (r : Response) : bool :=
  match r with
  | Next _ _ _ => true
  | Unauthorized _ => false
  end.

(** Every document of the collection that carries the [jti] [j] is
    blacklisted. *)
Definition revoked (j : string) (db : Store) : Prop :=
  ∀ d, d ∈ refreshTokens db → jti d = j → isBlacklisted d = true.

(** *** A concrete deployment *)

Definition sampleConfig : Config :=
  {| JWT_ACCESS_SECRET := "access-secret"; JWT_REFRESH_SECRET := "refresh-secret" |}.

Definition loginEnv : Env := {| now := 1700000000000; uuid := "jti-1" |}.
Definition refreshEnv : Env := {| now := 1700000500000; uuid := "jti-2" |}.
Definition laterEnv : Env := {| now := 1700000900000; uuid := "jti-3" |}.

Definition emptyStore : Store := {| refreshTokens := []; accounts := {[ 7 ]} |}.

(** The token and the store that a login of user 7 leaves. *)
Definition issued : Jwt * Store :=
  default (sign 7 None "" 0 loginEnv, emptyStore)
    (generateRefreshToken sampleConfig 7 (Some "agent") None loginEnv emptyStore).

Definition presenting (t : Jwt) : Request :=
  {| cookie_refreshToken := Some t; header_userAgent := Some "agent"; req_ip := None |}.

End Tokens.

(** ** More of the models *)

Module Models.

(** The virtual [performanceRating] of the Session schema. *)
Definition performanceRating (score : Q) : string :=
  if Qle_bool 90 score then "excellent"
  else if Qle_bool 80 score then "good"
  else if Qle_bool 70 score then "average"
  else if Qle_bool 60 score then "below_average"
  else "poor".

(** The ratings from worst to best, to compare two of them. *)
Definition ratingRank (rating : string) : nat :=
  if String.eqb rating "excellent" then 4
  else if String.eqb rating "good" then 3
  else if String.eqb rating "average" then 2
  else if String.eqb rating "below_average" then 1
  else 0.

Definition day : Z := 1000 * 60 * 60 * 24.

(** [updateStreak] called at each of [times] in turn. *)
Definition updateStreaks (times : list Z) (u : User) : User :=
  foldl (λ v today, updateStreak today v) u times.

(** Every call comes less than [gap] milliseconds after the previous one, the
    first after [last]; time does not run backwards. *)
Fixpoint closerThan (gap : Z) (last : Z) (times : list Z) : Prop :=
  match times with
  | [] => True
  | t :: times' => last ≤ t ∧ t - last < gap ∧ closerThan gap t times'
  end.

End Models.

(** ** GET /api/sessions and the bookkeeping of the recorder *)

Module History.

Import SessionRecorder.

(** The bodies of the submissions of user [uid] that were accepted while [rs]
    was served from [db], oldest first. *)
Fixpoint acceptedBodies (uid : Z) (db : Store) (rs : list Request) : list Body :=
  match rs with
  | [] => []
  | r :: rs' =>
    let (resp, db') := handle db r in
    (if bool_decide (req_user r = uid) && isCreated resp then [req_body r] else [])
    ++ acceptedBodies uid db' rs'
  end.

(** A submission with a perfect score. *)
Definition perfect (b : Body) : Prop := (score b == 100)%Q.

(** The session-count milestones of the badge rule set. *)
Definition milestones : list Z := [10; 25; 50; 100].

(** What the badges of a user tell about the accepted submissions [bs]. *)
Definition milestoneInv (bs : list Body) (v : User) : Prop :=
  totalSessions (stats v) = Z.of_nat (length bs)
  ∧ ("first-session" ∈ badge_id <$> badges v ↔ 1 ≤ Z.of_nat (length bs))
  ∧ ("perfect-score" ∈ badge_id <$> badges v ↔ Exists perfect bs)
  ∧ ∀ N, N ∈ milestones →
      ("sessions-" +:+ pretty N ∈ badge_id <$> badges v ↔ N ≤ Z.of_nat (length bs)).

(** Number of bodies for the game [g]. *)
Definition plays (g : string) (bs : list Body) : Z :=
  Z.of_nat (length (filter (λ b, gameType b = g) bs)).

(** The query string of the route after its defaults ([page = 1],
    [limit = 20]) and numeric coercions; an absent or empty filter is [None]. *)
Record Query := mkQuery {
  page : Z;
  limit : Z;
  q_gameType : option string;
  q_domain : option string;
  startDate : option Z;
  endDate : option Z
}.

Definition truthyString (o : option string) : option string :=
  match o with
  | Some s => if String.eqb s "" then None else Some s
  | None => None
  end.

(** The filter object [query] built by the handler. *)
Definition matches (uid : Z) (q : Query) (s : Session) : bool :=
  bool_decide (s_userId s = uid)
  && match truthyString (q_gameType q) with
     | Some g => String.eqb (s_gameType s) g
     | None => true
     end
  && match truthyString (q_domain q) with
     | Some d => String.eqb (s_domain s) d
     | None => true
     end
  && match startDate q with
     | Some t => bool_decide (t ≤ s_createdAt s)
     | None => true
     end
  && match endDate q with
     | Some t => bool_decide (s_createdAt s ≤ t)
     | None => true
     end.

(** The order of [sort({ createdAt: -1 })]. *)
Definition newerFirst (a b : Session) : Prop := s_createdAt b ≤ s_createdAt a.

#[export] Instance newerFirst_dec (a b : Session) : Decision (newerFirst a b) :=
  decide (s_createdAt b ≤ s_createdAt a).

Definition found (uid : Z) (q : Query) (db : Store) : list Session :=
  merge_sort newerFirst (filter (λ s, matches uid q s) (sessions db)).

(** [cursor.limit(n)]: 0 is no limit, a negative number its absolute value. *)
Definition limited (n : Z) (l : list Session) : list Session :=
  if bool_decide (n = 0) then l else take (Z.to_nat (Z.abs n)) l.

Record Pagination := mkPagination {
  current : Z;
  pages : Analytics.num;
  total : Z
}.

Record Page := mkPage {
  page_sessions : list Session;
  pagination : Pagination
}.

(** [Math.ceil] on a JavaScript number. *)
Definition ceil (x : Analytics.num) : Analytics.num :=
  match x with
  | Analytics.Fin q => Analytics.Fin (inject_Z (Qceiling q))
  | other => other
  end.

(** The handler of [GET /api/sessions]; [None] is the 500 answer that follows
    when the store refuses a negative [skip]. *)
Definition getSessions (uid : Z) (q : Query) (db : Store) : option Page :=
  let skip := (page q - 1) * limit q in
  if bool_decide (skip < 0) then None
  else
    let all := found uid q db in
    let total := Z.of_nat (length all) in
    Some {| page_sessions := limited (limit q * 1) (drop (Z.to_nat skip) all);
            pagination :=
              {| current := page q;
                 pages := ceil (Analytics.div (Analytics.Fin (inject_Z total))
                                              (Analytics.Fin (inject_Z (limit q))));
                 total := total |} |}.

(** The same query for another page, and the sessions it answers ([[]] for
    the 500 answer). *)
Definition atPage (q : Query) (k : Z) : Query :=
  {| page := k; limit := limit q; q_gameType := q_gameType q;
     q_domain := q_domain q; startDate := startDate q; endDate := endDate q |}.

Definition pageAt (uid : Z) (q : Query) (db : Store) (k : Z) : list Session :=
  from_option page_sessions [] (getSessions uid (atPage q k) db).

(** *** A concrete history *)

Definition historyStore : Store :=
  {| sessions :=
       [Leaderboard.atScore 7 70; Leaderboard.atScore 8 40; Leaderboard.atScore 7 90;
        Leaderboard.atScore 7 55; Leaderboard.atScore 7 100; Leaderboard.atScore 7 65];
     users := {[ 7 := newUser "Ada" "Lovelace" 1690000000000 ]} |}.

Definition pageOfTwo (k : Z) : Query :=
  {| page := k; limit := 2; q_gameType := Some "flanker"; q_domain := None;
     startDate := Some 1600000000000; endDate := None |}.

End History.

(** ** The other analytics helpers (the analytics router, in server/routes/sessions.js) *)

Module Dashboard.

Import Analytics.

Record DomainPerformance := mkDomainPerformance {
  dp_averageScore : Q;
  dp_sessionCount : Z;
  dp_bestScore : Q;
  dp_averageAccuracy : Q
}.

(** [sessions.filter(s => s.domain === domain)]. *)
Definition inDomain (d : string) (sessions : list Session) : list Session :=
  filter (λ s, s_domain s = d) sessions.

(** The entry computed for a domain that has sessions; [Math.max(...scores)]
    is taken over a list that is not empty. *)
Definition domainEntry (ds : list Session) : DomainPerformance :=
  {| dp_averageScore := (JS.sum (s_score <$> ds) / inject_Z (Z.of_nat (length ds)))%Q;
     dp_sessionCount := Z.of_nat (length ds);
     dp_bestScore := Leaderboard.maxScore (s_score <$> ds);
     dp_averageAccuracy :=
       (JS.sum (s_accuracy <$> ds) / inject_Z (Z.of_nat (length ds)))%Q |}.

(** [calculateDomainPerformance]: an object keyed by domain. *)
Definition calculateDomainPerformance (sessions : list Session)
    : gmap string DomainPerformance :=
  foldl (λ performance d,
           let domainSessions := inDomain d sessions in
           if bool_decide (0 < length domainSessions)%nat
           then <[d := domainEntry domainSessions]> performance
           else performance)
        ∅ domains.

Record WeeklyStats := mkWeeklyStats {
  sessionsThisWeek : Z;
  ws_averageScore : num;
  ws_totalPlayTime : Q;
  ws_gamesPlayed : Z
}.

(** [Session.find({ userId, createdAt: { $gte: sevenDaysAgo } })]. *)
Definition since (uid : Z) (from : Z) (db : SessionRecorder.Store) : list Session :=
  filter (λ s, s_userId s = uid ∧ from ≤ s_createdAt s) (SessionRecorder.sessions db).

(** [calculateWeeklyStats]. *)
Definition calculateWeeklyStats (uid : Z) (sevenDaysAgo : Z)
    (db : SessionRecorder.Store) : WeeklyStats :=
  let sessions := since uid sevenDaysAgo db in
  {| sessionsThisWeek := Z.of_nat (length sessions);
     ws_averageScore := or (div (totalScore sessions) (length_num sessions)) (Fin 0);
     ws_totalPlayTime := JS.sum (s_duration <$> sessions);
     ws_gamesPlayed := Z.of_nat (length (remove_dups (s_gameType <$> sessions))) |}.

(** The UTC calendar day of a timestamp, as a day number:
    [createdAt.toISOString().split('T')[0]] writes that day as YYYY-MM-DD and
    [new Date(date)] reads it back as its midnight. *)
Definition isoDay (ms : Z) : Z := ms / Models.day.

Record DayGroup := mkDayGroup {
  date : Z;
  day_sessions : list Session;
  day_averageScore : Q;
  day_averageAccuracy : Q;
  totalDuration : Q;
  sessionCount : Z
}.

Definition onDay (d : Z) (sessions : list Session) : list Session :=
  filter (λ s, isoDay (s_createdAt s) = d) sessions.

Definition dayGroup (d : Z) (sessions : list Session) : DayGroup :=
  let ds := onDay d sessions in
  {| date := d;
     day_sessions := ds;
     day_averageScore := (JS.sum (s_score <$> ds) / inject_Z (Z.of_nat (length ds)))%Q;
     day_averageAccuracy :=
       (JS.sum (s_accuracy <$> ds) / inject_Z (Z.of_nat (length ds)))%Q;
     totalDuration := JS.sum (s_duration <$> ds);
     sessionCount := Z.of_nat (length ds) |}.

Definition earlierDay (a b : DayGroup) : Prop := date a ≤ date b.

#[export] Instance earlierDay_dec (a b : DayGroup) : Decision (earlierDay a b) :=
  decide (date a ≤ date b).

(** [groupSessionsByDate]: one group per day, in order of first appearance,
    then sorted by date. *)
Definition groupSessionsByDate (sessions : list Session) : list DayGroup :=
  merge_sort earlierDay
    ((λ d, dayGroup d sessions) <$> remove_dups (isoDay ∘ s_createdAt <$> sessions)).

End Dashboard.

(** ** GET /api/users/achievements (the users router, in server/routes/ml3.js) *)

Module Achievements.

Import SessionRecorder.

Record Achievement := mkAchievement {
  a_id : string;
  a_name : string;
  a_description : string;
  a_category : string;
  progress : Z;
  target : Z;
  completed : bool;
  reward : string
}.

(** One entry of [earnedBadges]: [{ ...badge, completed: true, earnedAt }].
    The spread copies the own properties of the badge subdocument, which are
    its bookkeeping and not the paths [id], [name] and [description]; so the
    entry tells that a badge was earned (and when, a time this model does
    not keep), not which. *)
Record EarnedBadge := mkEarnedBadge {
  eb_completed : bool
}.

Record Answer := mkAnswer {
  achievements : list Achievement;
  earnedBadges : list EarnedBadge;
  totalAchievements : Z;
  completedAchievements : Z;
  totalXP : Z;
  currentLevel : Z
}.

Definition isPerfect (s : Session) : bool := JS.strict_eq (s_score s) 100.

(** [new Set(sessions.map(s => s.gameType)).size]. *)
Definition gamesTried (ss : list Session) : Z :=
  Z.of_nat (length (remove_dups (s_gameType <$> ss))).

Definition achievementList (user : User) (ss : list Session) : list Achievement :=
  [ {| a_id := "first-session"; a_name := "Getting Started";
       a_description := "Complete your first training session";
       a_category := "milestone";
       progress := Z.min (totalSessions (stats user)) 1;
       target := 1;
       completed := bool_decide (1 ≤ totalSessions (stats user));
       reward := "100 XP" |};
    {| a_id := "streak-7"; a_name := "7-Day Streak";
       a_description := "Train for 7 consecutive days";
       a_category := "consistency";
       progress := Z.min (streak user) 7;
       target := 7;
       completed := bool_decide (7 ≤ streak user);
       reward := "200 XP" |};
    {| a_id := "sessions-50"; a_name := "Half Century";
       a_description := "Complete 50 training sessions";
       a_category := "milestone";
       progress := Z.min (totalSessions (stats user)) 50;
       target := 50;
       completed := bool_decide (50 ≤ totalSessions (stats user));
       reward := "500 XP + Badge" |};
    {| a_id := "perfect-score"; a_name := "Perfect Performance";
       a_description := "Achieve a perfect score (100%)";
       a_category := "performance";
       progress := if bool_decide (0 < length (filter (λ s, isPerfect s) ss))%nat
                   then 1 else 0;
       target := 1;
       completed := existsb isPerfect ss;
       reward := "300 XP" |};
    {| a_id := "all-games"; a_name := "Game Master";
       a_description := "Play all 8 cognitive games";
       a_category := "exploration";
       progress := gamesTried ss;
       target := 8;
       completed := bool_decide (8 ≤ gamesTried ss);
       reward := "400 XP + Title" |} ].

(** The handler for user [uid]; [None] is the 500 answer when the user
    document is missing. *)
Definition getAchievements (uid : Z) (db : Store) : option Answer :=
  user ← users db !! uid;
  let ss := filter (λ s, s_userId s = uid) (sessions db) in
  let achievements := achievementList user ss in
  Some {| achievements := achievements;
          earnedBadges := (λ _, {| eb_completed := true |}) <$> badges user;
          totalAchievements := Z.of_nat (length achievements);
          completedAchievements :=
            Z.of_nat (length (filter (λ a, completed a = true) achievements));
          totalXP := xp user;
          currentLevel := level user |}.

End Achievements.

(** ** Helpers of the ML insights routes (server/routes/ml3.js) *)

Module Insights.

Import Analytics.



End Insights.

(** ** Access tokens (utils/tokens.js) *)

Module AccessTokens.

Import Tokens.

(** [verifyAccessToken]; [None] is the exception "Invalid access token". *)
Definition verifyAccessToken (cfg : Config) (token : Jwt) (e : Env) : option Jwt :=
  verify token (JWT_ACCESS_SECRET cfg) e.

(** The lifetime of an access token, in seconds. *)
Definition accessLifetime : Z := 15 * 60.

End AccessTokens.

(** ** POST /api/sessions on the body as it arrives *)

Module Wire.

Import SessionRecorder.

(** A numeric field of the JSON body as [express.json()] hands it over: a
    number or a string.  The validators of the route read the string form of
    either, so the string ["45"] passes where the number 45 does. *)
Inductive Json :=
| JNumber (q : Q)
| JString (s : string).

(** The body of a request: the three validated numeric fields in their JSON
    type, and the [userId] key when the body has one ([...req.body] then
    overrides [userId: req.user.id]). *)
Record RawBody := mkRawBody {
  raw_userId : option Z;
  raw_gameType : string;
  raw_domain : string;
  raw_difficulty : string;
  raw_duration : Json;
  raw_score : Json;
  raw_accuracy : Json;
  raw_reactionTime : option Q
}.

(** *** The fragment of the language runtime that the model covers

    Strings are covered where they are plain numerals (decimal digits, for
    a result also after a minus sign) and numbers are printed where they are
    integers below 10^21 in size; [None] stands for a case outside this
    fragment, about which the model says nothing. *)

Definition digit (c : Ascii.ascii) : option Z :=
  let n := Z.of_N (Ascii.N_of_ascii c) in
  if bool_decide (48 ≤ n ≤ 57) then Some (n - 48) else None.

Fixpoint numeral (acc : Z) (s : string) : option Z :=
  match s with
  | EmptyString => Some acc
  | String c s' => d ← digit c; numeral (10 * acc + d) s'
  end.

(** The value of a non-empty string of decimal digits. *)
Definition unsigned (s : string) : option Z :=
  match s with
  | EmptyString => None
  | String _ _ => numeral 0 s
  end.

(** [Number(s)], which is also what [*], [/] and [-] and the cast of a
    schema path of type Number make of the string [s]. *)
Definition ToNumber (s : string) : option Q :=
  match s with
  | String c s' =>
    if Ascii.eqb c (Ascii.ascii_of_N 45)
    then n ← unsigned s'; Some (inject_Z (- n))
    else n ← unsigned s; Some (inject_Z n)
  | EmptyString => None
  end.

(** [String(x)] of a number. *)
Definition ToString (x : Q) : option string :=
  if bool_decide (Qden (Qred x) = 1%positive)
     && negb (Qle_bool (inject_Z (10 ^ 21)) (Qabs x))
  then Some (pretty (Qnum (Qred x)))
  else None.

(** The number that a field stands for. *)
Definition numberOf (v : Json) : option Q :=
  match v with
  | JNumber q => Some q
  | JString s => n ← unsigned s; Some (inject_Z n)
  end.

(** [x + v] for a number [x], read as a number afterwards: the sum for a
    number [v], the concatenation of the two numerals for a string [v]. *)
Definition plus (x : Q) (v : Json) : option Q :=
  match v with
  | JNumber q => Some (x + q)%Q
  | JString s => str ← ToString x; ToNumber (str +:+ s)
  end.

(** [v + x], likewise. *)
Definition plusNumber (v : Json) (x : Q) : option Q :=
  match v with
  | JNumber q => Some (q + x)%Q
  | JString s => str ← ToString x; ToNumber (s +:+ str)
  end.

(** *** The route *)

Definition isIntJson (min : Z) (v : Json) : option bool :=
  match v with
  | JNumber q => Some (isInt min q)
  | JString s => n ← unsigned s; Some (bool_decide (min ≤ n))
  end.

Definition isFloatJson (min max : Q) (v : Json) : option bool :=
  match v with
  | JNumber q => Some (isFloat min max q)
  | JString s => n ← unsigned s; Some (in_range min max (inject_Z n))
  end.

Definition validationResult (b : RawBody) : option (list ValidationError) :=
  okDuration ← isIntJson 1 (raw_duration b);
  okScore ← isFloatJson 0 100 (raw_score b);
  okAccuracy ← isFloatJson 0 100 (raw_accuracy b);
  Some (check "gameType" (isIn gameTypes (raw_gameType b))
        ++ check "domain" (isIn domains (raw_domain b))
        ++ check "difficulty" (isIn difficulties (raw_difficulty b))
        ++ check "duration" okDuration
        ++ check "score" okScore
        ++ check "accuracy" okAccuracy).

(** [new Session({ userId: req.user.id, ...req.body })]: the fields are cast
    to the types of the schema, and a [userId] of the body wins. *)
Definition newSession (uid : Z) (b : RawBody) (e : Env) : option Session :=
  d ← numberOf (raw_duration b);
  sc ← numberOf (raw_score b);
  acc ← numberOf (raw_accuracy b);
  Some {| s_userId := default uid (raw_userId b);
          s_gameType := raw_gameType b; s_domain := raw_domain b;
          s_difficulty := raw_difficulty b; s_duration := d;
          s_score := sc; s_accuracy := acc;
          s_reactionTime := raw_reactionTime b;
          s_percentileScores :=
            Some (calculatePercentile sc (random e 0%nat) (random e 1%nat)
                                      (random e 2%nat));
          s_mlPredictions := None;
          s_createdAt := now e |}.

(** [Math.floor(sessionData.score / 10) * 10 + 50]: the division reads a
    string as a number. *)
Definition xpGained (b : RawBody) : option Z :=
  sc ← numberOf (raw_score b); Some (JS.floor (sc / 10) * 10 + 50).

(** Lines 43-52, on [sessionData], which holds the fields as they arrived:
    [+=] and [+] concatenate when the field is a string, and the result is
    read as a number by the cast of [stats.totalPlayTime] and by the
    division. *)
Definition updateStats (b : RawBody) (st : Stats) : option Stats :=
  let n := totalSessions st + 1 in
  playTime ← plus (totalPlayTime st) (raw_duration b);
  totalScore ← plus (averageScore st * inject_Z (n - 1)) (raw_score b);
  let currentCount := default 0 (gamesPlayed st !! raw_gameType b) in
  Some {| totalSessions := n;
          totalPlayTime := playTime;
          averageScore := (totalScore / inject_Z n)%Q;
          bestStreak := bestStreak st;
          gamesPlayed := <[raw_gameType b := currentCount + 1]> (gamesPlayed st) |}.

Definition updateUser (b : RawBody) (s : Session) (u : User)
    : option (LevelResult * User) :=
  st ← updateStats b (stats u);
  g ← xpGained b;
  let u1 := set_stats st u in
  let (levelResult, u2) := addXP g u1 in
  Some (levelResult, checkAndAwardBadges u2 s).

(** The fallback of the [catch] branch. *)
Definition mockPredictions (b : RawBody) (e : Env) : option MLPredictions :=
  next ← plusNumber (raw_score b) (random e 3%nat * 10);
  Some {| nextSessionScore := (next - 5)%Q;
          improvementProbability := random e 4%nat;
          recommendedDifficulty := raw_difficulty b |}.

(** The route handler, for an authenticated request of user [uid]. *)
Definition postSession (uid : Z) (b : RawBody) (e : Env) (db : Store)
    : option (Response * Store) :=
  errors ← validationResult b;
  match errors with
  | _ :: _ => Some (BadRequest errors, db)
  | [] =>
    session ← newSession uid b e;
    if negb (schema_valid session) then Some (ServerError, db)
    else
      match users db !! uid with
      | None =>
        Some (ServerError,
              {| sessions := sessions db ++ [session]; users := users db |})
      | Some user =>
        updated ← updateUser b session user;
        g ← xpGained b;
        predictions ← match mlResponse e with
                      | Some p => Some p
                      | None => mockPredictions b e
                      end;
        let session' := set_mlPredictions predictions session in
        Some (Created session' g updated.1 (xp updated.2) (level updated.2),
              {| sessions := sessions db ++ [session'];
                 users := <[uid := updated.2]> (users db) |})
      end
  end.

Record RawRequest := mkRawRequest {
  raw_user : Z;
  raw_body : RawBody;
  raw_env : Env
}.

Definition handle (db : Store) (r : RawRequest) : option (Response * Store) :=
  postSession (raw_user r) (raw_body r) (raw_env r) db.

(** The store after a sequence of requests, served one after the other. *)
Fixpoint serve (db : Store) (rs : list RawRequest) : option Store :=
  match rs with
  | [] => Some db
  | r :: rs' => answered ← handle db r; serve answered.2 rs'
  end.

(** *** Bodies with numbers *)

(** The body whose numeric fields are JSON numbers and which has no [userId]
    of its own. *)
Definition wire (b : Body) : RawBody :=
  {| raw_userId := None;
     raw_gameType := gameType b; raw_domain := domain b;
     raw_difficulty := difficulty b;
     raw_duration := JNumber (duration b); raw_score := JNumber (score b);
     raw_accuracy := JNumber (accuracy b);
     raw_reactionTime := reactionTime b |}.

Definition wireRequest (r : Request) : RawRequest :=
  {| raw_user := req_user r; raw_body := wire (req_body r); raw_env := req_env r |}.

(** *** Concrete requests *)

(** A flanker session of 45 seconds, score and duration sent as strings. *)
Definition stringBody (sc : string) : RawBody :=
  {| raw_userId := None;
     raw_gameType := "flanker"; raw_domain := "attention";
     raw_difficulty := "easy";
     raw_duration := JString "45"; raw_score := JString sc;
     raw_accuracy := JNumber 80; raw_reactionTime := None |}.

(** The same session with numbers, stored under the id of another user. *)
Definition foreignBody (owner : Z) (sc : Q) : RawBody :=
  {| raw_userId := Some owner;
     raw_gameType := "flanker"; raw_domain := "attention";
     raw_difficulty := "easy";
     raw_duration := JNumber 45; raw_score := JNumber sc;
     raw_accuracy := JNumber 80; raw_reactionTime := None |}.

(** An environment in which the ML service answers. *)
Definition servedEnv : Env :=
  {| now := 1700000000000; random := λ _, (1 # 2)%Q;
     mlResponse := Some {| nextSessionScore := 70; improvementProbability := 1 # 2;
                           recommendedDifficulty := "easy" |} |}.

Definition stringRequest (sc : string) : RawRequest :=
  {| raw_user := 7; raw_body := stringBody sc; raw_env := servedEnv |}.

End Wire.

(** * Properties *)

(** ** The User methods *)

Section UserFacts.

Implicit Types (u : User) (points : Z).

Lemma addXP_xp points u : xp (addXP points u).2 = xp u + points.
Proof. unfold addXP. case_bool_decide; reflexivity. Qed.

Lemma addXP_frame points u :
  let u' := (addXP points u).2 in
  badges u' = badges u ∧ stats u' = stats u ∧ streak u' = streak u
  ∧ lastActiveDate u' = lastActiveDate u
  ∧ firstName u' = firstName u ∧ lastName u' = lastName u.
Proof. unfold addXP. case_bool_decide; cbn; auto 10. Qed.

(** [addXP] never lowers the level, and sets it to the recomputed value
    exactly when that one is larger. *)
Lemma addXP_level points u :
  level (addXP points u).2 = Z.max (level u) ((xp u + points) / 1000 + 1).
Proof. unfold addXP. case_bool_decide; cbn in *; lia. Qed.

(** The level rule survives every gain of a non-negative amount. *)
Lemma addXP_consistent points u :
  0 ≤ points →
  level u = xp u / 1000 + 1 →
  level (addXP points u).2 = xp (addXP points u).2 / 1000 + 1.
Proof.
  intros Hp Hl. rewrite addXP_level, addXP_xp, Hl.
  assert (xp u / 1000 ≤ (xp u + points) / 1000) by (apply Z.div_le_mono; lia).
  lia.
Qed.

Lemma find_badge_None (id : string) (l : list Badge) :
  List.find (λ b, String.eqb (badge_id b) id) l = None ↔ id ∉ badge_id <$> l.
Proof.
  induction l as [|b l IH]; cbn.
  - split; [intros _; apply not_elem_of_nil | done].
  - destruct (String.eqb_spec (badge_id b) id) as [->|Hne].
    + split; [done | intros []; apply elem_of_cons; auto].
    + rewrite IH, not_elem_of_cons. split; [by split | by intros [_ ?]].
Qed.

(** [awardBadge] answers [false] and appends nothing for an id that is
    already there; otherwise it appends the badge and answers [true]. *)
Lemma awardBadge_spec (badge : Badge) u :
  (badge_id badge ∈ (badge_id <$> badges u) ∧ awardBadge badge u = (false, u))
  ∨ ((badge_id badge ∉ badge_id <$> badges u)
     ∧ awardBadge badge u = (true, set_badges (badges u ++ [badge]) u)).
Proof.
  unfold awardBadge.
  destruct (List.find _ (badges u)) eqn:Hf.
  - left. split; [|done].
    destruct (decide (badge_id badge ∈ badge_id <$> badges u)) as [|Hn]; [done|].
    apply find_badge_None in Hn. congruence.
  - right. split; [|done]. by apply find_badge_None.
Qed.

End UserFacts.

(** [grant_frame b u H] records as [H] what the XP grant for the body [b]
    leaves alone in the user [u]. *)
Ltac grant_frame b u H :=
  pose proof (addXP_frame (SessionRecorder.xpGained b)
                (set_stats (SessionRecorder.updateStats b (stats u)) u)) as H;
  cbn zeta in H;
  cbn [set_stats badges stats streak lastActiveDate firstName lastName] in H.

(** ** The session recorder *)

Section RecorderFacts.

Import SessionRecorder.

Implicit Types (u : User) (b : Body) (s : Session) (db : Store).

Lemma untouched_refl u : untouched u u.
Proof. by repeat split. Qed.

Lemma untouched_trans u1 u2 u3 :
  untouched u1 u2 → untouched u2 u3 → untouched u1 u3.
Proof. unfold untouched. intuition congruence. Qed.

Lemma awardOne_untouched u badge : untouched u (awardOne u badge).
Proof.
  unfold awardOne.
  destruct (awardBadge_spec badge u) as [[_ ->]|[_ ->]]; [apply untouched_refl|].
  pose proof (addXP_frame 100 (set_badges (badges u ++ [badge]) u)) as H.
  cbn zeta in H. unfold untouched. cbn in *. intuition congruence.
Qed.

Lemma awardOne_consistent u badge :
  level u = xp u / 1000 + 1 →
  level (awardOne u badge) = xp (awardOne u badge) / 1000 + 1.
Proof.
  intros H. unfold awardOne.
  destruct (awardBadge_spec badge u) as [[_ ->]|[_ ->]]; [done|].
  by apply addXP_consistent.
Qed.

Lemma awardOne_xp_mono u badge : xp u ≤ xp (awardOne u badge).
Proof.
  unfold awardOne.
  destruct (awardBadge_spec badge u) as [[_ ->]|[_ ->]]; [done|].
  rewrite addXP_xp. cbn. lia.
Qed.

(** The ids after one step of the loop: the badge is appended when new. *)
Lemma awardOne_badges u badge :
  badge_id <$> badges (awardOne u badge) =
  if bool_decide (badge_id badge ∈ badge_id <$> badges u)
  then badge_id <$> badges u
  else (badge_id <$> badges u) ++ [badge_id badge].
Proof.
  unfold awardOne.
  destruct (awardBadge_spec badge u) as [[Hin ->]|[Hin ->]].
  - by rewrite bool_decide_eq_true_2.
  - rewrite bool_decide_eq_false_2 by done.
    destruct (addXP_frame 100 (set_badges (badges u ++ [badge]) u)) as [-> _].
    cbn. by rewrite fmap_app.
Qed.

Lemma awardLoop_untouched l u : untouched u (foldl awardOne u l).
Proof.
  revert u. induction l as [|badge l IH]; intros u; cbn.
  - apply untouched_refl.
  - eapply untouched_trans; [apply awardOne_untouched | apply IH].
Qed.

Lemma awardLoop_consistent l u :
  level u = xp u / 1000 + 1 →
  level (foldl awardOne u l) = xp (foldl awardOne u l) / 1000 + 1.
Proof.
  revert u. induction l as [|badge l IH]; intros u H; cbn; [done|].
  by apply IH, awardOne_consistent.
Qed.

Lemma badgeCount_pos id u : id ∈ badge_id <$> badges u ↔ (0 < badgeCount id u)%nat.
Proof.
  unfold badgeCount. split.
  - intros Hin.
    assert (id ∈ filter (λ i, i = id) (badge_id <$> badges u)) as H
      by (apply list_elem_of_filter; done).
    destruct (filter _ _); [by apply elem_of_nil in H | cbn; lia].
  - intros Hlen. destruct (filter _ _) as [|i l] eqn:E; [cbn in Hlen; lia|].
    assert (i ∈ filter (λ i, i = id) (badge_id <$> badges u)) as H
      by (rewrite E; apply elem_of_cons; auto).
    apply list_elem_of_filter in H as [-> ?]. done.
Qed.

(** A step of the loop never adds a badge whose id is already present. *)
Lemma awardOne_count id u badge :
  id ∈ badge_id <$> badges u →
  badgeCount id (awardOne u badge) = badgeCount id u.
Proof.
  intros Hin. unfold badgeCount. rewrite awardOne_badges.
  case_bool_decide as Hb; [done|].
  rewrite filter_app, length_app, filter_cons_False, filter_nil; [cbn; lia|].
  intros Heq. by rewrite Heq in Hb.
Qed.

Lemma awardOne_keeps id u badge :
  id ∈ badge_id <$> badges u → id ∈ badge_id <$> badges (awardOne u badge).
Proof.
  intros Hin. rewrite awardOne_badges. case_bool_decide; [done|].
  apply elem_of_app; auto.
Qed.

Lemma awardLoop_count id l u :
  id ∈ badge_id <$> badges u →
  badgeCount id (foldl awardOne u l) = badgeCount id u.
Proof.
  revert u. induction l as [|badge l IH]; intros u Hin; cbn; [done|].
  rewrite IH by by apply awardOne_keeps. by apply awardOne_count.
Qed.

(** The ids a run of the loop can add are those of its candidates. *)
Lemma awardLoop_new id l u :
  id ∈ badge_id <$> badges (foldl awardOne u l) →
  id ∈ badge_id <$> badges u ∨ id ∈ badge_id <$> l.
Proof.
  revert u. induction l as [|badge l IH]; intros u; cbn; [auto|].
  intros H. apply IH in H as [H|H].
  - rewrite awardOne_badges in H. case_bool_decide; [auto|].
    apply elem_of_app in H as [H|H]; [auto|].
    apply list_elem_of_singleton in H as ->. right. apply elem_of_cons; auto.
  - right. apply elem_of_cons; auto.
Qed.

(** *** Validation *)

Lemma check_nil field ok : check field ok = [] ↔ ok = true.
Proof. destruct ok; cbn; split; congruence. Qed.

Lemma elem_of_check field field' ok :
  {| path := field' |} ∈ check field ok ↔ field' = field ∧ ok = false.
Proof.
  destruct ok; cbn.
  - split; [intros H; by apply elem_of_nil in H | intros [_ ?]; congruence].
  - rewrite list_elem_of_singleton. split; [intros [= ->]; done | intros [-> _]; done].
Qed.

Lemma validationResult_nil b :
  validationResult b = [] ↔
  isIn gameTypes (gameType b) = true ∧ isIn domains (domain b) = true
  ∧ isIn difficulties (difficulty b) = true ∧ isInt 1 (duration b) = true
  ∧ isFloat 0 100 (score b) = true ∧ isFloat 0 100 (accuracy b) = true.
Proof.
  unfold validationResult.
  rewrite !app_nil, !check_nil. tauto.
Qed.

Lemma in_range_spec lo hi x : in_range lo hi x = true ↔ (lo <= x)%Q ∧ (x <= hi)%Q.
Proof. unfold in_range. rewrite andb_true_iff, !Qle_bool_iff. done. Qed.

Lemma valid_score b : validationResult b = [] → (0 <= score b)%Q ∧ (score b <= 100)%Q.
Proof.
  intros H. apply validationResult_nil in H as (_ & _ & _ & _ & H & _).
  by apply in_range_spec.
Qed.

(** An accepted session is worth between 50 and 150 XP. *)
Lemma xpGained_bounds b : validationResult b = [] → 50 ≤ xpGained b ≤ 150.
Proof.
  intros H. apply valid_score in H as [Hlo Hhi]. unfold xpGained, JS.floor.
  assert (0 ≤ Qfloor (score b / 10)).
  { change 0 with (Qfloor 0). apply Qfloor_resp_le.
    apply Qle_shift_div_l; [reflexivity|]. by rewrite Qmult_0_l. }
  assert (Qfloor (score b / 10) ≤ 10).
  { change 10 with (Qfloor 10). apply Qfloor_resp_le.
    apply Qle_shift_div_r; [reflexivity|]. done. }
  lia.
Qed.

(** *** The handler, case by case *)

Lemma postSession_cases uid b e db :
  (validationResult b ≠ []
   ∧ postSession uid b e db = (BadRequest (validationResult b), db))
  ∨ (validationResult b = []
     ∧ (postSession uid b e db).1 = ServerError
     ∧ users (postSession uid b e db).2 = users db)
  ∨ (∃ user, validationResult b = []
     ∧ users db !! uid = Some user
     ∧ isCreated (postSession uid b e db).1 = true
     ∧ users (postSession uid b e db).2 =
         <[uid := (updateUser b (newSession uid b e) user).2]> (users db)).
Proof.
  unfold postSession.
  destruct (validationResult b) as [|err errs] eqn:Hv;
    [right | left; split; [discriminate | reflexivity]].
  destruct (schema_valid _); cbn [negb]; [|left; done].
  destruct (users db !! uid) as [user|] eqn:Hu; [right | left; done].
  exists user. destruct (updateUser _ _ user) as [lr user'] eqn:Hup. done.
Qed.

(** The user after an accepted submission: the stats are rewritten, the
    session is granted its XP, and the award loop runs on the result. *)
Lemma updateUser_eq b s u :
  (updateUser b s u).2 =
  checkAndAwardBadges (addXP (xpGained b) (set_stats (updateStats b (stats u)) u)).2 s.
Proof. unfold updateUser. by destruct (addXP _ _). Qed.

Lemma updateUser_stats b s u :
  stats (updateUser b s u).2 = updateStats b (stats u).
Proof.
  rewrite updateUser_eq. unfold checkAndAwardBadges.
  destruct (awardLoop_untouched
              (candidateBadges (addXP (xpGained b)
                 (set_stats (updateStats b (stats u)) u)).2 s)
              (addXP (xpGained b) (set_stats (updateStats b (stats u)) u)).2)
    as [-> _].
  grant_frame b u H. by destruct H as (_ & -> & _).
Qed.

Lemma updateUser_frame b s u :
  let u' := (updateUser b s u).2 in
  streak u' = streak u ∧ lastActiveDate u' = lastActiveDate u
  ∧ bestStreak (stats u') = bestStreak (stats u)
  ∧ firstName u' = firstName u ∧ lastName u' = lastName u.
Proof.
  cbn zeta. rewrite updateUser_stats, updateUser_eq. unfold checkAndAwardBadges.
  destruct (awardLoop_untouched
              (candidateBadges (addXP (xpGained b)
                 (set_stats (updateStats b (stats u)) u)).2 s)
              (addXP (xpGained b) (set_stats (updateStats b (stats u)) u)).2)
    as (_ & -> & -> & -> & ->).
  grant_frame b u H. by destruct H as (_ & _ & -> & -> & -> & ->).
Qed.

Lemma updateUser_consistent b s u :
  validationResult b = [] →
  level u = xp u / 1000 + 1 →
  level (updateUser b s u).2 = xp (updateUser b s u).2 / 1000 + 1.
Proof.
  intros Hv Hl. rewrite updateUser_eq.
  apply awardLoop_consistent, addXP_consistent; [|done].
  apply xpGained_bounds in Hv. lia.
Qed.

Lemma updateUser_count id b s u :
  id ∈ badge_id <$> badges u →
  badgeCount id (updateUser b s u).2 = badgeCount id u.
Proof.
  intros Hin. rewrite updateUser_eq. grant_frame b u H. destruct H as (Hb & _).
  unfold checkAndAwardBadges. rewrite awardLoop_count by (by rewrite Hb).
  unfold badgeCount. by rewrite Hb.
Qed.

End RecorderFacts.

(** ** Sequences of submissions *)

Section ServeFacts.

Import SessionRecorder.

Implicit Types (u : User) (db : Store) (r : Request) (rs : list Request).

(** One request either leaves the document of [uid] as it is, or it is an
    accepted submission of [uid] and rewrites it with [updateUser]. *)
Lemma handle_user db r uid u :
  users db !! uid = Some u →
  (users (handle db r).2 !! uid = Some u
   ∧ bool_decide (req_user r = uid) && isCreated (handle db r).1 = false)
  ∨ (req_user r = uid
     ∧ isCreated (handle db r).1 = true
     ∧ validationResult (req_body r) = []
     ∧ users (handle db r).2 !! uid =
         Some (updateUser (req_body r)
                 (newSession uid (req_body r) (req_env r)) u).2).
Proof.
  intros Hu. unfold handle.
  destruct (postSession_cases (req_user r) (req_body r) (req_env r) db)
    as [[Hv ->]|[(Hv & Hr & Hus)|(user & Hv & Hlook & Hr & Hus)]].
  - left. cbn. split; [done | apply andb_false_r].
  - left. rewrite Hus, Hr. split; [done | apply andb_false_r].
  - destruct (decide (req_user r = uid)) as [<-|Hne].
    + right. rewrite Hus, lookup_insert_eq. rewrite Hlook in Hu.
      injection Hu as ->. done.
    + left. rewrite Hus, lookup_insert_ne by done.
      split; [done|]. by rewrite bool_decide_eq_false_2.
Qed.

(** A property of the document of [uid] that accepted submissions keep
    holds after any sequence of requests. *)
Lemma serve_invariant (P : User → Prop) uid :
  (∀ b s u, validationResult b = [] → P u → P (updateUser b s u).2) →
  ∀ rs db u, users db !! uid = Some u → P u →
    ∃ u', users (serve db rs) !! uid = Some u' ∧ P u'.
Proof.
  intros Hstep rs. induction rs as [|r rs IH]; intros db u Hu HP; cbn.
  - eauto.
  - destruct (handle_user db r uid u Hu) as [[Hu' _]|(_ & _ & Hv & Hu')];
      eapply IH; eauto.
Qed.

Lemma sum_from (a : Q) (l : list Q) : (foldl Qplus a l == a + JS.sum l)%Q.
Proof.
  unfold JS.sum. revert a. induction l as [|x l IH]; intros a; cbn.
  - ring.
  - rewrite IH, (IH (0 + x)%Q). ring.
Qed.

Lemma sum_cons (x : Q) (l : list Q) : (JS.sum (x :: l) == x + JS.sum l)%Q.
Proof. unfold JS.sum at 1. cbn. rewrite sum_from. ring. Qed.

Lemma inject_Z_nonzero (n : Z) : n ≠ 0 → ¬ (inject_Z n == 0)%Q.
Proof.
  intros Hn H. apply (Qeq_bool_neq (inject_Z n) 0); [|done].
  unfold Qeq_bool, inject_Z. cbn. apply Z.eqb_neq. lia.
Qed.

(** The incremental update keeps "average times count = sum of scores". *)
Lemma updateStats_total (b : Body) (st : Stats) (total : Q) :
  0 ≤ totalSessions st →
  (averageScore st * inject_Z (totalSessions st) == total)%Q →
  (averageScore (updateStats b st) * inject_Z (totalSessions (updateStats b st))
   == total + score b)%Q.
Proof.
  intros Hn Ht. cbn.
  replace (totalSessions st + 1 - 1) with (totalSessions st) by lia.
  rewrite <- Ht. field. apply inject_Z_nonzero. lia.
Qed.

Lemma serve_running_total uid rs : ∀ db u (total : Q),
  users db !! uid = Some u →
  0 ≤ totalSessions (stats u) →
  (averageScore (stats u) * inject_Z (totalSessions (stats u)) == total)%Q →
  ∃ u', users (serve db rs) !! uid = Some u'
    ∧ totalSessions (stats u') =
        totalSessions (stats u) + Z.of_nat (length (acceptedScores uid db rs))
    ∧ (averageScore (stats u') * inject_Z (totalSessions (stats u'))
       == total + JS.sum (acceptedScores uid db rs))%Q.
Proof.
  induction rs as [|r rs IH]; intros db u total Hu Hn Ht; cbn [serve foldl acceptedScores].
  - exists u. split; [done|]. split; [cbn; lia|].
    rewrite Ht. unfold JS.sum. cbn. ring.
  - fold (serve (handle db r).2 rs).
    destruct (handle db r) as [resp db'] eqn:Hh.
    destruct (handle_user db r uid u Hu) as [[Hu' Hb]|(Hr & Hc & Hv & Hu')];
      rewrite Hh in *; cbn [fst snd] in *.
    + rewrite Hb. cbn [app]. by apply IH.
    + rewrite Hc, bool_decide_eq_true_2 by done. cbn [andb].
      edestruct (IH db') as (u' & Hlook & Hcount & Hsum); [exact Hu'| | |].
      * rewrite updateUser_stats. cbn. lia.
      * rewrite updateUser_stats. by apply updateStats_total.
      * exists u'. split; [done|]. rewrite updateUser_stats in Hcount.
        split; [cbn in *; lia|].
        rewrite Hsum. change ([score (req_body r)] ++ ?l) with (score (req_body r) :: l).
        rewrite sum_cons. ring.
Qed.

(** C1 (running average): the update goes wrong for scores sent as strings.
    Ada, without sessions so far, submits two sessions whose [score] and
    [duration] are the JSON strings "100" and "45", then "50" and "45".  The
    validators accept the strings, both requests are answered 201 and the
    sessions are stored with the scores 100 and 50, whose mean is 75.  But
    [sessionData.score] is added as it arrived, and [+] with a string
    concatenates: the first update gives "0100" / 1 = 100, the second
    "10050" / 2, so that [averageScore] ends at 5025; [totalPlayTime],
    updated the same way, ends at 4545. *)
Theorem string_scores_are_concatenated :
  ∃ answer1 db1 answer2 db2 u,
    Wire.handle sampleStore (Wire.stringRequest "100") = Some (answer1, db1)
    ∧ isCreated answer1 = true
    ∧ Wire.handle db1 (Wire.stringRequest "50") = Some (answer2, db2)
    ∧ isCreated answer2 = true
    ∧ s_score <$> sessions db2 = [100%Q; 50%Q]
    ∧ users db2 !! 7 = Some u
    ∧ totalSessions (stats u) = 2
    ∧ (averageScore (stats u) == 5025)%Q
    ∧ (mean [100; 50] == 75)%Q
    ∧ (totalPlayTime (stats u) == 4545)%Q.
Proof.
  eexists _, _, _, _, _.
  split; [vm_compute; reflexivity|]. split; [reflexivity|].
  split; [vm_compute; reflexivity|]. split; [reflexivity|].
  split; [vm_compute; reflexivity|]. split; [vm_compute; reflexivity|].
  split; [reflexivity|]. repeat split; vm_compute; reflexivity.
Qed.

(** The running average for scores sent as numbers.  Take a user without
    sessions and serve any sequence of requests.  Every accepted submission
    of the user performs the
    update [newAvg = (oldAvg * (n - 1) + newScore) / n] with [n] the
    incremented [totalSessions]; and once at least one submission was
    accepted, [totalSessions] is the number N of accepted submissions and
    [averageScore] is the arithmetic mean of their scores s1..sN (over exact
    rationals). *)
Theorem averageScore_is_mean uid db rs u :
  users db !! uid = Some u →
  totalSessions (stats u) = 0 →
  acceptedScores uid db rs ≠ [] →
  (∀ b s u0,
     let st := stats u0 in
     let st' := stats (updateUser b s u0).2 in
     totalSessions st' = totalSessions st + 1
     ∧ averageScore st' =
         ((averageScore st * inject_Z (totalSessions st' - 1) + score b)
          / inject_Z (totalSessions st'))%Q)
  ∧ ∃ u', users (serve db rs) !! uid = Some u'
      ∧ totalSessions (stats u') = Z.of_nat (length (acceptedScores uid db rs))
      ∧ (averageScore (stats u') == mean (acceptedScores uid db rs))%Q.
Proof.
  intros Hu Hn Hne. split.
  { intros b s u0. cbn zeta. rewrite updateUser_stats. done. }
  destruct (serve_running_total uid rs db u 0 Hu) as (u' & Hlook & Hcount & Hsum).
  { lia. }
  { rewrite Hn. ring. }
  exists u'. split; [done|]. rewrite Hn in Hcount. split; [lia|].
  assert (0 < totalSessions (stats u')) as Hpos.
  { destruct (acceptedScores uid db rs); [done | cbn in Hcount; lia]. }
  unfold mean. replace (Z.of_nat (length (acceptedScores uid db rs)))
    with (totalSessions (stats u')) by lia.
  assert (JS.sum (acceptedScores uid db rs)
          == averageScore (stats u') * inject_Z (totalSessions (stats u')))%Q
    as -> by (rewrite Hsum; ring).
  field. apply inject_Z_nonzero. lia.
Qed.

Lemma averageScore_is_mean_witness :
  ∃ u', users (serve sampleStore sampleRequests) !! 7 = Some u'
    ∧ totalSessions (stats u') = 2
    ∧ (averageScore (stats u') == mean [100; 50])%Q.
Proof.
  refine (proj2 (averageScore_is_mean 7 sampleStore sampleRequests
                   (newUser "Ada" "Lovelace" 1690000000000) _ _ _)).
  - reflexivity.
  - reflexivity.
  - vm_compute. discriminate.
Defined.

(** C2 (level follows xp).  Start from [level = 1], [xp = 0] and apply any
    sequence of XP-awarding operations, each a session grant for a validated
    body or a badge bonus, each through [addXP].  After every operation, that
    is after every prefix of the sequence,
    [level = floor(xp / 1000) + 1]. *)
Theorem level_follows_xp u (ops : list XPOp) (k : nat) :
  level u = 1 →
  xp u = 0 →
  Forall granted ops →
  level (foldl award u (take k ops)) = xp (foldl award u (take k ops)) / 1000 + 1.
Proof.
  intros Hl Hx Hops.
  assert (level u = xp u / 1000 + 1) as Hinv by (rewrite Hl, Hx; reflexivity).
  assert (Forall granted (take k ops)) as Hk by (by apply Forall_take).
  clear Hl Hx Hops. revert u Hinv.
  induction Hk as [|op l Hop _ IH]; intros u Hinv; cbn [foldl]; [done|].
  apply IH. unfold award. apply addXP_consistent; [|done].
  destruct op as [b|]; cbn in *; [|lia].
  apply xpGained_bounds in Hop. lia.
Qed.

Lemma level_follows_xp_witness :
  let u' := foldl award (newUser "Ada" "Lovelace" 0)
              (take 12 (replicate 11 (SessionGrant (sampleBody 95)) ++ [BadgeBonus])) in
  level u' = xp u' / 1000 + 1.
Proof.
  apply (level_follows_xp (newUser "Ada" "Lovelace" 0)
           (replicate 11 (SessionGrant (sampleBody 95)) ++ [BadgeBonus]) 12).
  - reflexivity.
  - reflexivity.
  - apply Forall_app. split.
    + apply Forall_replicate. vm_compute. reflexivity.
    + apply Forall_singleton. exact I.
Defined.

(** The same rule at the level of the endpoint: it holds for a user after any
    sequence of requests when it held before. *)
Lemma serve_level_consistent uid db rs u :
  users db !! uid = Some u →
  level u = xp u / 1000 + 1 →
  ∃ u', users (serve db rs) !! uid = Some u' ∧ level u' = xp u' / 1000 + 1.
Proof.
  intros Hu Hl.
  apply (serve_invariant (λ u, level u = xp u / 1000 + 1) uid) with (u := u); try done.
  intros b s u0 Hv Hinv. by apply updateUser_consistent.
Qed.

(** C3, as stated, fails: after the scenario the user holds 350 XP, not 150. *)
Lemma scenario_xp_is_not_150 :
  let after := users (postSession 7 (scenarioBody None) sampleEnv sampleStore).2 !! 7 in
  xp <$> after = Some 350 ∧ xp <$> after ≠ Some 150.
Proof. split; [vm_compute; reflexivity | vm_compute; discriminate]. Qed.

(** C3 (first perfect session), amended.  A user with the schema defaults
    submits score 100, accuracy 100, duration 60 for n-back / working_memory
    / medium (with no reaction time, or one that is not negative).  The
    request is answered 201 with [xpGained = 150], and afterwards
    [totalSessions = 1], [level = 1], the badges are exactly first-session and
    perfect-score, [averageScore = 100], and [xp = 350]: the 150 of the
    session and 100 for each of the two new badges. *)
Theorem first_perfect_session uid first last created rt e db :
  users db !! uid = Some (newUser first last created) →
  from_option (λ t, 0 <= t)%Q True rt →
  ∃ session lr u',
    (postSession uid (scenarioBody rt) e db).1 = Created session 150 lr 350 1
    ∧ users (postSession uid (scenarioBody rt) e db).2 !! uid = Some u'
    ∧ totalSessions (stats u') = 1
    ∧ xp u' = 350
    ∧ level u' = 1
    ∧ badge_id <$> badges u' = ["first-session"; "perfect-score"]
    ∧ (averageScore (stats u') == 100)%Q.
Proof.
  intros Hu Hrt. unfold postSession.
  change (validationResult (scenarioBody rt)) with (@nil ValidationError).
  assert (schema_valid (newSession uid (scenarioBody rt) e) = true) as ->.
  { unfold schema_valid. cbn [newSession scenarioBody s_gameType s_domain
      s_difficulty s_duration s_score s_accuracy s_reactionTime gameType
      domain difficulty duration score accuracy reactionTime].
    destruct rt as [t|]; cbn in Hrt |- *; [|reflexivity].
    by apply Qle_bool_iff. }
  cbn [negb]. rewrite Hu.
  match goal with
  | |- context [updateUser ?b ?s ?u] =>
    let v := eval vm_compute in (updateUser b s u) in
    change (updateUser b s u) with v
  end.
  cbn [fst snd users]. rewrite lookup_insert_eq.
  eexists _, _, _. repeat split; reflexivity.
Qed.

Lemma first_perfect_session_witness :
  ∃ session lr u',
    (postSession 7 (scenarioBody (Some 420%Q)) sampleEnv sampleStore).1
      = Created session 150 lr 350 1
    ∧ users (postSession 7 (scenarioBody (Some 420%Q)) sampleEnv sampleStore).2 !! 7
      = Some u'
    ∧ totalSessions (stats u') = 1
    ∧ xp u' = 350
    ∧ level u' = 1
    ∧ badge_id <$> badges u' = ["first-session"; "perfect-score"]
    ∧ (averageScore (stats u') == 100)%Q.
Proof.
  apply (first_perfect_session 7 "Ada" "Lovelace" 1690000000000).
  - reflexivity.
  - cbn. discriminate.
Defined.

(** C5 (no duplicate badge).  Once a badge id is among the user's badges,
    no sequence of requests changes the number of badges with that id, and
    [awardBadge] answers [false] and appends nothing for a badge with that
    id, before and after. *)
Theorem badge_never_duplicated uid db rs u id :
  users db !! uid = Some u →
  id ∈ badge_id <$> badges u →
  ∃ u', users (serve db rs) !! uid = Some u'
    ∧ badgeCount id u' = badgeCount id u
    ∧ (∀ badge, badge_id badge = id →
         awardBadge badge u = (false, u) ∧ awardBadge badge u' = (false, u')).
Proof.
  intros Hu Hin.
  destruct (serve_invariant
              (λ v, id ∈ badge_id <$> badges v ∧ badgeCount id v = badgeCount id u)
              uid) with (rs := rs) (db := db) (u := u)
    as (u' & Hlook & Hin' & Hcount); try done.
  { intros b s v _ [Hv Hc]. split.
    - apply badgeCount_pos. rewrite updateUser_count by done.
      by apply badgeCount_pos.
    - by rewrite updateUser_count. }
  exists u'. split; [done|]. split; [done|].
  intros badge <-. split.
  - destruct (awardBadge_spec badge u) as [[_ ->]|[Hn _]]; done.
  - destruct (awardBadge_spec badge u') as [[_ ->]|[Hn _]]; done.
Qed.

Lemma badge_never_duplicated_witness :
  ∃ u', users (serve (postSession 7 (scenarioBody None) sampleEnv sampleStore).2
                 sampleRequests) !! 7 = Some u'
    ∧ badgeCount "perfect-score" u' = 1%nat.
Proof.
  destruct (badge_never_duplicated 7
              (postSession 7 (scenarioBody None) sampleEnv sampleStore).2
              sampleRequests
              (updateUser (scenarioBody None)
                 (newSession 7 (scenarioBody None) sampleEnv)
                 (newUser "Ada" "Lovelace" 1690000000000)).2
              "perfect-score")
    as (u' & Hlook & Hcount & _).
  - vm_compute. reflexivity.
  - vm_compute. apply list_elem_of_In. right. left. reflexivity.
  - exists u'. split; [exact Hlook | exact Hcount].
Defined.

Lemma isInt_spec (x : Q) :
  isInt 1 x = true ↔
  Qden (Qred x) = 1%positive ∧ (1 <= x < inject_Z (10 ^ 21))%Q.
Proof.
  unfold isInt.
  rewrite !andb_true_iff, bool_decide_eq_true, negb_true_iff, Qle_bool_iff,
    <- not_true_iff_false, Qle_bool_iff.
  split.
  - intros [[Hint Hmin] Hmax]. split; [done|]. split; [done|].
    apply Qnot_le_lt. intros Hle. apply Hmax.
    rewrite Qabs_pos; [done|]. apply (Qle_trans _ 1); [done | exact Hmin].
  - intros [Hint [Hmin Hmax]]. split; [done|].
    intros Hle. rewrite Qabs_pos in Hle.
    + by apply Qle_not_lt in Hle.
    + apply (Qle_trans _ 1); [done | exact Hmin].
Qed.

(** C6 (validation).  When a constraint fails (game type, domain or
    difficulty outside its enumeration, duration below 1, score or accuracy
    outside [0,100]) the request is answered 400, the store is left as it
    was (no session persisted, no user modified), and the errors name
    exactly the fields whose validator failed; for the duration that is: not
    an integer, below 1, or from 10^21 on. *)
Theorem invalid_submission_rejected uid (b : Body) e db :
  gameType b ∉ gameTypes ∨ domain b ∉ domains ∨ difficulty b ∉ difficulties
  ∨ (duration b < 1)%Q
  ∨ ¬ (0 <= score b ∧ score b <= 100)%Q
  ∨ ¬ (0 <= accuracy b ∧ accuracy b <= 100)%Q →
  ∃ errors,
    postSession uid b e db = (BadRequest errors, db)
    ∧ errors ≠ []
    ∧ ({| path := "gameType" |} ∈ errors ↔ gameType b ∉ gameTypes)
    ∧ ({| path := "domain" |} ∈ errors ↔ domain b ∉ domains)
    ∧ ({| path := "difficulty" |} ∈ errors ↔ difficulty b ∉ difficulties)
    ∧ ({| path := "duration" |} ∈ errors ↔
         ¬ (Qden (Qred (duration b)) = 1%positive
            ∧ (1 <= duration b < inject_Z (10 ^ 21))%Q))
    ∧ ({| path := "score" |} ∈ errors ↔ ¬ (0 <= score b ∧ score b <= 100)%Q)
    ∧ ({| path := "accuracy" |} ∈ errors ↔
         ¬ (0 <= accuracy b ∧ accuracy b <= 100)%Q).
Proof.
  intros Hbad.
  assert (∀ l x, isIn l x = false ↔ x ∉ l) as HisIn.
  { intros l x. unfold isIn. by rewrite bool_decide_eq_false. }
  assert (∀ x, isFloat 0 100 x = false ↔ ¬ (0 <= x ∧ x <= 100)%Q) as Hfloat.
  { intros x. unfold isFloat. rewrite <- in_range_spec. by destruct (in_range 0 100 x). }
  assert (isInt 1 (duration b) = false ↔
          ¬ (Qden (Qred (duration b)) = 1%positive
             ∧ (1 <= duration b < inject_Z (10 ^ 21))%Q)) as Hint.
  { rewrite <- not_true_iff_false. apply not_iff_compat, isInt_spec. }
  assert (validationResult b ≠ []) as Hne.
  { rewrite validationResult_nil. intros (H1 & H2 & H3 & H4 & H5 & H6).
    destruct Hbad as [H|[H|[H|[H|[H|H]]]]].
    - apply HisIn in H. congruence.
    - apply HisIn in H. congruence.
    - apply HisIn in H. congruence.
    - assert (isInt 1 (duration b) = false); [|congruence].
      apply Hint. intros [_ [Hle _]]. by apply Qlt_not_le in H.
    - apply Hfloat in H. congruence.
    - apply Hfloat in H. congruence. }
  exists (validationResult b).
  destruct (postSession_cases uid b e db) as [[_ ->]|[[Hv _]|(? & Hv & _)]];
    [|done..].
  split; [done|]. split; [done|].
  unfold validationResult. rewrite !elem_of_app, !elem_of_check.
  rewrite !HisIn, !Hfloat, Hint.
  repeat split; intros H; intuition (try discriminate; auto).
Qed.

Lemma invalid_submission_rejected_witness :
  ∃ errors,
    postSession 7 (sampleBody 120) sampleEnv sampleStore = (BadRequest errors, sampleStore)
    ∧ {| path := "score" |} ∈ errors.
Proof.
  destruct (invalid_submission_rejected 7 (sampleBody 120) sampleEnv sampleStore)
    as (errors & Hpost & _ & _ & _ & _ & _ & Hscore & _).
  - right. right. right. right. left. intros [_ H]. vm_compute in H. by apply H.
  - exists errors. split; [exact Hpost|]. apply Hscore.
    intros [_ H]. vm_compute in H. by apply H.
Defined.

(** What a call of [updateStreak] would have shown: the date of the call. *)
Lemma updateStreak_lastActiveDate today u :
  lastActiveDate (updateStreak today u) = today.
Proof. reflexivity. Qed.

(** With a streak of 0 the rule set proposes no streak badge. *)
Lemma candidateBadges_no_streak u s id :
  streak u = 0 →
  id ∈ badge_id <$> candidateBadges u s →
  id ∉ streakBadgeIds.
Proof.
  intros Hs. unfold candidateBadges. rewrite Hs.
  change (JS.includes [7; 14; 30] 0) with false. cbn iota.
  rewrite app_nil_r, !fmap_app, !elem_of_app.
  intros [H|[H|H]].
  - case_bool_decide; cbn in H.
    + apply list_elem_of_singleton in H as ->.
      apply (bool_decide_unpack _). vm_compute. exact I.
    + by apply elem_of_nil in H.
  - destruct (JS.strict_eq _ _); cbn in H.
    + apply list_elem_of_singleton in H as ->.
      apply (bool_decide_unpack _). vm_compute. exact I.
    + by apply elem_of_nil in H.
  - unfold JS.includes in H. case_bool_decide as Hn; cbn in H.
    + apply list_elem_of_singleton in H as ->.
      apply list_elem_of_In in Hn. cbn in Hn.
      destruct Hn as [<-|[<-|[<-|[<-|[]]]]];
        apply (bool_decide_unpack _); vm_compute; exact I.
    + by apply elem_of_nil in H.
Qed.

Lemma updateUser_no_streak_badge b s u :
  streak u = 0 →
  (∀ id, id ∈ badge_id <$> badges u → id ∉ streakBadgeIds) →
  ∀ id, id ∈ badge_id <$> badges (updateUser b s u).2 → id ∉ streakBadgeIds.
Proof.
  intros Hs Hold id. rewrite updateUser_eq. unfold checkAndAwardBadges.
  grant_frame b u H. destruct H as (Hb & _ & Hst & _).
  intros [Hin|Hin]%awardLoop_new.
  - apply Hold. by rewrite <- Hb.
  - eapply candidateBadges_no_streak; [|done]. congruence.
Qed.

(** C10 (streak is left alone).  Whatever requests are served, the user's
    [streak], [bestStreak] and [lastActiveDate] are what they were; and for a
    user whose streak has its initial value 0 and who holds no
    streak-milestone badge, none of streak-7, streak-14, streak-30 is ever
    awarded. *)
Theorem streak_never_touched uid db rs u :
  users db !! uid = Some u →
  ∃ u', users (serve db rs) !! uid = Some u'
    ∧ streak u' = streak u
    ∧ bestStreak (stats u') = bestStreak (stats u)
    ∧ lastActiveDate u' = lastActiveDate u
    ∧ (streak u = 0 →
       (∀ id, id ∈ badge_id <$> badges u → id ∉ streakBadgeIds) →
       ∀ id, id ∈ badge_id <$> badges u' → id ∉ streakBadgeIds).
Proof.
  intros Hu.
  destruct (serve_invariant
              (λ v, streak v = streak u
                    ∧ bestStreak (stats v) = bestStreak (stats u)
                    ∧ lastActiveDate v = lastActiveDate u
                    ∧ (streak u = 0 →
                       (∀ id, id ∈ badge_id <$> badges u → id ∉ streakBadgeIds) →
                       ∀ id, id ∈ badge_id <$> badges v → id ∉ streakBadgeIds))
              uid) with (rs := rs) (db := db) (u := u) as (u' & Hlook & H); try done.
  - intros b s v _ (H1 & H2 & H3 & H4).
    destruct (updateUser_frame b s v) as (-> & -> & -> & _).
    repeat split; try done.
    intros Hz Hold. apply updateUser_no_streak_badge; [congruence | auto].
  - eauto.
Qed.

Lemma streak_never_touched_witness :
  ∃ u', users (serve sampleStore sampleRequests) !! 7 = Some u'
    ∧ streak u' = 0
    ∧ bestStreak (stats u') = 0
    ∧ lastActiveDate u' = 1690000000000
    ∧ ∀ id, id ∈ badge_id <$> badges u' → id ∉ streakBadgeIds.
Proof.
  destruct (streak_never_touched 7 sampleStore sampleRequests
              (newUser "Ada" "Lovelace" 1690000000000))
    as (u' & Hlook & Hs & Hb & Hd & Hbadge).
  - reflexivity.
  - exists u'. repeat split; try assumption.
    apply Hbadge; [reflexivity|].
    intros id Hin. cbn in Hin. by apply elem_of_nil in Hin.
Defined.

End ServeFacts.

(** ** Analytics *)

Section TrendFacts.

Import Double Trends.

Implicit Types (sessions : list Session) (x : double).

Lemma sub_diag s m e : sub (S754_finite s m e) (S754_finite s m e) = S754_zero false.
Proof.
  unfold sub, SFsub. cbv zeta. by rewrite Z.sub_diag.
Qed.

Lemma hundred_finite : ∃ m e, hundred = S754_finite false m e.
Proof. by eexists _, _. Qed.

(** When the baseline is the recent mean itself, the change is a zero or
    [NaN], neither above 5 nor below -5. *)
Lemma same_baseline x :
  let change := mul (div (sub x x) x) hundred in
  match x with
  | S754_finite _ _ _ => isZero change = true
  | _ => isNaN change = true
  end.
Proof.
  destruct hundred_finite as (mh & eh & ->).
  destruct x as [s|s| |s m e]; cbn zeta.
  - by destruct s.
  - by destruct s.
  - done.
  - rewrite sub_diag. done.
Qed.

Lemma same_baseline_stable x :
  labelOf (mul (div (sub x x) x) hundred) = "stable".
Proof.
  pose proof (same_baseline x) as H. cbn zeta in H.
  destruct (mul (div (sub x x) x) hundred) as [s|s| |s m e]; destruct x; done.
Qed.

(** A slice without sessions has no mean. *)
Lemma meanScore_nil : meanScore [] = S754_nan.
Proof. reflexivity. Qed.

(** The handler, for a history of two sessions or more: the label belongs to
    the change against the mean of the earlier sessions when that mean is a
    number other than 0, and is "stable" otherwise. *)
Lemma trend_label sessions :
  (2 ≤ length sessions)%nat →
  let preceding := meanScore (take 5 (drop 5 sessions)) in
  (truthy preceding = true →
   trend (calculatePerformanceTrends sessions) = labelOf (statedChange sessions))
  ∧ (truthy preceding = false →
     trend (calculatePerformanceTrends sessions) = "stable").
Proof.
  intros Hlen. cbn zeta. unfold calculatePerformanceTrends.
  rewrite bool_decide_eq_false_2 by lia. cbn [trend]. cbv zeta.
  change (slice 0 5 sessions) with (take 5 sessions).
  change (slice 5 10 sessions) with (take 5 (drop 5 sessions)).
  fold (meanScore (take 5 sessions)). fold (meanScore (take 5 (drop 5 sessions))).
  unfold or. split; intros ->.
  - reflexivity.
  - apply same_baseline_stable.
Qed.

(** C9, as stated, fails when the preceding sessions have a mean score of 0:
    five sessions at 0 followed by five at 100 are an unbounded relative
    improvement ([Infinity] as the claim's formula computes it), and the
    handler reports "stable" with change 0. *)
Lemma zero_baseline_reported_stable :
  let history := replicate 5 (scored 100) ++ replicate 5 (scored 0) in
  statedChange history = S754_infinity false
  ∧ labelOf (statedChange history) = "improving"
  ∧ trend (calculatePerformanceTrends history) = "stable"
  ∧ change (calculatePerformanceTrends history) = S754_zero false
  ∧ trend (calculatePerformanceTrends history) ≠ labelOf (statedChange history).
Proof. repeat split; vm_compute; (reflexivity || discriminate). Qed.

(** The comparison is made on the change as computed: a recent mean of 4.2
    against an earlier mean of 4 is a change of exactly 5 percent, which is
    not above 5; computed in doubles it is 5.000000000000004, and the label
    is "improving". *)
Example exact_five_percent_is_improving :
  let history := [scored 5; scored 4; scored 4; scored 4; scored 4]
                 ++ replicate 5 (scored 4) in
  (exactChange history == 5)%Q
  ∧ statedChange history = S754_finite false 5629499534213125 (-50)
  ∧ five = S754_finite false 5629499534213120 (-50)
  ∧ trend (calculatePerformanceTrends history) = "improving".
Proof. repeat split; vm_compute; reflexivity. Qed.

(** C9 (trend), amended.  For every history, most recent session first: when
    there are sessions before the 5 most recent and their mean score is a
    number other than 0, the label is the one of the relative change of the
    recent mean against that mean, computed in the doubles of the program
    (subtraction, division and multiplication by 100, each rounded):
    "improving" if it exceeds 5, "declining" if it is below -5 and "stable"
    otherwise.  When there are no earlier sessions, or their mean is 0, the
    recent mean stands in for the baseline and the label is "stable".  For a
    history of zero or one session the answer is "stable" with change 0,
    reached without any division. *)
Theorem trend_follows_computed_change sessions :
  ((length sessions ≤ 1)%nat →
   calculatePerformanceTrends sessions =
     {| trend := "stable"; change := of_Z 0; recentAverage := None |})
  ∧ ((2 ≤ length sessions)%nat →
     let preceding := meanScore (take 5 (drop 5 sessions)) in
     (drop 5 sessions = [] → preceding = S754_nan)
     ∧ (isNaN preceding = false → isZero preceding = false →
        trend (calculatePerformanceTrends sessions) = labelOf (statedChange sessions))
     ∧ (isNaN preceding = true ∨ isZero preceding = true →
        trend (calculatePerformanceTrends sessions) = "stable")).
Proof.
  split.
  - intros Hlen. unfold calculatePerformanceTrends.
    by rewrite bool_decide_eq_true_2 by lia.
  - intros Hlen. cbn zeta. destruct (trend_label sessions Hlen) as [Hsome Hnone].
    cbn zeta in Hsome, Hnone. split; [|split].
    + intros ->. apply meanScore_nil.
    + intros Hnan Hzero. apply Hsome.
      by destruct (meanScore (take 5 (drop 5 sessions))).
    + intros Hfalsy. apply Hnone.
      destruct (meanScore (take 5 (drop 5 sessions))); destruct Hfalsy; done.
Qed.

Lemma trend_follows_computed_change_witness :
  calculatePerformanceTrends [scored 80] =
    {| trend := "stable"; change := of_Z 0; recentAverage := None |}
  ∧ trend (calculatePerformanceTrends [scored 80; scored 90; scored 70]) = "stable"
  ∧ trend (calculatePerformanceTrends
             (replicate 5 (scored 90) ++ replicate 3 (scored 60)))
    = labelOf (statedChange (replicate 5 (scored 90) ++ replicate 3 (scored 60))).
Proof.
  split; [|split].
  - apply (proj1 (trend_follows_computed_change [scored 80])). cbn. lia.
  - destruct (proj2 (trend_follows_computed_change [scored 80; scored 90; scored 70]))
      as (_ & _ & Hstable); [cbn; lia|].
    apply Hstable. left. vm_compute. reflexivity.
  - destruct (proj2 (trend_follows_computed_change
                       (replicate 5 (scored 90) ++ replicate 3 (scored 60))))
      as (_ & Hlabel & _); [cbn; lia|].
    apply Hlabel; vm_compute; reflexivity.
Defined.

Example improving_history :
  trend (calculatePerformanceTrends
           (replicate 5 (scored 90) ++ replicate 5 (scored 60))) = "improving".
Proof. vm_compute. reflexivity. Qed.

Example declining_history :
  trend (calculatePerformanceTrends
           (replicate 5 (scored 50) ++ replicate 3 (scored 60))) = "declining".
Proof. vm_compute. reflexivity. Qed.

End TrendFacts.

(** ** Leaderboard *)

Section LeaderboardFacts.

Import SessionRecorder Leaderboard.

Lemma precedes_b_spec a1 n1 a2 n2 :
  precedes_b a1 n1 a2 n2 = true ↔ (a2 < a1)%Q ∨ ((a1 == a2)%Q ∧ n2 ≤ n1).
Proof.
  unfold precedes_b.
  rewrite orb_true_iff, andb_true_iff, negb_true_iff, bool_decide_eq_true,
    Qeq_bool_iff, <- not_true_iff_false, Qle_bool_iff.
  split; (intros [H|H]; [left | right; done]).
  - by apply Qnot_le_lt.
  - by apply Qlt_not_le.
Qed.

Lemma precedes_spec a b :
  precedes a b ↔
  (e_averageScore b < e_averageScore a)%Q
  ∨ ((e_averageScore a == e_averageScore b)%Q ∧ e_totalSessions b ≤ e_totalSessions a).
Proof. unfold precedes. rewrite Is_true_true. apply precedes_b_spec. Qed.

#[local] Instance precedes_total : Total precedes.
Proof.
  intros a b. rewrite !precedes_spec.
  destruct (Q_dec (e_averageScore a) (e_averageScore b)) as [[Hlt|Hgt]|Heq]; [auto..|].
  destruct (Z.le_ge_cases (e_totalSessions a) (e_totalSessions b)).
  - right. right. split; [by symmetry | done].
  - left. right. done.
Qed.

#[local] Instance precedes_trans : Transitive precedes.
Proof.
  intros a b c. rewrite !precedes_spec.
  intros [H1|[H1 N1]] [H2|[H2 N2]].
  - left. lra.
  - left. lra.
  - left. lra.
  - right. split; [lra | lia].
Qed.

Lemma sortStage_sorted es : StronglySorted precedes (sortStage es).
Proof. apply StronglySorted_merge_sort; apply _. Qed.

Lemma sortStage_perm es : sortStage es ≡ₚ es.
Proof. apply merge_sort_Permutation. Qed.

Lemma StronglySorted_lookup_lt {A} (R : relation A) (l : list A) i j x y :
  StronglySorted R l → (i < j)%nat →
  l !! i = Some x → l !! j = Some y → R x y.
Proof.
  intros Hs. revert i j. induction Hs as [|z l Hs IH Hall]; intros i j Hij Hi Hj.
  - done.
  - destruct j as [|j]; [lia|]. cbn in Hj.
    destruct i as [|i]; cbn in Hi.
    + injection Hi as ->. rewrite Forall_forall in Hall.
      apply Hall. eapply list_elem_of_lookup_2. done.
    + apply (IH i j); [lia | done..].
Qed.

(** Every document of the pipeline describes the sessions of its user in the
    window. *)
Lemma aggregate_entry start db e :
  e ∈ aggregate start db →
  ∃ u, users db !! e_userId e = Some u
    ∧ e_averageScore e = mongoRound (mean (windowScores (e_userId e) start db)) 1
    ∧ e_totalXP e =
        mongoRound (JS.sum ((λ x, x * (1 # 10))%Q <$> windowScores (e_userId e) start db)) 0
    ∧ e_totalSessions e = Z.of_nat (length (windowScores (e_userId e) start db)).
Proof.
  unfold aggregate. rewrite sortStage_perm.
  intros (g & Hg & Hp)%list_elem_of_omap.
  apply list_elem_of_fmap in Hg as (uid & -> & _).
  unfold projectStage in Hp. cbn in Hp.
  destruct (users db !! uid) as [u|] eqn:Hu; [|done].
  cbn in Hp. injection Hp as <-. exists u. cbn. done.
Qed.

Lemma leaderboard_lookup me tf limit c db board i r :
  getLeaderboard me tf limit c db = Some board →
  leaderboard board !! i = Some r →
  0 < limit ∧ (i < Z.to_nat limit)%nat
  ∧ aggregate (startDate tf c) db !! i = Some (entry r)
  ∧ rank r = Z.of_nat i + 1
  ∧ isCurrentUser r = bool_decide (e_userId (entry r) = me).
Proof.
  unfold getLeaderboard. case_bool_decide as Hl; [done|].
  intros [= <-]. cbn [leaderboard]. unfold addRank.
  rewrite list_lookup_imap.
  destruct (take _ _ !! i) as [e|] eqn:He; [|done].
  cbn. intros [= <-]. cbn.
  apply lookup_take_Some in He as [He Hi]. repeat split; [lia | done..].
Qed.

(** The order of the answer is not the order of the mean scores: in [tieStore]
    the entry of rank 1 (Alan, mean 80.1, ten sessions) has a smaller mean
    score than the entry of rank 2 (Ada, mean 80.11..., nine sessions); both
    round to 80.1. *)
Lemma rounded_tie_inverts_means :
  ∃ board r1 r2,
    getLeaderboard 1 "weekly" 10 sampleClock tieStore = Some board
    ∧ leaderboard board = [r1; r2]
    ∧ (rank r1 = 1 ∧ e_userId (entry r1) = 2)
    ∧ (rank r2 = 2 ∧ e_userId (entry r2) = 1)
    ∧ (e_averageScore (entry r1) == e_averageScore (entry r2))%Q
    ∧ (mean (windowScores 2 (startDate "weekly" sampleClock) tieStore)
       < mean (windowScores 1 (startDate "weekly" sampleClock) tieStore))%Q.
Proof.
  eexists _, _, _. split; [vm_compute; reflexivity|].
  cbn [leaderboard]. split; [reflexivity|].
  repeat split; vm_compute; reflexivity.
Qed.

(** C7 (leaderboard order): the two aggregations of the handler disagree.
    On [tieStore], asked by Ada for the weekly board with limit 1, the single
    entry, of rank 1, is Alan's, whose mean score (80.1) is below Ada's
    (80.11...): the first pipeline sorts after rounding to one decimal.  Ada is
    not in the answer, so her [currentUserRank] comes from the second
    pipeline, which sorts by the mean score itself and puts her first: the
    answer gives rank 1 to Alan and [currentUserRank] 1 to Ada. *)
Theorem rank_one_given_twice :
  ∃ board r1,
    getLeaderboard 1 "weekly" 1 sampleClock tieStore = Some board
    ∧ leaderboard board = [r1]
    ∧ rank r1 = 1 ∧ e_userId (entry r1) = 2 ∧ isCurrentUser r1 = false
    ∧ currentUserRank board = 1
    ∧ (mean (windowScores 2 (startDate "weekly" sampleClock) tieStore)
       < mean (windowScores 1 (startDate "weekly" sampleClock) tieStore))%Q.
Proof.
  eexists _, _. split; [vm_compute; reflexivity|].
  cbn [leaderboard currentUserRank]. split; [reflexivity|].
  repeat split; vm_compute; reflexivity.
Qed.

(** The order of the first pipeline.  The entries of a leaderboard response
    are the first [limit] documents of the aggregation sorted by the reported
    [averageScore], which is the mean score of the user's sessions in the
    window rounded to one decimal, descending, ties in that rounded value
    broken by session count descending; the rank of an entry is its 1-based
    position; so the reported [averageScore] is non-increasing across positions
    1..limit. *)
Theorem leaderboard_sorted me tf limit c db board :
  getLeaderboard me tf limit c db = Some board →
  let start := startDate tf c in
  (length (leaderboard board) ≤ Z.to_nat limit)%nat
  ∧ entry <$> leaderboard board = take (Z.to_nat limit) (aggregate start db)
  ∧ StronglySorted precedes (aggregate start db)
  ∧ aggregate start db ≡ₚ
      omap (projectStage (users db)) (groupStage (matchStage start (sessions db)))
  ∧ (∀ i r, leaderboard board !! i = Some r →
       rank r = Z.of_nat i + 1
       ∧ e_averageScore (entry r) =
           mongoRound (mean (windowScores (e_userId (entry r)) start db)) 1
       ∧ e_totalSessions (entry r) =
           Z.of_nat (length (windowScores (e_userId (entry r)) start db)))
  ∧ (∀ i j ri rj, (i < j)%nat →
       leaderboard board !! i = Some ri → leaderboard board !! j = Some rj →
       (e_averageScore (entry rj) <= e_averageScore (entry ri))%Q
       ∧ ((e_averageScore (entry ri) == e_averageScore (entry rj))%Q →
          e_totalSessions (entry rj) ≤ e_totalSessions (entry ri))).
Proof.
  intros Hb start.
  assert (leaderboard board = addRank me (take (Z.to_nat limit) (aggregate start db)))
    as Hlb.
  { unfold getLeaderboard in Hb. case_bool_decide; [done|]. by injection Hb as <-. }
  split; [|split; [|split; [|split; [|split]]]].
  - rewrite Hlb. unfold addRank. rewrite length_imap, length_take. lia.
  - rewrite Hlb. unfold addRank. apply list_eq. intros i.
    rewrite list_lookup_fmap, list_lookup_imap.
    by destruct (take _ _ !! i).
  - apply sortStage_sorted.
  - apply sortStage_perm.
  - intros i r Hr.
    destruct (leaderboard_lookup _ _ _ _ _ _ _ _ Hb Hr) as (_ & _ & He & Hrank & _).
    split; [done|].
    destruct (aggregate_entry start db (entry r)) as (u & _ & Havg & _ & Hn).
    { eapply list_elem_of_lookup_2. exact He. }
    done.
  - intros i j ri rj Hij Hi Hj.
    destruct (leaderboard_lookup _ _ _ _ _ _ _ _ Hb Hi) as (_ & _ & Hei & _).
    destruct (leaderboard_lookup _ _ _ _ _ _ _ _ Hb Hj) as (_ & _ & Hej & _).
    pose proof (StronglySorted_lookup_lt precedes _ i j _ _
                  (sortStage_sorted _) Hij Hei Hej) as Hp.
    apply precedes_spec in Hp as [Hlt|[Heq Hn]].
    + split; [lra|]. intros Heq. lra.
    + split; [lra | done].
Qed.

Lemma leaderboard_sorted_witness :
  ∃ board r1 r2,
    getLeaderboard 1 "weekly" 10 sampleClock tieStore = Some board
    ∧ leaderboard board = [r1; r2]
    ∧ (e_averageScore (entry r2) <= e_averageScore (entry r1))%Q
    ∧ e_totalSessions (entry r2) ≤ e_totalSessions (entry r1).
Proof.
  destruct (getLeaderboard 1 "weekly" 10 sampleClock tieStore) as [board|] eqn:Hb;
    [|vm_compute in Hb; discriminate].
  destruct (leaderboard_sorted _ _ _ _ _ _ Hb) as (_ & _ & _ & _ & _ & Horder).
  assert (∃ r1 r2, leaderboard board = [r1; r2]) as (r1 & r2 & Hl).
  { vm_compute in Hb. injection Hb as <-. by eexists _, _. }
  exists board, r1, r2. split; [reflexivity|]. split; [exact Hl|].
  destruct (Horder 0%nat 1%nat r1 r2) as [Hle Htie]; [lia | by rewrite Hl..|].
  split; [exact Hle|]. apply Htie.
  vm_compute in Hb. injection Hb as <-. injection Hl as <- <-. reflexivity.
Defined.







End LeaderboardFacts.

(** ** Refresh-token rotation *)

Section TokenFacts.

Import Tokens.

Implicit Types (db : Store) (l : list RefreshToken) (j : string) (e : Env).

Lemma updateOne_jtis p l : jti <$> updateOne p l = jti <$> l.
Proof.
  induction l as [|d l IH]; cbn; [done|].
  destruct (p d); cbn; [done | by rewrite IH].
Qed.

(** A document of the updated list is a document of the old one, possibly
    blacklisted. *)
Lemma updateOne_elem p l d :
  d ∈ updateOne p l → d ∈ l ∨ ∃ d0, d0 ∈ l ∧ p d0 = true ∧ d = blacklist d0.
Proof.
  induction l as [|d1 l IH]; cbn; [auto|].
  destruct (p d1) eqn:Hp.
  - intros [->|Hin]%elem_of_cons.
    + right. exists d1. split; [apply elem_of_cons; auto | done].
    + left. apply elem_of_cons; auto.
  - intros [->|Hin]%elem_of_cons.
    + left. apply elem_of_cons; auto.
    + destruct (IH Hin) as [?|(d0 & ? & ? & ?)].
      * left. apply elem_of_cons; auto.
      * right. exists d0. split; [apply elem_of_cons; auto | done].
Qed.

(** Under the unique index, [updateOne] on a [jti] blacklists every document
    that carries it. *)
Lemma updateOne_revokes j l d :
  NoDup (jti <$> l) →
  d ∈ updateOne (λ d, bool_decide (Some (jti d) = Some j)) l →
  jti d = j → isBlacklisted d = true.
Proof.
  induction l as [|d1 l IH]; cbn; intros Hnd Hin Hj.
  - by apply elem_of_nil in Hin.
  - apply NoDup_cons in Hnd as [Hfresh Hnd].
    case_bool_decide as Hd1.
    + apply elem_of_cons in Hin as [->|Hin]; [done|].
      exfalso. apply Hfresh. injection Hd1 as ->. rewrite <- Hj.
      by apply list_elem_of_fmap_2.
    + apply elem_of_cons in Hin as [->|Hin]; [congruence | by apply IH].
Qed.

Lemma verifyRefreshToken_Some cfg token e db decoded doc :
  verifyRefreshToken cfg token e db = Some (decoded, doc) →
  decoded = token
  ∧ doc ∈ refreshTokens db
  ∧ jwt_jti token = Some (jti doc)
  ∧ userId doc = jwt_userId token
  ∧ isBlacklisted doc = false.
Proof.
  unfold verifyRefreshToken, verify.
  destruct (_ && _); cbn; [|done].
  destruct (List.find _ _) as [d|] eqn:Hf; cbn; [|done].
  intros [= <- <-]. apply find_some in Hf as [Hin Hp].
  apply andb_true_iff in Hp as [Hp Hb]. apply andb_true_iff in Hp as [Hj Hu].
  apply bool_decide_eq_true in Hj, Hu. apply negb_true_iff in Hb.
  split; [done|]. split; [by apply list_elem_of_In|]. done.
Qed.

(** A token whose [jti] is revoked does not verify. *)
Lemma verifyRefreshToken_revoked cfg token e db j :
  jwt_jti token = Some j → revoked j db →
  verifyRefreshToken cfg token e db = None.
Proof.
  intros Hj Hrev.
  destruct (verifyRefreshToken cfg token e db) as [[decoded doc]|] eqn:Hv; [|done].
  apply verifyRefreshToken_Some in Hv as (_ & Hin & Hjti & _ & Hb).
  rewrite Hj in Hjti. injection Hjti as ->.
  rewrite (Hrev doc Hin eq_refl) in Hb. done.
Qed.

Lemma generateRefreshToken_Some cfg uid agent ip e db t db' :
  generateRefreshToken cfg uid agent ip e db = Some (t, db') →
  (uuid e ∉ jti <$> refreshTokens db)
  ∧ t = sign uid (Some (uuid e)) (JWT_REFRESH_SECRET cfg) (7 * 24 * 60 * 60) e
  ∧ accounts db' = accounts db
  ∧ ∃ doc, refreshTokens db' = refreshTokens db ++ [doc]
           ∧ jti doc = uuid e ∧ userId doc = uid ∧ isBlacklisted doc = false.
Proof.
  unfold generateRefreshToken. case_bool_decide as Hin; [done|].
  intros [= <- <-]. cbn. split; [done|]. split; [done|]. split; [done|].
  eexists. split; [done|]. done.
Qed.

Lemma generateRefreshToken_revoked cfg uid agent ip e db t db' j :
  generateRefreshToken cfg uid agent ip e db = Some (t, db') →
  uuid e ≠ j → revoked j db → revoked j db'.
Proof.
  intros (_ & _ & _ & doc & Hl & Hj & _)%generateRefreshToken_Some Hne Hrev d.
  rewrite Hl. intros [Hin|Hin]%elem_of_app; [by apply Hrev|].
  apply list_elem_of_singleton in Hin as ->. congruence.
Qed.

Lemma blacklistRefreshToken_revoked_mono o db j :
  revoked j db → revoked j (blacklistRefreshToken o db).
Proof.
  intros Hrev d Hin Hj. cbn in Hin.
  apply updateOne_elem in Hin as [Hin|(d0 & Hin & _ & ->)]; [by apply Hrev | done].
Qed.

Lemma refresh_revoked cfg req e db j :
  Some (uuid e) ≠ Some j → revoked j db →
  revoked j (refreshTokenMiddleware cfg req e db).2.
Proof.
  intros Hne Hrev. unfold refreshTokenMiddleware.
  destruct (cookie_refreshToken req) as [t|]; [|done].
  destruct (verifyRefreshToken cfg t e db) as [[decoded doc]|]; [|done].
  case_bool_decide; [|done].
  destruct (generateRefreshToken _ _ _ _ _ _) as [[t' db']|] eqn:Hg; cbn.
  - eapply generateRefreshToken_revoked; [exact Hg | congruence |].
    by apply blacklistRefreshToken_revoked_mono.
  - by apply blacklistRefreshToken_revoked_mono.
Qed.

(** No operation brings a revoked [jti] back, as long as [uuidv4()] does not
    draw it again. *)
Lemma step_revoked cfg db op j :
  drawn op ≠ Some j → revoked j db → revoked j (step cfg db op).
Proof.
  intros Hd Hrev. destruct op as [uid agent ip e|req e|uid|e]; cbn in *.
  - destruct (generateRefreshToken _ _ _ _ _ _) as [[t db']|] eqn:Hg; [|done].
    eapply generateRefreshToken_revoked; [exact Hg | congruence | done].
  - by apply refresh_revoked.
  - intros d Hin Hj. cbn in Hin.
    apply list_elem_of_fmap in Hin as (d0 & -> & Hin).
    destruct (_ && _); [done | by apply Hrev].
  - intros d Hin Hj. cbn in Hin.
    apply list_elem_of_filter in Hin as [_ Hin]. by apply Hrev.
Qed.

Lemma run_revoked cfg ops : ∀ db j,
  Forall (λ op, drawn op ≠ Some j) ops → revoked j db → revoked j (run cfg db ops).
Proof.
  induction ops as [|op ops IH]; intros db j Hall Hrev; cbn; [done|].
  apply Forall_cons in Hall as [Hop Hall].
  apply IH; [done|]. by apply step_revoked.
Qed.

(** The unique index on [jti] is kept by every operation. *)
Lemma step_unique cfg db op :
  NoDup (jti <$> refreshTokens db) → NoDup (jti <$> refreshTokens (step cfg db op)).
Proof.
  assert (∀ cfg uid agent ip e db t db',
            generateRefreshToken cfg uid agent ip e db = Some (t, db') →
            NoDup (jti <$> refreshTokens db) → NoDup (jti <$> refreshTokens db')) as Hgen.
  { intros ? ? ? ? e0 db0 t db' (Hfresh & _ & _ & doc & -> & Hj & _)%generateRefreshToken_Some Hnd.
    rewrite fmap_app. apply NoDup_app. split; [done|]. split.
    - intros x Hx [->|[]%elem_of_nil]%elem_of_cons. congruence.
    - apply NoDup_singleton. }
  intros Hnd. destruct op as [uid agent ip e|req e|uid|e]; cbn.
  - destruct (generateRefreshToken _ _ _ _ _ _) as [[t db']|] eqn:Hg; [|done].
    by eapply Hgen.
  - unfold refreshTokenMiddleware.
    destruct (cookie_refreshToken req) as [t|]; [|done].
    destruct (verifyRefreshToken cfg t e db) as [[decoded doc]|]; [|done].
    case_bool_decide; [|done].
    assert (NoDup (jti <$> refreshTokens (blacklistRefreshToken (jwt_jti decoded) db)))
      as Hnd' by (cbn; by rewrite updateOne_jtis).
    destruct (generateRefreshToken _ _ _ _ _ _) as [[t' db']|] eqn:Hg; cbn; [|done].
    by eapply Hgen.
  - rewrite <- list_fmap_compose.
    erewrite list_fmap_ext; [exact Hnd|]. intros i d _. cbn. by destruct (_ && _).
  - apply (sublist_NoDup _ (jti <$> refreshTokens db)); [exact Hnd|].
    apply fmap_sublist, sublist_filter.
Qed.

Lemma run_unique cfg ops : ∀ db,
  NoDup (jti <$> refreshTokens db) → NoDup (jti <$> refreshTokens (run cfg db ops)).
Proof.
  induction ops as [|op ops IH]; intros db Hnd; cbn; [done|].
  by apply IH, step_unique.
Qed.

(** C4 (single-use refresh token).  Requests are served one at a time and
    the collection obeys its unique index on [jti].  When a refresh presenting
    [token] succeeds, the document of its [jti] is blacklisted first and the
    new pair is issued on the store so obtained: every document with that
    [jti] is blacklisted in the resulting store.  After any further logins,
    refreshes, logouts and expiries (none of which draws the same [jti] from
    [uuidv4()] again), every refresh presenting [token] is answered 401, and
    it issues nothing and leaves the store as it is. *)
Theorem refresh_token_single_use cfg req e db token uid access fresh db1 ops :
  NoDup (jti <$> refreshTokens db) →
  cookie_refreshToken req = Some token →
  refreshTokenMiddleware cfg req e db = (Next uid access fresh, db1) →
  Forall (λ op, drawn op ≠ jwt_jti token) ops →
  ∃ j, jwt_jti token = Some j
    ∧ revoked j (blacklistRefreshToken (Some j) db)
    ∧ generateRefreshToken cfg uid (header_userAgent req) (req_ip req) e
        (blacklistRefreshToken (Some j) db) = Some (fresh, db1)
    ∧ revoked j db1
    ∧ ∀ req' e',
        cookie_refreshToken req' = Some token →
        refreshTokenMiddleware cfg req' e' (run cfg db1 ops)
        = (Unauthorized "Invalid refresh token.", run cfg db1 ops).
Proof.
  intros Hnd Hcookie Hrefresh Hops.
  unfold refreshTokenMiddleware in Hrefresh. rewrite Hcookie in Hrefresh.
  destruct (verifyRefreshToken cfg token e db) as [[decoded doc]|] eqn:Hv; [|done].
  apply verifyRefreshToken_Some in Hv as (-> & Hin & Hj & Hu & Hb).
  case_bool_decide as Hacc; [|done].
  destruct (generateRefreshToken _ _ _ _ _ _) as [[t' db']|] eqn:Hg; [|done].
  injection Hrefresh as <- _ <- <-.
  exists (jti doc). rewrite Hj in *.
  assert (revoked (jti doc) (blacklistRefreshToken (Some (jti doc)) db)) as Hrev.
  { intros d Hd Hjd. cbn in Hd. by eapply updateOne_revokes. }
  assert (revoked (jti doc) db') as Hrev'.
  { eapply generateRefreshToken_revoked; [exact Hg | | done].
    apply generateRefreshToken_Some in Hg as (Hfresh & _).
    cbn in Hfresh. rewrite updateOne_jtis in Hfresh.
    intros Heq. apply Hfresh. rewrite Heq. by apply list_elem_of_fmap_2. }
  split; [done|]. split; [done|]. split; [done|]. split; [done|].
  intros req' e' Hcookie'.
  unfold refreshTokenMiddleware. rewrite Hcookie'.
  rewrite (verifyRefreshToken_revoked cfg token e' _ (jti doc)); [done | done |].
  by apply run_revoked.
Qed.

Lemma refresh_token_single_use_witness :
  let rotated := refreshTokenMiddleware sampleConfig (presenting issued.1) refreshEnv issued.2 in
  let later := run sampleConfig rotated.2 [Login 7 None None laterEnv; Expire laterEnv] in
  isNext rotated.1 = true
  ∧ refreshTokenMiddleware sampleConfig (presenting issued.1) laterEnv later
    = (Unauthorized "Invalid refresh token.", later).
Proof.
  cbn zeta. split; [vm_compute; reflexivity|].
  destruct (refresh_token_single_use sampleConfig (presenting issued.1) refreshEnv
              issued.2 issued.1 7
              (generateAccessToken sampleConfig 7 refreshEnv)
              (sign 7 (Some "jti-2") "refresh-secret" (7 * 24 * 60 * 60) refreshEnv)
              (refreshTokenMiddleware sampleConfig (presenting issued.1)
                 refreshEnv issued.2).2
              [Login 7 None None laterEnv; Expire laterEnv])
    as (j & _ & _ & _ & _ & Hlater).
  - vm_compute. apply NoDup_cons. split; [apply not_elem_of_nil | apply NoDup_nil_2].
  - reflexivity.
  - vm_compute. reflexivity.
  - repeat constructor; vm_compute; discriminate.
  - apply Hlater. reflexivity.
Defined.

End TokenFacts.

(** * Further properties *)

(** ** Bodies with numbers *)

Section WireFacts.

Import SessionRecorder.

Lemma wire_updateUser (b : Body) s u :
  Wire.updateUser (Wire.wire b) s u = Some (updateUser b s u).
Proof.
  unfold Wire.updateUser, updateUser.
  change (Wire.updateStats (Wire.wire b) (stats u)) with (Some (updateStats b (stats u))).
  change (Wire.xpGained (Wire.wire b)) with (Some (xpGained b)).
  cbn [mbind option_bind]. by destruct (addXP _ _).
Qed.

(** On a body whose numeric fields are numbers and which has no [userId] of
    its own, the route does what [postSession] says. *)
Lemma wire_postSession uid (b : Body) e db :
  Wire.postSession uid (Wire.wire b) e db = Some (postSession uid b e db).
Proof.
  unfold Wire.postSession, postSession.
  change (Wire.validationResult (Wire.wire b)) with (Some (validationResult b)).
  cbn [mbind option_bind].
  destruct (validationResult b) as [|err errs]; [|done].
  change (Wire.newSession uid (Wire.wire b) e) with (Some (newSession uid b e)).
  cbn [mbind option_bind].
  destruct (negb (schema_valid (newSession uid b e))); [done|].
  destruct (users db !! uid) as [user|]; [|done].
  rewrite wire_updateUser.
  change (Wire.xpGained (Wire.wire b)) with (Some (xpGained b)).
  change (Wire.mockPredictions (Wire.wire b) e) with (Some (mockPredictions b e)).
  cbn [mbind option_bind].
  destruct (updateUser b (newSession uid b e) user) as [levelResult user'].
  by destruct (mlResponse e).
Qed.

Lemma wire_handle db (r : Request) :
  Wire.handle db (Wire.wireRequest r) = Some (handle db r).
Proof. apply wire_postSession. Qed.

Lemma wire_serve (rs : list Request) : ∀ db,
  Wire.serve db (Wire.wireRequest <$> rs) = Some (serve db rs).
Proof.
  induction rs as [|r rs IH]; intros db; [done|].
  cbn [fmap list_fmap Wire.serve]. rewrite wire_handle. cbn [mbind option_bind].
  apply IH.
Qed.

End WireFacts.

(** ** The models *)

Section ModelFacts.

Import Models.

(** Turns the boolean comparisons of rationals in the context into
    propositions that [lra] reads. *)
Ltac qle_props :=
  repeat match goal with
  | H : Qle_bool _ _ = true |- _ => apply Qle_bool_iff in H
  | H : Qle_bool _ _ = false |- _ =>
    apply not_true_iff_false in H; rewrite Qle_bool_iff in H; apply Qnot_le_lt in H
  end.

(** X1 (rating bands).  The performance rating never gets worse when the score
    gets better. *)
Theorem performanceRating_monotone (s1 s2 : Q) :
  (s1 <= s2)%Q →
  (ratingRank (performanceRating s1) ≤ ratingRank (performanceRating s2))%nat.
Proof.
  intros Hle. unfold performanceRating.
  destruct (Qle_bool 90 s1) eqn:H1, (Qle_bool 90 s2) eqn:H2;
  destruct (Qle_bool 80 s1) eqn:H3, (Qle_bool 80 s2) eqn:H4;
  destruct (Qle_bool 70 s1) eqn:H5, (Qle_bool 70 s2) eqn:H6;
  destruct (Qle_bool 60 s1) eqn:H7, (Qle_bool 60 s2) eqn:H8;
  cbn; try lia; qle_props; lra.
Qed.

Lemma performanceRating_monotone_witness :
  (ratingRank (performanceRating 65) ≤ ratingRank (performanceRating 85))%nat.
Proof. apply performanceRating_monotone. vm_compute. discriminate. Defined.

Lemma round_between (lo hi : Z) (x : Q) :
  (inject_Z lo <= x)%Q → (x < inject_Z hi + (1 # 2))%Q → lo ≤ JS.round x ≤ hi.
Proof.
  intros Hlo Hhi. unfold JS.round. split.
  - rewrite <- (Qfloor_Z lo). apply Qfloor_resp_le. lra.
  - assert (Qfloor (x + (1 # 2)) < hi + 1); [|lia].
    rewrite Zlt_Qlt, inject_Z_plus. change (inject_Z 1) with 1%Q.
    pose proof (Qfloor_le (x + (1 # 2))). lra.
Qed.

Lemma clamp_bounds (x : Q) : (5 <= JS.min 95 (JS.max 5 x) <= 95)%Q.
Proof.
  unfold JS.min, JS.max.
  destruct (Qle_bool 5 x) eqn:H1;
    [destruct (Qle_bool 95 x) eqn:H2 | destruct (Qle_bool 95 5) eqn:H2];
    qle_props; lra.
Qed.

(** X2 (percentile scores).  For values of [Math.random()] in [0,1) and any
    score, the mocked percentiles are integers with [overall] in 5..95,
    [ageGroup] in 0..100 and [profession] in 1..99. *)
Theorem calculatePercentile_bounds (score r1 r2 r3 : Q) :
  (0 <= r2 < 1)%Q → (0 <= r3 < 1)%Q →
  let p := calculatePercentile score r1 r2 r3 in
  5 ≤ pct_overall p ≤ 95
  ∧ 0 ≤ pct_ageGroup p ≤ 100
  ∧ 1 ≤ pct_profession p ≤ 99.
Proof.
  intros H2 H3. cbn zeta. unfold calculatePercentile. cbn [pct_overall pct_ageGroup pct_profession].
  pose proof (clamp_bounds (score + r1 * 20 - 10)) as Hb.
  set (base := JS.min 95 (JS.max 5 (score + r1 * 20 - 10))) in *.
  destruct H2, H3, Hb.
  split; [|split]; apply round_between; unfold inject_Z; lra.
Qed.

Lemma calculatePercentile_bounds_witness :
  let p := calculatePercentile 250 (9 # 10) (9 # 10) (0 # 1) in
  5 ≤ pct_overall p ≤ 95 ∧ 0 ≤ pct_ageGroup p ≤ 100 ∧ 1 ≤ pct_profession p ≤ 99.
Proof. apply calculatePercentile_bounds; split; vm_compute; discriminate || reflexivity. Defined.

End ModelFacts.

Section StreakFacts.

Import Models.

Implicit Types (u : User) (today : Z).

Lemma updateStreak_close today u :
  lastActiveDate u ≤ today → today - lastActiveDate u < day →
  updateStreak today u = set_lastActiveDate today u.
Proof.
  intros Hle Hlt. unfold updateStreak.
  assert ((today - lastActiveDate u) / (1000 * 60 * 60 * 24) = 0) as ->.
  { apply Z.div_small. unfold day in Hlt. lia. }
  reflexivity.
Qed.

Lemma last_nonempty_default {A} (x : A) (l : list A) (d1 d2 : A) :
  List.last (x :: l) d1 = List.last (x :: l) d2.
Proof. revert x. induction l as [|y l IH]; intros x; [done|]. apply (IH y). Qed.

(** X3 (streak and the 24-hour gap).  Calls of [updateStreak] that each come
    less than 24 hours after the previous one never change the streak,
    however many calendar days they span; the last call is the date kept. *)
Theorem updateStreaks_close (times : list Z) u :
  closerThan day (lastActiveDate u) times →
  streak (updateStreaks times u) = streak u
  ∧ lastActiveDate (updateStreaks times u) = List.last times (lastActiveDate u).
Proof.
  revert u. induction times as [|t times IH]; intros u Hc; [done|].
  destruct Hc as (Hle & Hlt & Hrest).
  unfold updateStreaks. cbn [foldl]. fold (updateStreaks times (updateStreak t u)).
  rewrite updateStreak_close by done.
  destruct (IH (set_lastActiveDate t u) Hrest) as [-> ->]. split; [done|].
  destruct times as [|z times]; [reflexivity|].
  change (List.last (t :: z :: times) (lastActiveDate u))
    with (List.last (z :: times) (lastActiveDate u)).
  apply last_nonempty_default.
Qed.

Lemma updateStreaks_close_witness :
  let u := newUser "Ada" "Lovelace" 0 in
  let times := [23 * 3600000; 46 * 3600000; 69 * 3600000; 92 * 3600000] in
  streak (updateStreaks times u) = 0
  ∧ lastActiveDate (updateStreaks times u) = 92 * 3600000.
Proof.
  apply (updateStreaks_close
           [23 * 3600000; 46 * 3600000; 69 * 3600000; 92 * 3600000]
           (newUser "Ada" "Lovelace" 0)).
  cbn. unfold day. lia.
Defined.

(** X4 (streak by gap).  One call of [updateStreak]: a gap of at least one and
    less than two days since the last activity raises the streak by one, a gap
    of two days or more sets it to 1, a shorter gap leaves it; in every case
    the date of the call is recorded and nothing else changes. *)
Theorem updateStreak_by_gap today u :
  let gap := today - lastActiveDate u in
  let u' := updateStreak today u in
  (gap < day → streak u' = streak u)
  ∧ (day ≤ gap < 2 * day → streak u' = streak u + 1)
  ∧ (2 * day ≤ gap → streak u' = 1)
  ∧ lastActiveDate u' = today
  ∧ xp u' = xp u ∧ level u' = level u ∧ badges u' = badges u ∧ stats u' = stats u.
Proof.
  cbn zeta. unfold updateStreak, day.
  set (d := (today - lastActiveDate u) / (1000 * 60 * 60 * 24)).
  assert (86400000 * d ≤ today - lastActiveDate u < 86400000 * d + 86400000) as Hd.
  { pose proof (Z.div_mod (today - lastActiveDate u) 86400000 ltac:(lia)) as Hdm.
    pose proof (Z.mod_pos_bound (today - lastActiveDate u) 86400000 ltac:(lia)).
    subst d. change (1000 * 60 * 60 * 24) with 86400000. lia. }
  repeat case_bool_decide; cbn; repeat split; intros; try done; lia.
Qed.

Lemma updateStreak_by_gap_witness :
  streak (updateStreak (36 * 3600000) (newUser "Ada" "Lovelace" 0)) = 1.
Proof.
  destruct (updateStreak_by_gap (36 * 3600000) (newUser "Ada" "Lovelace" 0))
    as (_ & Hraise & _).
  apply Hraise. cbn. unfold day. lia.
Defined.

(** X5 (what addXP reports).  [addXP] adds the points, never lowers the level
    (also for negative points, where the level then stays above what the XP
    gives), and reports [leveledUp] exactly when the level rises, with the new
    level. *)
Theorem addXP_report (points : Z) u :
  let r := (addXP points u).1 in
  let u' := (addXP points u).2 in
  xp u' = xp u + points
  ∧ level u' = Z.max (level u) ((xp u + points) / 1000 + 1)
  ∧ (leveledUp r = true ↔ level u < level u')
  ∧ newLevel r = (if leveledUp r then Some (level u') else None).
Proof.
  cbn zeta. unfold addXP. case_bool_decide as H; cbn in *.
  - repeat split; try done; lia.
  - repeat split; try done; lia.
Qed.

End StreakFacts.

(** ** The bookkeeping of the recorder *)

Lemma sum_from_app (l1 l2 : list Q) : (JS.sum (l1 ++ l2) == JS.sum l1 + JS.sum l2)%Q.
Proof.
  induction l1 as [|x l1 IH]; cbn [app].
  - change (JS.sum []) with 0%Q. ring.
  - rewrite !sum_cons, IH. ring.
Qed.

Section BookkeepingFacts.

Import SessionRecorder History.

Implicit Types (u : User) (db : Store) (rs : list Request) (b : Body).

Lemma acceptedScores_bodies uid rs : ∀ db,
  acceptedScores uid db rs = score <$> acceptedBodies uid db rs.
Proof.
  induction rs as [|r rs IH]; intros db; cbn; [done|].
  destruct (handle db r) as [resp db']. rewrite fmap_app, IH.
  by destruct (_ && _).
Qed.

(** A property of the accepted bodies and the user document that every
    accepted submission extends holds after any sequence of requests. *)
Lemma serve_accumulate (P : list Body → User → Prop) uid :
  (∀ bs b s u, validationResult b = [] → s_score s = score b →
     P bs u → P (bs ++ [b]) (updateUser b s u).2) →
  ∀ rs db u bs, users db !! uid = Some u → P bs u →
    ∃ u', users (serve db rs) !! uid = Some u'
          ∧ P (bs ++ acceptedBodies uid db rs) u'.
Proof.
  intros Hstep rs. induction rs as [|r rs IH]; intros db u bs Hu HP;
    cbn [serve foldl acceptedBodies].
  - exists u. by rewrite app_nil_r.
  - fold (serve (handle db r).2 rs).
    destruct (handle db r) as [resp db'] eqn:Hh.
    destruct (handle_user db r uid u Hu) as [[Hu' Hb]|(Hr & Hc & Hv & Hu')];
      rewrite Hh in *; cbn [fst snd] in *.
    + rewrite Hb. cbn [app]. by apply (IH db' u).
    + rewrite Hc, bool_decide_eq_true_2 by done. cbn [andb].
      destruct (IH db' _ (bs ++ [req_body r]) Hu'
                  (Hstep bs (req_body r)
                     (newSession uid (req_body r) (req_env r)) u Hv eq_refl HP))
        as (u' & Hlook & HP').
      exists u'. split; [done|]. by rewrite <- app_assoc in HP'.
Qed.

Lemma plays_snoc g bs b :
  plays g (bs ++ [b]) = plays g bs + (if bool_decide (gameType b = g) then 1 else 0).
Proof.
  unfold plays. rewrite filter_app, length_app.
  case_bool_decide as Hg.
  - rewrite filter_cons_True, filter_nil by done. cbn. lia.
  - rewrite filter_cons_False, filter_nil by done. cbn. lia.
Qed.

(** The counters, for bodies with numbers. *)
Lemma counters_numeric uid db rs u :
  users db !! uid = Some u →
  let bs := acceptedBodies uid db rs in
  ∃ u', users (serve db rs) !! uid = Some u'
    ∧ totalSessions (stats u') = totalSessions (stats u) + Z.of_nat (length bs)
    ∧ (totalPlayTime (stats u') == totalPlayTime (stats u) + JS.sum (duration <$> bs))%Q
    ∧ ∀ g, default 0 (gamesPlayed (stats u') !! g)
           = default 0 (gamesPlayed (stats u) !! g) + plays g bs.
Proof.
  intros Hu bs.
  destruct (serve_accumulate
              (λ bs v,
                 totalSessions (stats v) = totalSessions (stats u) + Z.of_nat (length bs)
                 ∧ (totalPlayTime (stats v)
                    == totalPlayTime (stats u) + JS.sum (duration <$> bs))%Q
                 ∧ ∀ g, default 0 (gamesPlayed (stats v) !! g)
                        = default 0 (gamesPlayed (stats u) !! g) + plays g bs)
              uid) with (rs := rs) (db := db) (u := u) (bs := @nil Body)
    as (u' & Hlook & H); try done.
  - intros bs0 b s v _ _ (Hn & Ht & Hg). rewrite updateUser_stats. cbn.
    split; [rewrite length_app; cbn; lia|]. split.
    + rewrite Ht, fmap_app. cbn [fmap list_fmap].
      rewrite (sum_from_app (duration <$> bs0)), sum_cons.
      change (JS.sum []) with 0%Q. ring.
    + intros g. rewrite plays_snoc, Z.add_assoc, <- Hg.
      destruct (decide (gameType b = g)) as [<-|Hne].
      * rewrite lookup_insert_eq, bool_decide_eq_true_2 by done. cbn. lia.
      * rewrite lookup_insert_ne, bool_decide_eq_false_2 by done. lia.
  - split; [cbn; lia|]. split; [change (JS.sum _) with 0%Q; ring|].
    intros g. unfold plays. cbn. lia.
  - exists u'. split; [done|]. exact H.
Qed.

(** X6 (counters).  For requests whose bodies carry their numeric fields as
    JSON numbers and no [userId] of their own: after any sequence of them,
    [totalSessions] has grown by the number of the user's accepted
    submissions, [totalPlayTime] by the sum of their durations, and for every
    game the play count by the number of accepted submissions for that game
    (a game never played counting 0). *)
Theorem counters_follow_accepted uid db (rs : list Request) u :
  users db !! uid = Some u →
  let bs := acceptedBodies uid db rs in
  ∃ db' u', Wire.serve db (Wire.wireRequest <$> rs) = Some db'
    ∧ users db' !! uid = Some u'
    ∧ totalSessions (stats u') = totalSessions (stats u) + Z.of_nat (length bs)
    ∧ (totalPlayTime (stats u') == totalPlayTime (stats u) + JS.sum (duration <$> bs))%Q
    ∧ ∀ g, default 0 (gamesPlayed (stats u') !! g)
           = default 0 (gamesPlayed (stats u) !! g) + plays g bs.
Proof.
  intros Hu bs. destruct (counters_numeric uid db rs u Hu) as (u' & Hlook & H).
  exists (serve db rs), u'. split; [apply wire_serve|]. split; [exact Hlook | exact H].
Qed.

End BookkeepingFacts.

Section StoredSessionFacts.

Import SessionRecorder History.

Implicit Types (u : User) (db : Store) (r : Request) (rs : list Request) (b : Body).

Lemma counters_follow_accepted_witness :
  ∃ db' u', Wire.serve sampleStore (Wire.wireRequest <$> sampleRequests) = Some db'
    ∧ users db' !! 7 = Some u'
    ∧ totalSessions (stats u') = 2
    ∧ default 0 (gamesPlayed (stats u') !! "flanker") = 2
    ∧ default 0 (gamesPlayed (stats u') !! "n-back") = 0.
Proof.
  destruct (counters_follow_accepted 7 sampleStore sampleRequests
              (newUser "Ada" "Lovelace" 1690000000000))
    as (db' & u' & Hserve & Hlook & Hn & _ & Hg); [reflexivity|].
  exists db', u'. split; [exact Hserve|]. split; [exact Hlook|]. split; [exact Hn|].
  split; [exact (Hg "flanker") | exact (Hg "n-back")].
Defined.

(** What one request adds to the collection of sessions: nothing, or one
    session of the requesting user with the submitted score; when the user
    document exists, a session is stored exactly for a 201 answer. *)
Lemma handle_sessions db r :
  ∃ l, sessions (handle db r).2 = sessions db ++ l
    ∧ (length l ≤ 1)%nat
    ∧ (∀ s, s ∈ l → s_userId s = req_user r ∧ s_score s = score (req_body r))
    ∧ (is_Some (users db !! req_user r) →
       length l = if isCreated (handle db r).1 then 1%nat else 0%nat).
Proof.
  assert (∀ P : Session → Prop, ∀ s, s ∈ @nil Session → P s) as Hnil
    by (intros P s H; by apply elem_of_nil in H).
  unfold handle, postSession.
  destruct (validationResult (req_body r)) as [|err errs].
  2: { exists []. rewrite app_nil_r. split; [done|]. split; [cbn; lia|].
       split; [apply Hnil | done]. }
  destruct (schema_valid _); cbn [negb].
  2: { exists []. rewrite app_nil_r. split; [done|]. split; [cbn; lia|].
       split; [apply Hnil | done]. }
  destruct (users db !! req_user r) as [user|] eqn:Hu.
  - destruct (updateUser _ _ user) as [lr user']. eexists [_]. cbn.
    split; [done|]. split; [lia|]. split; [|done].
    intros s Hs. apply list_elem_of_singleton in Hs as ->. done.
  - eexists [_]. cbn. split; [done|]. split; [lia|]. split.
    + intros s Hs. apply list_elem_of_singleton in Hs as ->. done.
    + by intros [? ?].
Qed.

(** X7 (sessions are append-only).  Serving requests never removes, changes
    or reorders a stored session: the collection before is a prefix of the
    collection after, and it grows by at most one session per request. *)
Theorem sessions_append_only db rs :
  sessions db `prefix_of` sessions (serve db rs)
  ∧ (length (sessions (serve db rs)) ≤ length (sessions db) + length rs)%nat.
Proof.
  revert db. induction rs as [|r rs IH]; intros db; cbn [serve foldl].
  - split; [done | lia].
  - fold (serve (handle db r).2 rs).
    destruct (handle_sessions db r) as (l & Hl & Hlen & _).
    destruct (IH (handle db r).2) as [Hpre Hn]. split.
    + etrans; [|exact Hpre]. rewrite Hl. by apply prefix_app_r.
    + rewrite Hl, length_app in Hn. cbn. lia.
Qed.

(** The scores of the user's stored sessions after a sequence of requests are
    those stored before followed by the scores of the accepted submissions. *)
Lemma stored_scores uid rs : ∀ db u,
  users db !! uid = Some u →
  s_score <$> filter (λ s, s_userId s = uid) (sessions (serve db rs))
  = (s_score <$> filter (λ s, s_userId s = uid) (sessions db))
    ++ acceptedScores uid db rs.
Proof.
  induction rs as [|r rs IH]; intros db u Hu; cbn [serve foldl acceptedScores].
  - by rewrite app_nil_r.
  - fold (serve (handle db r).2 rs).
    destruct (handle_sessions db r) as (l & Hl & Hlen & Hown & Hcreated).
    assert (∃ u1, users (handle db r).2 !! uid = Some u1) as [u1 Hu1].
    { destruct (handle_user db r uid u Hu) as [[? _]|(_ & _ & _ & ?)]; eauto. }
    destruct (handle db r) as [resp db'] eqn:Hh. cbn [fst snd] in *.
    rewrite (IH db' u1 Hu1), Hl, filter_app, fmap_app, <- app_assoc.
    f_equal. f_equal.
    destruct (decide (req_user r = uid)) as [Heq|Hne].
    + rewrite bool_decide_eq_true_2 by done. cbn [andb].
      rewrite Heq in Hcreated. specialize (Hcreated (mk_is_Some _ _ Hu)).
      destruct (isCreated resp), l as [|s [|s' l]]; cbn in Hcreated; try lia; [|done].
      destruct (Hown s) as [Hs1 Hs2]; [apply elem_of_cons; auto|].
      rewrite filter_cons_True by congruence. cbn. by rewrite Hs2.
    + rewrite bool_decide_eq_false_2 by done. cbn [andb app].
      destruct l as [|s [|s' l]]; cbn in Hlen; try lia; [done|].
      destruct (Hown s) as [Hs1 _]; [apply elem_of_cons; auto|].
      rewrite filter_cons_False by congruence. done.
Qed.

(** Stats and stored sessions, for bodies with numbers. *)
Lemma stored_sessions_numeric uid db rs u :
  users db !! uid = Some u →
  totalSessions (stats u) = 0 →
  filter (λ s, s_userId s = uid) (sessions db) = [] →
  let stored := s_score <$> filter (λ s, s_userId s = uid) (sessions (serve db rs)) in
  stored = acceptedScores uid db rs
  ∧ ∃ u', users (serve db rs) !! uid = Some u'
      ∧ totalSessions (stats u') = Z.of_nat (length stored)
      ∧ (stored ≠ [] → (averageScore (stats u') == mean stored)%Q).
Proof.
  intros Hu Hn Hnone stored.
  assert (stored = acceptedScores uid db rs) as Hstored.
  { subst stored. rewrite (stored_scores uid rs db u Hu), Hnone. done. }
  split; [done|]. rewrite Hstored.
  destruct (serve_running_total uid rs db u 0 Hu) as (u' & Hlook & Hcount & Hsum).
  { lia. }
  { rewrite Hn. ring. }
  exists u'. split; [done|]. rewrite Hn in Hcount. split; [lia|].
  intros Hne. unfold mean.
  assert (JS.sum (acceptedScores uid db rs)
          == averageScore (stats u') * inject_Z (totalSessions (stats u')))%Q
    as -> by (rewrite Hsum; ring).
  replace (Z.of_nat (length (acceptedScores uid db rs)))
    with (totalSessions (stats u')) by lia.
  field. apply inject_Z_nonzero.
  destruct (acceptedScores uid db rs); [done | cbn in Hcount; lia].
Qed.

(** X8 (stats match the stored sessions).  For requests whose bodies carry
    their numeric fields as JSON numbers and no [userId] of their own, and a
    user who starts without sessions: after any sequence of such requests the
    scores of the user's stored sessions are exactly the scores of the
    accepted submissions, in order; [totalSessions] is the number of the
    user's stored sessions, and once there is one, [averageScore] is the mean
    of their scores. *)
Theorem stats_match_stored_sessions uid db (rs : list Request) u :
  users db !! uid = Some u →
  totalSessions (stats u) = 0 →
  filter (λ s, s_userId s = uid) (sessions db) = [] →
  ∃ db', Wire.serve db (Wire.wireRequest <$> rs) = Some db'
    ∧ let stored := s_score <$> filter (λ s, s_userId s = uid) (sessions db') in
      stored = acceptedScores uid db rs
      ∧ ∃ u', users db' !! uid = Some u'
          ∧ totalSessions (stats u') = Z.of_nat (length stored)
          ∧ (stored ≠ [] → (averageScore (stats u') == mean stored)%Q).
Proof.
  intros Hu Hn Hnone. exists (serve db rs). split; [apply wire_serve|].
  exact (stored_sessions_numeric uid db rs u Hu Hn Hnone).
Qed.

Lemma stats_match_stored_sessions_witness :
  ∃ db', Wire.serve sampleStore (Wire.wireRequest <$> sampleRequests) = Some db'
    ∧ s_score <$> filter (λ s, s_userId s = 7) (sessions db') = [100%Q; 50%Q].
Proof.
  destruct (stats_match_stored_sessions 7 sampleStore sampleRequests
              (newUser "Ada" "Lovelace" 1690000000000) eq_refl eq_refl eq_refl)
    as (db' & Hserve & Hstored & _).
  exists db'. split; [exact Hserve | exact Hstored].
Defined.

End StoredSessionFacts.

Section RewardFacts.

Import SessionRecorder History.

Implicit Types (u : User) (db : Store) (rs : list Request) (b : Body).

(** Number of badges the user holds. *)
Local Abbreviation held u := (Z.of_nat (length (badges u))).

Lemma awardOne_reward u badge :
  xp (awardOne u badge) - xp u = 100 * (held (awardOne u badge) - held u)
  ∧ 0 ≤ held (awardOne u badge) - held u ≤ 1
  ∧ level u ≤ level (awardOne u badge).
Proof.
  unfold awardOne.
  destruct (awardBadge_spec badge u) as [[_ ->]|[_ ->]]; [lia|].
  destruct (addXP_frame 100 (set_badges (badges u ++ [badge]) u)) as (-> & _).
  rewrite addXP_xp, addXP_level. cbn. rewrite length_app. cbn. lia.
Qed.

Lemma awardLoop_reward l u :
  xp (foldl awardOne u l) - xp u = 100 * (held (foldl awardOne u l) - held u)
  ∧ 0 ≤ held (foldl awardOne u l) - held u ≤ Z.of_nat (length l)
  ∧ level u ≤ level (foldl awardOne u l).
Proof.
  revert u. induction l as [|badge l IH]; intros u; cbn [foldl length]; [lia|].
  destruct (IH (awardOne u badge)) as (H1 & H2 & H3).
  destruct (awardOne_reward u badge) as (H4 & H5 & H6). lia.
Qed.

(** At most three rules of the badge rule set fire at once. *)
Lemma candidateBadges_length u s : (length (candidateBadges u s) ≤ 3)%nat.
Proof.
  unfold candidateBadges. rewrite !length_app.
  case_bool_decide as H1; [rewrite H1; change (JS.includes [10; 25; 50; 100] 1) with false|];
    repeat match goal with |- context [if ?c then _ else _] => destruct c end;
    cbn; lia.
Qed.

(** The XP and badges of one accepted submission. *)
Lemma updateUser_reward b s u :
  validationResult b = [] →
  let u' := (updateUser b s u).2 in
  xp u' = xp u + xpGained b + 100 * (held u' - held u)
  ∧ 0 ≤ held u' - held u ≤ 3
  ∧ level u ≤ level u'.
Proof.
  intros Hv. cbn zeta. rewrite updateUser_eq. unfold checkAndAwardBadges.
  set (u1 := (addXP (xpGained b) (set_stats (updateStats b (stats u)) u)).2).
  destruct (awardLoop_reward (candidateBadges u1 s) u1) as (H1 & H2 & H3).
  pose proof (candidateBadges_length u1 s).
  assert (xp u1 = xp u + xpGained b) as Hx by (subst u1; by rewrite addXP_xp).
  assert (level u ≤ level u1) as Hl by (subst u1; rewrite addXP_level; cbn; lia).
  grant_frame b u Hf. fold u1 in Hf. destruct Hf as (Hb & _).
  rewrite Hb in *. lia.
Qed.

(** X9 (XP per session).  Every accepted submission brings between 50 and
    450 XP (50 to 150 for the score, 100 for each of at most three new badges)
    and never lowers the level: after any sequence of requests the XP has
    grown by the session grants plus 100 per badge gained. *)
Theorem xp_grows_with_sessions uid db rs u :
  users db !! uid = Some u →
  let n := Z.of_nat (length (acceptedBodies uid db rs)) in
  ∃ u', users (serve db rs) !! uid = Some u'
    ∧ xp u' = xp u + foldr Z.add 0 (xpGained <$> acceptedBodies uid db rs)
              + 100 * (held u' - held u)
    ∧ xp u + 50 * n ≤ xp u' ≤ xp u + 450 * n
    ∧ level u ≤ level u'.
Proof.
  intros Hu n.
  destruct (serve_accumulate
              (λ bs v,
                 xp v = xp u + foldr Z.add 0 (xpGained <$> bs) + 100 * (held v - held u)
                 ∧ 0 ≤ held v - held u ≤ 3 * Z.of_nat (length bs)
                 ∧ 50 * Z.of_nat (length bs) ≤ foldr Z.add 0 (xpGained <$> bs)
                   ≤ 150 * Z.of_nat (length bs)
                 ∧ level u ≤ level v)
              uid) with (rs := rs) (db := db) (u := u) (bs := @nil Body)
    as (u' & Hlook & Hxp & Hh & Hg & Hl); try done.
  - intros bs b s v Hv _ (Hxp & Hh & Hg & Hl).
    destruct (updateUser_reward b s v Hv) as (H1 & H2 & H3).
    pose proof (xpGained_bounds b Hv).
    rewrite fmap_app, foldr_app, length_app. cbn [fmap list_fmap foldr length].
    assert (∀ l k, foldr Z.add k l = foldr Z.add 0 l + k) as Hfold.
    { induction l as [|x l IHl]; intros k; cbn; [lia | rewrite IHl; lia]. }
    rewrite (Hfold _ (xpGained b + 0)). lia.
  - cbn. lia.
  - exists u'. cbn [app] in *. subst n. repeat split; try done; lia.
Qed.

Lemma xp_grows_with_sessions_witness :
  ∃ u', users (serve sampleStore sampleRequests) !! 7 = Some u'
    ∧ 100 ≤ xp u' ≤ 900 ∧ 1 ≤ level u'.
Proof.
  destruct (xp_grows_with_sessions 7 sampleStore sampleRequests
              (newUser "Ada" "Lovelace" 1690000000000))
    as (u' & Hlook & _ & Hxp & Hl); [reflexivity|].
  exists u'. split; [exact Hlook|]. split; [exact Hxp | exact Hl].
Defined.

(** X10 (the 201 answer).  The answer to an accepted submission tells the
    stored state: [totalXP] and [currentLevel] are the user's XP and level
    after the request, [xpGained] is a multiple of 10 from 50 to 150,
    [totalXP] exceeds the earlier XP by [xpGained] plus 100 per new badge,
    [leveledUp] tells whether the session grant alone raised the level, and
    the session of the answer is the last one stored. *)
Theorem created_answer_is_faithful uid b e db s g lr txp lvl db' :
  postSession uid b e db = (Created s g lr txp lvl, db') →
  ∃ u u', users db !! uid = Some u
    ∧ users db' !! uid = Some u'
    ∧ txp = xp u' ∧ lvl = level u'
    ∧ g = xpGained b ∧ 50 ≤ g ≤ 150 ∧ g `mod` 10 = 0
    ∧ txp = xp u + g + 100 * (held u' - held u)
    ∧ (leveledUp lr = true ↔ level u < (xp u + g) / 1000 + 1)
    ∧ sessions db' = sessions db ++ [s]
    ∧ s_userId s = uid ∧ s_score s = score b.
Proof.
  unfold postSession.
  destruct (validationResult b) as [|err errs] eqn:Hv; [|done].
  destruct (schema_valid _); cbn [negb]; [|done].
  destruct (users db !! uid) as [u|] eqn:Hu; [|done].
  destruct (updateUser b (newSession uid b e) u) as [lr0 u'] eqn:Hup.
  intros [= <- <- <- <- <- <-]. exists u, u'. cbn [users sessions].
  rewrite lookup_insert_eq.
  destruct (updateUser_reward b (newSession uid b e) u Hv) as (Hxp & _).
  rewrite Hup in Hxp. cbn [snd] in Hxp.
  pose proof (xpGained_bounds b Hv).
  assert (lr0 = (addXP (xpGained b) (set_stats (updateStats b (stats u)) u)).1) as ->.
  { unfold updateUser in Hup. destruct (addXP _ _). by injection Hup as <- _. }
  destruct (addXP_report (xpGained b) (set_stats (updateStats b (stats u)) u))
    as (_ & Hlev & Hrep & _). cbn [level xp set_stats] in Hlev, Hrep.
  repeat split; try done; try lia.
  - unfold xpGained. rewrite Z.add_comm, Z.mod_add by lia. reflexivity.
  - intros H'. apply Hrep in H'. lia.
  - intros H'. apply Hrep. lia.
Qed.

Lemma created_answer_is_faithful_witness :
  ∃ u u', users sampleStore !! 7 = Some u
    ∧ users (postSession 7 (scenarioBody None) sampleEnv sampleStore).2 !! 7 = Some u'
    ∧ xp u' = xp u + 150 + 100 * (held u' - held u).
Proof.
  destruct (postSession 7 (scenarioBody None) sampleEnv sampleStore)
    as [resp db'] eqn:Hpost.
  assert (isCreated resp = true) as Hc.
  { replace resp with (postSession 7 (scenarioBody None) sampleEnv sampleStore).1
      by (by rewrite Hpost). vm_compute. reflexivity. }
  destruct resp as [| |s g lr txp lvl]; try discriminate Hc.
  destruct (created_answer_is_faithful _ _ _ _ _ _ _ _ _ _ Hpost)
    as (u & u' & Hu & Hu' & -> & _ & Hg & _ & _ & Hxp & _).
  exists u, u'. split; [exact Hu|]. split; [exact Hu'|].
  rewrite Hxp, Hg. reflexivity.
Defined.

End RewardFacts.

Section BadgeFacts.

Import SessionRecorder History.

Implicit Types (u : User) (db : Store) (rs : list Request) (b : Body) (id : string).

(** The ids after the award loop: those held before and those proposed. *)
Lemma awardLoop_ids l u id :
  id ∈ badge_id <$> badges (foldl awardOne u l)
  ↔ id ∈ badge_id <$> badges u ∨ id ∈ badge_id <$> l.
Proof.
  revert u. induction l as [|badge l IH]; intros u; cbn [foldl fmap list_fmap].
  - split; [auto | intros [?|H]; [done | by apply elem_of_nil in H]].
  - rewrite IH, awardOne_badges, elem_of_cons.
    case_bool_decide as Hin; [|rewrite elem_of_app, list_elem_of_singleton; tauto].
    split; [tauto|]. intros [?|[->|?]]; auto.
Qed.

Lemma awardLoop_prefix l u :
  (badge_id <$> badges u) `prefix_of` (badge_id <$> badges (foldl awardOne u l)).
Proof.
  revert u. induction l as [|badge l IH]; intros u; cbn [foldl]; [done|].
  etrans; [|apply IH]. rewrite awardOne_badges.
  case_bool_decide; [done | by apply prefix_app_r].
Qed.

Lemma awardLoop_NoDup l u :
  NoDup (badge_id <$> badges u) → NoDup (badge_id <$> badges (foldl awardOne u l)).
Proof.
  revert u. induction l as [|badge l IH]; intros u Hnd; cbn [foldl]; [done|].
  apply IH. rewrite awardOne_badges. case_bool_decide as Hin; [done|].
  apply NoDup_app. split; [done|]. split; [|apply NoDup_singleton].
  intros x Hx ->%list_elem_of_singleton. done.
Qed.

Lemma updateUser_badge_ids b s u id :
  id ∈ badge_id <$> badges (updateUser b s u).2
  ↔ id ∈ badge_id <$> badges u
    ∨ id ∈ badge_id <$> candidateBadges
             (addXP (xpGained b) (set_stats (updateStats b (stats u)) u)).2 s.
Proof.
  rewrite updateUser_eq. unfold checkAndAwardBadges. rewrite awardLoop_ids.
  grant_frame b u H. destruct H as (-> & _). done.
Qed.

(** X11 (badges are a set that only grows).  After any sequence of requests
    the badge ids the user held before still come first, in the same order,
    and no id occurs twice if none did before. *)
Theorem badges_only_grow uid db rs u :
  users db !! uid = Some u →
  ∃ u', users (serve db rs) !! uid = Some u'
    ∧ (badge_id <$> badges u) `prefix_of` (badge_id <$> badges u')
    ∧ (NoDup (badge_id <$> badges u) → NoDup (badge_id <$> badges u')).
Proof.
  intros Hu.
  apply (serve_invariant
           (λ v, (badge_id <$> badges u) `prefix_of` (badge_id <$> badges v)
                 ∧ (NoDup (badge_id <$> badges u) → NoDup (badge_id <$> badges v)))
           uid) with (u := u); [|done|done].
  intros b s v _ [Hpre Hnd]. rewrite updateUser_eq. unfold checkAndAwardBadges.
  grant_frame b v H. destruct H as (Hb & _). split.
  - etrans; [exact Hpre|]. rewrite <- Hb. apply awardLoop_prefix.
  - intros H0. apply awardLoop_NoDup. rewrite Hb. auto.
Qed.

Lemma badges_only_grow_witness :
  ∃ u', users (serve sampleStore sampleRequests) !! 7 = Some u'
    ∧ NoDup (badge_id <$> badges u').
Proof.
  destruct (badges_only_grow 7 sampleStore sampleRequests
              (newUser "Ada" "Lovelace" 1690000000000))
    as (u' & Hlook & _ & Hnd); [reflexivity|].
  exists u'. split; [exact Hlook|]. apply Hnd. apply NoDup_nil_2.
Defined.

(** The ids the rule set proposes. *)
Lemma candidate_ids u s id :
  id ∈ badge_id <$> candidateBadges u s ↔
  (id = "first-session" ∧ totalSessions (stats u) = 1)
  ∨ (id = "perfect-score" ∧ JS.strict_eq (s_score s) 100 = true)
  ∨ (id = "sessions-" +:+ pretty (totalSessions (stats u))
     ∧ totalSessions (stats u) ∈ [10; 25; 50; 100])
  ∨ (id = "streak-" +:+ pretty (streak u) ∧ streak u ∈ [7; 14; 30]).
Proof.
  unfold candidateBadges, JS.includes. rewrite !fmap_app, !elem_of_app.
  assert (∀ (c : bool) (x : Badge),
            id ∈ badge_id <$> (if c then [x] else []) ↔ id = badge_id x ∧ c = true) as Hif.
  { intros [] x; cbn; [rewrite list_elem_of_singleton | rewrite elem_of_nil];
      intuition congruence. }
  rewrite !Hif, !bool_decide_eq_true. cbn [badge_id]. tauto.
Qed.

Lemma milestoneInv_step bs b s v :
  s_score s = score b →
  milestoneInv bs v → milestoneInv (bs ++ [b]) (updateUser b s v).2.
Proof.
  intros Hs (Hc & Hfirst & Hperfect & Hmile). unfold milestoneInv.
  set (v1 := (addXP (xpGained b) (set_stats (updateStats b (stats v)) v)).2).
  assert (totalSessions (stats v1) = Z.of_nat (length bs) + 1) as Hn1.
  { subst v1. grant_frame b v H. destruct H as (_ & -> & _). cbn. lia. }
  rewrite length_app. cbn [length].
  split; [rewrite updateUser_stats; cbn; lia|].
  split; [|split].
  - rewrite updateUser_badge_ids, candidate_ids, Hfirst. fold v1. rewrite Hn1.
    split; [intros _; lia|]. intros _.
    destruct (decide (1 ≤ Z.of_nat (length bs))); [auto|].
    right. left. split; [done | lia].
  - rewrite updateUser_badge_ids, candidate_ids, Hperfect, Exists_app,
      Exists_cons, Exists_nil. unfold perfect, JS.strict_eq.
    rewrite Qeq_bool_iff, Hs. split.
    + intros [?|[[[=] _]|[[_ ?]|[[H _]|[H _]]]]]; [auto | auto | cbn in H; done..].
    + intros [?|[?|[]]]; auto.
  - intros N HN. rewrite updateUser_badge_ids, candidate_ids, (Hmile N HN).
    fold v1. rewrite Hn1. cbn [String.append]. split.
    + intros [?|[[[=] _]|[[[=] _]|[[[= H] _]|[[=] _]]]]]; [lia|].
      apply pretty_Z_inj in H. lia.
    + intros Hle. destruct (decide (N ≤ Z.of_nat (length bs))); [auto|].
      assert (N = Z.of_nat (length bs) + 1) as <- by lia.
      right. right. right. left. done.
Qed.

Lemma milestoneInv_fresh u :
  totalSessions (stats u) = 0 → badges u = [] → milestoneInv [] u.
Proof.
  intros Hn Hb. unfold milestoneInv. rewrite Hn, Hb. cbn. split; [done|].
  split; [|split].
  - split; [by intros ?%elem_of_nil | lia].
  - split; [by intros ?%elem_of_nil | by intros ?%Exists_nil].
  - intros N HN. split; [by intros ?%elem_of_nil|].
    unfold milestones in HN. apply list_elem_of_In in HN. cbn in HN. lia.
Qed.

(** X12 (milestone badges).  For a user who starts without sessions and
    without badges, after any sequence of requests: the user holds
    first-session exactly when at least one submission was accepted,
    perfect-score exactly when an accepted submission scored 100, and
    sessions-N, for N among 10, 25, 50, 100, exactly when at least N
    submissions were accepted. *)
Theorem badges_tell_milestones uid db rs u :
  users db !! uid = Some u →
  totalSessions (stats u) = 0 →
  badges u = [] →
  let bs := acceptedBodies uid db rs in
  ∃ u', users (serve db rs) !! uid = Some u'
    ∧ totalSessions (stats u') = Z.of_nat (length bs)
    ∧ ("first-session" ∈ badge_id <$> badges u' ↔ 1 ≤ Z.of_nat (length bs))
    ∧ ("perfect-score" ∈ badge_id <$> badges u' ↔ Exists perfect bs)
    ∧ ∀ N, N ∈ milestones →
        ("sessions-" +:+ pretty N ∈ badge_id <$> badges u' ↔ N ≤ Z.of_nat (length bs)).
Proof.
  intros Hu Hn Hb bs.
  destruct (serve_accumulate milestoneInv uid) with (rs := rs) (db := db) (u := u)
    (bs := @nil Body) as (u' & Hlook & H).
  - intros bs0 b s v _ Hs Hinv. by apply milestoneInv_step.
  - done.
  - by apply milestoneInv_fresh.
  - exists u'. split; [done|]. exact H.
Qed.

Lemma badges_tell_milestones_witness :
  ∃ u', users (serve sampleStore sampleRequests) !! 7 = Some u'
    ∧ "first-session" ∈ badge_id <$> badges u'
    ∧ "perfect-score" ∈ badge_id <$> badges u'
    ∧ "sessions-10" ∉ badge_id <$> badges u'.
Proof.
  destruct (badges_tell_milestones 7 sampleStore sampleRequests
              (newUser "Ada" "Lovelace" 1690000000000))
    as (u' & Hlook & _ & Hfirst & Hperfect & Hmile); [reflexivity..|].
  exists u'. split; [exact Hlook|]. split; [|split].
  - apply Hfirst. vm_compute. discriminate.
  - apply Hperfect. apply Exists_cons. left. vm_compute. reflexivity.
  - intros Hin. apply (Hmile 10) in Hin; [vm_compute in Hin; by apply Hin|].
    apply list_elem_of_In. left. reflexivity.
Defined.

End BadgeFacts.

(** ** Achievements *)

Section AchievementFacts.

Import SessionRecorder History Achievements.

Implicit Types (u : User) (db : Store) (ss : list Session).

Lemma existsb_isPerfect ss :
  existsb isPerfect ss = true ↔ Exists (λ q, (q == 100)%Q) (s_score <$> ss).
Proof.
  induction ss as [|s ss IH]; cbn.
  - split; [done | by intros ?%Exists_nil].
  - rewrite orb_true_iff, IH, Exists_cons. unfold isPerfect, JS.strict_eq.
    by rewrite Qeq_bool_iff.
Qed.

Lemma filter_isPerfect ss :
  (0 < length (filter (λ s, isPerfect s) ss))%nat ↔ existsb isPerfect ss = true.
Proof.
  induction ss as [|s ss IH]; [cbn; split; [lia | done]|].
  cbn [existsb]. destruct (isPerfect s) eqn:Hp.
  - rewrite filter_cons_True by (by apply Is_true_true).
    split; intros _; [reflexivity | cbn [length]; lia].
  - rewrite filter_cons_False by (intros H%Is_true_true; congruence). exact IH.
Qed.

(** No more games are tried than the schema knows. *)
Lemma gamesTried_bound ss :
  (∀ s, s ∈ ss → s_gameType s ∈ gameTypes) → 0 ≤ gamesTried ss ≤ 8.
Proof.
  intros Hvalid. unfold gamesTried.
  assert (length (remove_dups (s_gameType <$> ss)) ≤ length gameTypes)%nat as H.
  { apply submseteq_length, NoDup_submseteq; [apply NoDup_remove_dups|].
    intros g Hg. apply elem_of_remove_dups, list_elem_of_fmap in Hg as (s & -> & Hs).
    by apply Hvalid. }
  cbn in H. lia.
Qed.

(** X13 (achievement progress).  In the achievements answer there are five
    achievements; for each one the progress never exceeds the target, and it
    is marked completed exactly when the progress has reached the target
    (the user's stored sessions carrying game types of the schema). *)
Theorem achievement_completed_at_target uid db answer :
  getAchievements uid db = Some answer →
  (∀ s, s ∈ sessions db → s_userId s = uid → s_gameType s ∈ gameTypes) →
  totalAchievements answer = 5
  ∧ 0 ≤ completedAchievements answer ≤ 5
  ∧ ∀ a, a ∈ achievements answer →
      progress a ≤ target a ∧ (completed a = true ↔ progress a = target a).
Proof.
  unfold getAchievements. intros (user & _ & [= <-])%bind_Some Hvalid.
  cbn [totalAchievements completedAchievements achievements].
  set (ss := filter (λ s, s_userId s = uid) (sessions db)).
  split; [done|]. split.
  { pose proof (length_filter (λ a, completed a = true) (achievementList user ss)) as H.
    change (length (achievementList user ss)) with 5%nat in H. lia. }
  assert (0 ≤ gamesTried ss ≤ 8) as Hg.
  { apply gamesTried_bound. intros s [Hu Hs]%list_elem_of_filter. auto. }
  pose proof (filter_isPerfect ss) as Hp.
  intros a Ha. unfold achievementList in Ha.
  repeat (apply elem_of_cons in Ha as [->|Ha]); [..|by apply elem_of_nil in Ha];
    cbn [progress target completed]; rewrite ?bool_decide_eq_true;
    try (split; lia).
  case_bool_decide as Hlen.
  - split; [lia|]. split; [done|]. intros _. by apply Hp.
  - split; [lia|]. split; [|done]. intros He. apply Hp in He. done.
Qed.

Lemma achievement_completed_at_target_witness :
  ∃ answer, getAchievements 7 (serve sampleStore sampleRequests) = Some answer
    ∧ completedAchievements answer = 2.
Proof.
  destruct (getAchievements 7 (serve sampleStore sampleRequests)) as [answer|] eqn:Hget;
    [|vm_compute in Hget; discriminate].
  exists answer. split; [reflexivity|].
  destruct (achievement_completed_at_target 7 _ answer Hget) as (_ & _ & _).
  { intros s Hs _. vm_compute in Hs. apply list_elem_of_In in Hs.
    repeat destruct Hs as [<-|Hs]; [..|done];
      apply (bool_decide_unpack _); vm_compute; exact I. }
  vm_compute in Hget. injection Hget as <-. reflexivity.
Defined.

(** Achievements and badges, for bodies with numbers. *)
Lemma achievements_numeric uid db rs u :
  users db !! uid = Some u →
  totalSessions (stats u) = 0 → badges u = [] → streak u = 0 →
  filter (λ s, s_userId s = uid) (sessions db) = [] →
  ∃ u' answer, users (serve db rs) !! uid = Some u'
    ∧ getAchievements uid (serve db rs) = Some answer
    ∧ length (earnedBadges answer) = length (badges u')
    ∧ ∀ a, a ∈ achievements answer →
        (a_id a ∈ ["first-session"; "sessions-50"; "perfect-score"] →
         (completed a = true ↔ a_id a ∈ badge_id <$> badges u'))
        ∧ (a_id a = "streak-7" →
           completed a = false ∧ ("streak-7" ∉ badge_id <$> badges u')).
Proof.
  intros Hu Hn Hb Hs Hnone.
  destruct (serve_accumulate
              (λ bs v, milestoneInv bs v ∧ streak v = 0
                       ∧ ∀ id, id ∈ badge_id <$> badges v → id ∉ streakBadgeIds)
              uid) with (rs := rs) (db := db) (u := u) (bs := @nil Body)
    as (u' & Hlook & (Hc & Hfirst & Hperfect & Hmile) & Hstreak & Hnostreak).
  - intros bs b s v _ Hsc (Hinv & Hst & Hno). split; [by apply milestoneInv_step|].
    destruct (updateUser_frame b s v) as (-> & _). split; [done|].
    by apply updateUser_no_streak_badge.
  - done.
  - split; [by apply milestoneInv_fresh|]. split; [done|].
    rewrite Hb. by intros id ?%elem_of_nil.
  - cbn [app] in *. unfold getAchievements. rewrite Hlook. cbn [mbind option_bind].
    exists u'. eexists. split; [reflexivity|]. split; [reflexivity|].
    cbn [achievements earnedBadges]. split; [by rewrite length_fmap|].
    set (ss := filter (λ s, s_userId s = uid) (sessions (serve db rs))).
    assert (existsb isPerfect ss = true ↔ Exists perfect (acceptedBodies uid db rs))
      as Hstored.
    { rewrite existsb_isPerfect. subst ss.
      rewrite (stored_scores uid rs db u Hu), Hnone, acceptedScores_bodies.
      cbn [fmap list_fmap app]. by rewrite Exists_fmap. }
    intros a Ha. unfold achievementList in Ha.
    repeat (apply elem_of_cons in Ha as [->|Ha]); [..|by apply elem_of_nil in Ha];
      cbn [a_id completed]; (split; [intros Hid | intros Hid]); try discriminate Hid;
      try (exfalso; apply list_elem_of_In in Hid; cbn in Hid; intuition discriminate).
    + rewrite bool_decide_eq_true, Hfirst, Hc. done.
    + split; [apply bool_decide_eq_false; lia|].
      intros Hin. apply (Hnostreak _ Hin). apply list_elem_of_In. left. reflexivity.
    + rewrite bool_decide_eq_true, Hc.
      change "sessions-50" with ("sessions-" +:+ pretty 50). symmetry. apply Hmile.
      apply list_elem_of_In. cbn. auto.
    + by rewrite Hstored, Hperfect.
Qed.

(** X14 (achievements agree with badges).  For requests whose bodies carry
    their numeric fields as JSON numbers and no [userId] of their own, and a
    user who starts without sessions, badges or streak: after any sequence of
    such requests the achievements answer marks first-session, sessions-50
    and perfect-score as completed exactly when the user holds the badge of
    that id, streak-7 is neither completed nor held, and [earnedBadges] has
    one entry per badge held. *)
Theorem achievements_agree_with_badges uid db (rs : list Request) u :
  users db !! uid = Some u →
  totalSessions (stats u) = 0 → badges u = [] → streak u = 0 →
  filter (λ s, s_userId s = uid) (sessions db) = [] →
  ∃ db' u' answer,
    Wire.serve db (Wire.wireRequest <$> rs) = Some db'
    ∧ users db' !! uid = Some u'
    ∧ getAchievements uid db' = Some answer
    ∧ length (earnedBadges answer) = length (badges u')
    ∧ ∀ a, a ∈ achievements answer →
        (a_id a ∈ ["first-session"; "sessions-50"; "perfect-score"] →
         (completed a = true ↔ a_id a ∈ badge_id <$> badges u'))
        ∧ (a_id a = "streak-7" →
           completed a = false ∧ ("streak-7" ∉ badge_id <$> badges u')).
Proof.
  intros Hu Hn Hb Hs Hnone.
  destruct (achievements_numeric uid db rs u Hu Hn Hb Hs Hnone)
    as (u' & answer & Hlook & Hget & Hlen & Hagree).
  exists (serve db rs), u', answer. split; [apply wire_serve|]. done.
Qed.

Lemma achievements_agree_with_badges_witness :
  ∃ db' u' answer,
    Wire.serve sampleStore (Wire.wireRequest <$> sampleRequests) = Some db'
    ∧ users db' !! 7 = Some u'
    ∧ getAchievements 7 db' = Some answer
    ∧ "perfect-score" ∈ badge_id <$> badges u'.
Proof.
  destruct (achievements_agree_with_badges 7 sampleStore sampleRequests
              (newUser "Ada" "Lovelace" 1690000000000))
    as (db' & u' & answer & Hserve & Hlook & Hget & _ & Hagree); [reflexivity..|].
  exists db', u', answer. split; [exact Hserve|]. split; [exact Hlook|].
  split; [exact Hget|].
  assert (∃ a, a ∈ achievements answer ∧ a_id a = "perfect-score" ∧ completed a = true)
    as (a & Ha & Hid & Hdone).
  { vm_compute in Hserve. injection Hserve as <-.
    vm_compute in Hget. injection Hget as <-. eexists. split.
    - cbn [achievements]. do 3 apply list_elem_of_further. apply list_elem_of_here.
    - split; reflexivity. }
  destruct (Hagree a Ha) as [Hbadge _]. rewrite Hid in Hbadge.
  apply Hbadge; [|exact Hdone].
  do 2 apply list_elem_of_further. apply list_elem_of_here.
Defined.

End AchievementFacts.

(** ** GET /api/sessions *)

Section HistoryFacts.

Import SessionRecorder History.

Implicit Types (db : Store) (q : Query).

#[local] Instance newerFirst_total : Total newerFirst.
Proof. intros a b. unfold newerFirst. lia. Qed.

#[local] Instance newerFirst_trans : Transitive newerFirst.
Proof. intros a b c. unfold newerFirst. lia. Qed.

Lemma found_sorted uid q db : StronglySorted newerFirst (found uid q db).
Proof. apply StronglySorted_merge_sort; apply _. Qed.

Lemma found_elem uid q db s :
  s ∈ found uid q db ↔ s ∈ sessions db ∧ matches uid q s = true.
Proof.
  unfold found. rewrite merge_sort_Permutation, list_elem_of_filter.
  rewrite Is_true_true. tauto.
Qed.

Lemma StronglySorted_take_drop {A} (R : relation A) (l : list A) n m :
  StronglySorted R l → StronglySorted R (take n (drop m l)).
Proof.
  intros Hs.
  assert (StronglySorted R (drop m l)) as Hd.
  { clear n. revert m. induction Hs as [|x l Hs IH Hall]; intros [|m]; cbn;
      [constructor.. | by constructor | apply IH]. }
  clear Hs. revert n. induction Hd as [|x l' Hs IH Hall]; intros [|n]; cbn;
    [constructor.. |]. constructor; [apply IH | by apply Forall_take].
Qed.

(** The number of pages the answer reports, for a positive limit. *)
Lemma pages_reported (t l : Z) :
  0 ≤ t → 1 ≤ l →
  ∃ P, ceil (Analytics.div (Analytics.Fin (inject_Z t)) (Analytics.Fin (inject_Z l)))
       = Analytics.Fin (inject_Z P)
       ∧ (P - 1) * l < t ≤ P * l.
Proof.
  intros Ht Hl. unfold Analytics.div, Analytics.is_zero.
  assert (Qeq_bool (inject_Z l) 0 = false) as ->.
  { apply not_true_iff_false. rewrite Qeq_bool_iff. apply inject_Z_nonzero. lia. }
  cbn [ceil]. eexists. split; [reflexivity|].
  set (x := (inject_Z t / inject_Z l)%Q).
  assert (x * inject_Z l == inject_Z t)%Q as Hx
    by (subst x; field; apply inject_Z_nonzero; lia).
  assert (inject_Z 0 < inject_Z l)%Q as Hpos by (rewrite <- Zlt_Qlt; lia).
  change (inject_Z 0) with 0%Q in Hpos.
  pose proof (Qceiling_lt x) as H1. pose proof (Qle_ceiling x) as H2.
  split.
  - rewrite Zlt_Qlt, inject_Z_mult, <- Hx. by apply Qmult_lt_compat_r.
  - rewrite Zle_Qle, inject_Z_mult, <- Hx. apply Qmult_le_compat_r; [done|]. lra.
Qed.

(** X15 (one page of the history).  For a page number and a limit of at
    least 1 the request is answered with at most [limit] sessions, each a
    stored session of the requesting user that passes every filter of the
    query, newest first; [total] counts all matching sessions and [pages] is
    the least number of pages of [limit] sessions that holds them. *)
Theorem getSessions_page uid q db :
  1 ≤ page q → 1 ≤ limit q →
  ∃ pg P, getSessions uid q db = Some pg
    ∧ Z.of_nat (length (page_sessions pg)) ≤ limit q
    ∧ (∀ s, s ∈ page_sessions pg →
         s ∈ sessions db ∧ s_userId s = uid ∧ matches uid q s = true)
    ∧ StronglySorted newerFirst (page_sessions pg)
    ∧ current (pagination pg) = page q
    ∧ total (pagination pg)
      = Z.of_nat (length (filter (λ s, matches uid q s) (sessions db)))
    ∧ pages (pagination pg) = Analytics.Fin (inject_Z P)
    ∧ (P - 1) * limit q < total (pagination pg) ≤ P * limit q.
Proof.
  intros Hp Hl. unfold getSessions.
  rewrite bool_decide_eq_false_2 by nia.
  destruct (pages_reported (Z.of_nat (length (found uid q db))) (limit q))
    as (P & HP & Hbound); [lia | done |].
  eexists _, P. split; [reflexivity|].
  cbn [page_sessions pagination current total pages].
  unfold limited. rewrite bool_decide_eq_false_2 by lia.
  split; [rewrite length_take; lia|]. split.
  { intros s Hs. apply subseteq_take, subseteq_drop, found_elem in Hs as [Hin Hm].
    split; [done|]. split; [|done]. unfold matches in Hm.
    rewrite !andb_true_iff, bool_decide_eq_true in Hm. tauto. }
  split; [by apply StronglySorted_take_drop, found_sorted|].
  split; [done|]. split; [|done].
  unfold found. by rewrite merge_sort_Permutation.
Qed.

Lemma getSessions_page_witness :
  ∃ pg, getSessions 7 (pageOfTwo 2) historyStore = Some pg
    ∧ Z.of_nat (length (page_sessions pg)) ≤ 2
    ∧ total (pagination pg) = 5.
Proof.
  destruct (getSessions_page 7 (pageOfTwo 2) historyStore)
    as (pg & P & Hget & Hlen & _ & _ & _ & Htotal & _); [cbn; lia..|].
  exists pg. split; [exact Hget|]. split; [exact Hlen | exact Htotal].
Defined.

Lemma chunks_take {A} (l : list A) (n P : nat) :
  concat ((λ k, take n (drop (k * n) l)) <$> seq 0 P) = take (P * n) l.
Proof.
  induction P as [|P IH]; [done|].
  rewrite seq_S, fmap_app, concat_app, IH. cbn [fmap list_fmap concat].
  rewrite app_nil_r, take_take_drop. f_equal. lia.
Qed.

(** X16 (the pages cover the history).  For a limit of at least 1, reading
    the pages 1, 2, ..., P one after the other, with P the number of pages the
    answer reports, gives every matching session exactly once, newest first;
    and every page after P is empty. *)
Theorem pages_cover_history uid q db :
  1 ≤ limit q →
  ∃ P : nat,
    (∀ k, 1 ≤ k → ∃ pg, getSessions uid (atPage q k) db = Some pg
                        ∧ pages (pagination pg) = Analytics.Fin (inject_Z (Z.of_nat P)))
    ∧ concat ((λ k, pageAt uid q db (Z.of_nat k + 1)) <$> seq 0 P) = found uid q db
    ∧ ∀ k, Z.of_nat P < k → pageAt uid q db k = [].
Proof.
  intros Hl.
  destruct (pages_reported (Z.of_nat (length (found uid q db))) (limit q))
    as (P & HP & Hbound); [lia | done |].
  assert (0 ≤ P) as HP0 by nia.
  assert (∀ k, 1 ≤ k →
            getSessions uid (atPage q k) db
            = Some {| page_sessions :=
                        take (Z.to_nat (limit q))
                          (drop (Z.to_nat (k - 1) * Z.to_nat (limit q)) (found uid q db));
                      pagination :=
                        {| current := k;
                           pages := Analytics.Fin (inject_Z P);
                           total := Z.of_nat (length (found uid q db)) |} |}) as Hget.
  { intros k Hk. unfold getSessions. cbn [page limit atPage].
    rewrite bool_decide_eq_false_2 by nia. unfold limited.
    rewrite bool_decide_eq_false_2 by lia.
    change (found uid (atPage q k) db) with (found uid q db). rewrite HP.
    do 3 f_equal; [lia|]. f_equal. nia. }
  exists (Z.to_nat P). rewrite Z2Nat.id by done. split; [|split].
  - intros k Hk. rewrite (Hget k Hk). eexists. split; reflexivity.
  - erewrite list_fmap_ext.
    + rewrite (chunks_take (found uid q db) (Z.to_nat (limit q)) (Z.to_nat P)).
      apply take_ge. nia.
    + intros i k _. cbn beta. unfold pageAt. rewrite Hget by lia.
      cbn [from_option page_sessions]. do 3 f_equal. lia.
  - intros k Hk. unfold pageAt. rewrite Hget by lia. cbn [from_option page_sessions].
    rewrite drop_ge; [apply take_nil|]. nia.
Qed.

Lemma pages_cover_history_witness :
  pageAt 7 (pageOfTwo 1) historyStore 1 ++ pageAt 7 (pageOfTwo 1) historyStore 2
  ++ pageAt 7 (pageOfTwo 1) historyStore 3
  = found 7 (pageOfTwo 1) historyStore.
Proof.
  destruct (pages_cover_history 7 (pageOfTwo 1) historyStore) as (P & Hpages & Hcover & _);
    [cbn; lia|].
  destruct (Hpages 1) as (pg & Hget & HP); [lia|].
  assert (P = 3%nat) as ->.
  { vm_compute in Hget. injection Hget as <-. cbn in HP.
    injection HP as HP. lia. }
  rewrite <- Hcover. cbn [seq fmap list_fmap concat]. by rewrite app_nil_r.
Defined.

End HistoryFacts.

(** ** The other analytics helpers *)

Section DashboardFacts.

Import Analytics Dashboard.

Implicit Types (sessions : list Session) (d : string).

Lemma max_cases (x y : Q) :
  (JS.max x y = x ∨ JS.max x y = y) ∧ (x <= JS.max x y)%Q ∧ (y <= JS.max x y)%Q.
Proof.
  unfold JS.max. destruct (Qle_bool x y) eqn:H.
  - apply Qle_bool_iff in H. split; [auto|]. split; [done | apply Qle_refl].
  - apply not_true_iff_false in H. rewrite Qle_bool_iff in H.
    apply Qnot_le_lt, Qlt_le_weak in H. split; [auto|]. split; [apply Qle_refl | done].
Qed.

Lemma foldl_max (a : Q) (l : list Q) :
  foldl JS.max a l ∈ a :: l
  ∧ (a <= foldl JS.max a l)%Q
  ∧ ∀ x, x ∈ l → (x <= foldl JS.max a l)%Q.
Proof.
  revert a. induction l as [|y l IH]; intros a; cbn [foldl].
  - split; [apply list_elem_of_here|]. split; [apply Qle_refl|].
    by intros x ?%elem_of_nil.
  - destruct (IH (JS.max a y)) as (Hin & Hge & Hall).
    destruct (max_cases a y) as (Hc & Ha & Hy). split; [|split].
    + apply elem_of_cons in Hin as [->|Hin].
      * destruct Hc as [->| ->]; [apply list_elem_of_here|].
        apply list_elem_of_further, list_elem_of_here.
      * by do 2 apply list_elem_of_further.
    + by apply (Qle_trans _ (JS.max a y)).
    + intros x [->|Hx]%elem_of_cons; [by apply (Qle_trans _ (JS.max a y)) | by apply Hall].
Qed.

(** [Math.max(...scores)] over a list that is not empty: one of the scores,
    and no score is larger. *)
Lemma maxScore_spec (l : list Q) :
  l ≠ [] → Leaderboard.maxScore l ∈ l ∧ ∀ x, x ∈ l → (x <= Leaderboard.maxScore l)%Q.
Proof.
  destruct l as [|a l]; [done|]. intros _. cbn [Leaderboard.maxScore].
  destruct (foldl_max a l) as (Hin & Hge & Hall). split; [done|].
  intros x [->|Hx]%elem_of_cons; auto.
Qed.

Lemma sum_le_bound (l : list Q) (m : Q) :
  (∀ x, x ∈ l → (x <= m)%Q) →
  (JS.sum l <= inject_Z (Z.of_nat (length l)) * m)%Q.
Proof.
  induction l as [|x l IH]; intros Hall.
  - change (JS.sum []) with 0%Q.
    change (inject_Z (Z.of_nat (@length Q []))) with 0%Q. lra.
  - rewrite sum_cons. cbn [length]. rewrite Nat2Z.inj_succ, <- Z.add_1_r, inject_Z_plus.
    assert (x <= m)%Q by (apply Hall, list_elem_of_here).
    assert (JS.sum l <= inject_Z (Z.of_nat (length l)) * m)%Q
      by (apply IH; intros y Hy; by apply Hall, list_elem_of_further).
    change (inject_Z 1) with 1%Q. lra.
Qed.

Lemma mean_le_max (l : list Q) :
  l ≠ [] →
  (JS.sum l / inject_Z (Z.of_nat (length l)) <= Leaderboard.maxScore l)%Q.
Proof.
  intros Hl. destruct (maxScore_spec l Hl) as [_ Hall].
  apply Qle_shift_div_r.
  - change 0%Q with (inject_Z 0). rewrite <- Zlt_Qlt. destruct l; [done | cbn; lia].
  - rewrite Qmult_comm. by apply sum_le_bound.
Qed.

Lemma domainPerformance_fold (ds : list string) sessions d :
  ∀ acc : gmap string DomainPerformance,
  foldl (λ performance d,
           let domainSessions := inDomain d sessions in
           if bool_decide (0 < length domainSessions)%nat
           then <[d := domainEntry domainSessions]> performance
           else performance) acc ds !! d
  = if bool_decide (d ∈ ds ∧ inDomain d sessions ≠ [])
    then Some (domainEntry (inDomain d sessions)) else acc !! d.
Proof.
  induction ds as [|x ds IH]; intros acc; cbn [foldl].
  - rewrite bool_decide_eq_false_2; [done|]. by intros [?%elem_of_nil _].
  - rewrite IH. cbn zeta.
    assert ((0 < length (inDomain x sessions))%nat ↔ inDomain x sessions ≠ []) as Hne
      by (destruct (inDomain x sessions); cbn; split; (done || lia)).
    destruct (decide (d ∈ ds ∧ inDomain d sessions ≠ [])) as [[Hin Hd]|Hnot].
    + rewrite !bool_decide_eq_true_2; [done | |done].
      split; [by apply list_elem_of_further | done].
    + rewrite (bool_decide_eq_false_2 _ Hnot).
      destruct (decide (x = d)) as [->|Hxd].
      * destruct (decide (0 < length (inDomain d sessions))%nat) as [Hlen|Hlen].
        -- rewrite (bool_decide_eq_true_2 _ Hlen), lookup_insert_eq,
             bool_decide_eq_true_2; [done|].
           split; [apply list_elem_of_here | by apply Hne].
        -- rewrite (bool_decide_eq_false_2 _ Hlen), bool_decide_eq_false_2; [done|].
           intros [_ Hd]. by apply Hlen, Hne.
      * assert (¬ (d ∈ x :: ds ∧ inDomain d sessions ≠ [])) as Hnot'.
        { intros [[->|Hin]%elem_of_cons Hd]; [done | by apply Hnot]. }
        rewrite (bool_decide_eq_false_2 _ Hnot').
        destruct (bool_decide (0 < length (inDomain x sessions))%nat);
          [by rewrite lookup_insert_ne | done].
Qed.

(** X17 (performance by domain).  The object of [calculateDomainPerformance]
    has an entry for a domain exactly when it is one of the four domains and
    some session has it; the entry counts those sessions, its best score is
    the score of one of them and no score of the domain is larger, and the
    average score and accuracy are their means, up to the rounding of the
    additions and of the division (which this model leaves out: computed in
    doubles, the average of three sessions at 99.9 comes out above 99.9). *)
Theorem domainPerformance_describes_domain sessions d :
  let performance := calculateDomainPerformance sessions in
  let own := inDomain d sessions in
  (performance !! d = None ↔ d ∉ domains ∨ own = [])
  ∧ ∀ p, performance !! d = Some p →
      dp_sessionCount p = Z.of_nat (length own) ∧ 1 ≤ dp_sessionCount p
      ∧ dp_bestScore p ∈ s_score <$> own
      ∧ (∀ s, s ∈ own → (s_score s <= dp_bestScore p)%Q)
      ∧ dp_averageScore p = SessionRecorder.mean (s_score <$> own)
      ∧ dp_averageAccuracy p = SessionRecorder.mean (s_accuracy <$> own).
Proof.
  cbn zeta. unfold calculateDomainPerformance.
  rewrite (domainPerformance_fold domains sessions d ∅), lookup_empty.
  case_bool_decide as H.
  - destruct H as [Hin Hne]. split.
    + split; [done|]. intros [?|?]; done.
    + intros p [= <-]. cbn [dp_sessionCount dp_bestScore dp_averageScore dp_averageAccuracy domainEntry].
      assert (s_score <$> inDomain d sessions ≠ []) as Hne'
        by (destruct (inDomain d sessions); done).
      destruct (maxScore_spec _ Hne') as [Hmax Hall].
      unfold SessionRecorder.mean. rewrite !length_fmap.
      repeat split; try done.
      * destruct (inDomain d sessions); [done | cbn; lia].
      * intros s Hs. apply Hall. by apply list_elem_of_fmap_2.
  - split; [|done]. split; [|done]. intros _.
    destruct (decide (d ∈ domains)); [|auto]. right.
    destruct (decide (inDomain d sessions = [])); [done|]. exfalso. auto.
Qed.

Lemma weekly_mean (l : list Session) :
  ∃ q, or (div (totalScore l) (length_num l)) (Fin 0) = Fin q
    ∧ (l = [] → q = 0%Q)
    ∧ (l ≠ [] → (q == SessionRecorder.mean (s_score <$> l))%Q).
Proof.
  destruct l as [|s l].
  - exists 0%Q. split; [reflexivity|]. split; done.
  - unfold totalScore, length_num, div, is_zero.
    assert (Qeq_bool (inject_Z (Z.of_nat (length (s :: l)))) 0 = false) as ->.
    { apply not_true_iff_false. rewrite Qeq_bool_iff. apply inject_Z_nonzero. cbn. lia. }
    unfold or, truthy, is_zero. unfold SessionRecorder.mean. rewrite length_fmap.
    destruct (Qeq_bool _ 0) eqn:Hz; cbn [negb].
    + exists 0%Q. split; [done|]. split; [done|]. intros _.
      apply Qeq_bool_iff in Hz. by rewrite Hz.
    + eexists. split; [reflexivity|]. split; [done|]. intros _. reflexivity.
Qed.

(** X18 (weekly stats).  [calculateWeeklyStats] counts exactly the user's
    sessions since the given date; its average is always a finite number: 0
    when there are none, their mean score otherwise; and the number of
    distinct games played is at most the number of sessions. *)
Theorem weeklyStats_are_finite uid sevenDaysAgo (db : SessionRecorder.Store) :
  let w := calculateWeeklyStats uid sevenDaysAgo db in
  let own := since uid sevenDaysAgo db in
  (∀ s, s ∈ own ↔
        s ∈ SessionRecorder.sessions db ∧ s_userId s = uid ∧ sevenDaysAgo ≤ s_createdAt s)
  ∧ sessionsThisWeek w = Z.of_nat (length own)
  ∧ (∃ q, ws_averageScore w = Fin q
       ∧ (own = [] → q = 0%Q)
       ∧ (own ≠ [] → (q == SessionRecorder.mean (s_score <$> own))%Q))
  ∧ 0 ≤ ws_gamesPlayed w ≤ sessionsThisWeek w.
Proof.
  cbn zeta. unfold calculateWeeklyStats.
  cbn [sessionsThisWeek ws_averageScore ws_gamesPlayed].
  split; [|split; [done|split]].
  - intros s. unfold since. rewrite list_elem_of_filter. tauto.
  - apply weekly_mean.
  - split; [lia|].
    assert (length (remove_dups (s_gameType <$> since uid sevenDaysAgo db))
            ≤ length (s_gameType <$> since uid sevenDaysAgo db))%nat as H.
    { apply submseteq_length, NoDup_submseteq; [apply NoDup_remove_dups|].
      intros g Hg. by rewrite elem_of_remove_dups in Hg. }
    rewrite length_fmap in H. lia.
Qed.

End DashboardFacts.

Section GroupingFacts.

Import Dashboard.

#[local] Instance earlierDay_total : Total earlierDay.
Proof. intros a b. unfold earlierDay. lia. Qed.

#[local] Instance earlierDay_trans : Transitive earlierDay.
Proof. intros a b c. unfold earlierDay. lia. Qed.

(** Sorting a list into classes loses nothing: the sizes of the classes of
    the keys [ks] add up to the length of the list. *)
Lemma classes_partition {A K} `{EqDecision K} (f : A → K) (l : list A) (ks : list K) :
  NoDup ks → (∀ x, x ∈ l → f x ∈ ks) →
  sum_list_with (λ k, length (filter (λ x, f x = k) l)) ks = length l.
Proof.
  intros Hnd. induction l as [|a l IH]; intros Hks.
  - clear. induction ks as [|k ks IHk]; [done|].
    cbn [sum_list_with]. by rewrite filter_nil, IHk.
  - assert (sum_list_with (λ k, length (filter (λ x, f x = k) (a :: l))) ks
            = sum_list_with (λ k, if decide (f a = k) then 1 else 0)%nat ks
              + sum_list_with (λ k, length (filter (λ x, f x = k) l)) ks)%nat as ->.
    { clear. induction ks as [|k ks IHk]; [done|]. cbn [sum_list_with]. rewrite IHk.
      destruct (decide (f a = k)) as [Hk|Hk].
      - rewrite filter_cons_True by done. cbn. lia.
      - rewrite filter_cons_False by done. lia. }
    rewrite IH by (intros x Hx; by apply Hks, list_elem_of_further).
    assert (sum_list_with (λ k, if decide (f a = k) then 1 else 0)%nat ks = 1%nat) as ->;
      [|done].
    assert (f a ∈ ks) as Hin by apply Hks, list_elem_of_here.
    clear -Hnd Hin. induction ks as [|k ks IHk]; [by apply elem_of_nil in Hin|].
    apply NoDup_cons in Hnd as [Hk Hnd]. cbn [sum_list_with].
    destruct (decide (f a = k)) as [<-|Hne].
    + assert (sum_list_with (λ k, if decide (f a = k) then 1 else 0)%nat ks = 0%nat) as ->;
        [|done].
      clear -Hk. induction ks as [|k ks IHk]; [done|]. cbn [sum_list_with].
      apply not_elem_of_cons in Hk as [Hne Hk].
      by rewrite decide_False, IHk.
    + apply elem_of_cons in Hin as [?|Hin]; [done|]. by rewrite IHk.
Qed.

(** X19 (sessions by date).  [groupSessionsByDate] answers one group per
    calendar day that has sessions, by strictly increasing date; a group holds
    exactly the sessions of its day, at least one, with their number as
    [sessionCount] and their mean score as [averageScore]; and the session
    counts of the groups add up to the number of sessions. *)
Theorem groups_partition_by_date (sessions : list Session) :
  let groups := groupSessionsByDate sessions in
  (∀ i j a b, (i < j)%nat → groups !! i = Some a → groups !! j = Some b →
     date a < date b)
  ∧ (∀ g, g ∈ groups →
       day_sessions g ≠ []
       ∧ (∀ s, s ∈ day_sessions g ↔ s ∈ sessions ∧ isoDay (s_createdAt s) = date g)
       ∧ sessionCount g = Z.of_nat (length (day_sessions g))
       ∧ day_averageScore g = SessionRecorder.mean (s_score <$> day_sessions g))
  ∧ (∀ s, s ∈ sessions → ∃ g, g ∈ groups ∧ s ∈ day_sessions g)
  ∧ sum_list_with (λ g, length (day_sessions g)) groups = length sessions.
Proof.
  cbn zeta. unfold groupSessionsByDate.
  set (days := remove_dups (isoDay ∘ s_createdAt <$> sessions)).
  set (unsorted := (λ d, dayGroup d sessions) <$> days).
  assert (NoDup days) as Hnd by apply NoDup_remove_dups.
  assert (∀ d, d ∈ days ↔ ∃ s, s ∈ sessions ∧ isoDay (s_createdAt s) = d) as Hdays.
  { intros d. subst days. rewrite elem_of_remove_dups, list_elem_of_fmap.
    split; intros (s & ? & ?); exists s; cbn in *; split; done. }
  assert (∀ g, g ∈ merge_sort earlierDay unsorted ↔ g ∈ unsorted) as Hperm
    by (intros g; by rewrite merge_sort_Permutation).
  assert (date <$> unsorted = days) as Hdates.
  { subst unsorted. rewrite <- list_fmap_compose. apply list_fmap_id. }
  split; [|split; [|split]].
  - intros i j a b Hij Ha Hb.
    assert (date a ≤ date b) as Hle.
    { apply (StronglySorted_lookup_lt earlierDay
               (merge_sort earlierDay unsorted) i j a b); try done.
      apply StronglySorted_merge_sort; apply _. }
    assert (date a ≠ date b); [|lia]. intros Heq.
    assert (NoDup (date <$> merge_sort earlierDay unsorted)) as Hnd'.
    { rewrite merge_sort_Permutation. by rewrite Hdates. }
    assert (i = j); [|lia].
    eapply (NoDup_lookup _ i j (date a) Hnd'); rewrite list_lookup_fmap.
    + by rewrite Ha.
    + rewrite Hb. cbn. by rewrite Heq.
  - intros g Hg. apply Hperm, list_elem_of_fmap in Hg as (d & -> & Hd).
    cbn [day_sessions date sessionCount day_averageScore dayGroup].
    apply Hdays in Hd as (s0 & Hs0 & Hday).
    split; [|split; [|split]].
    + intros Hnil.
      assert (s0 ∈ onDay d sessions) as Hin by (by apply list_elem_of_filter).
      rewrite Hnil in Hin. by apply elem_of_nil in Hin.
    + intros s. unfold onDay. rewrite list_elem_of_filter. tauto.
    + done.
    + unfold SessionRecorder.mean. by rewrite length_fmap.
  - intros s Hs. exists (dayGroup (isoDay (s_createdAt s)) sessions). split.
    + apply Hperm. apply list_elem_of_fmap. eexists. split; [done|].
      apply Hdays. eauto.
    + cbn. by apply list_elem_of_filter.
  - rewrite merge_sort_Permutation. subst unsorted.
    rewrite <- (classes_partition (isoDay ∘ s_createdAt) sessions days Hnd).
    + clear. induction days as [|d days IH]; [done|]. cbn. by rewrite IH.
    + intros s Hs. apply Hdays. eauto.
Qed.

End GroupingFacts.

(** ** More on the leaderboard *)

Section LeaderboardMoreFacts.

Import SessionRecorder Leaderboard.

Implicit Types (db : Store) (c : Clock).

Lemma groupStage_ids (ss : list Session) :
  g_id <$> groupStage ss = remove_dups (s_userId <$> ss).
Proof. unfold groupStage. rewrite <- list_fmap_compose. apply list_fmap_id. Qed.

Lemma projected_ids (us : gmap Z User) (gs : list Group) :
  (e_userId <$> omap (projectStage us) gs) `sublist_of` (g_id <$> gs).
Proof.
  induction gs as [|g gs IH]; cbn; [done|].
  unfold projectStage at 1. destruct (us !! g_id g); cbn.
  - by apply sublist_skip.
  - by apply sublist_cons.
Qed.

Lemma aggregate_ids_NoDup start db : NoDup (e_userId <$> aggregate start db).
Proof.
  unfold aggregate, sortStage. rewrite merge_sort_Permutation.
  eapply sublist_NoDup; [|apply projected_ids].
  rewrite groupStage_ids. apply NoDup_remove_dups.
Qed.

Lemma aggregate_best start db e :
  e ∈ aggregate start db →
  windowScores (e_userId e) start db ≠ []
  ∧ e_bestScore e = maxScore (windowScores (e_userId e) start db).
Proof.
  unfold aggregate, sortStage. rewrite merge_sort_Permutation.
  intros (g & Hg & Hp)%list_elem_of_omap.
  apply list_elem_of_fmap in Hg as (uid & -> & Huid).
  apply elem_of_remove_dups, list_elem_of_fmap in Huid as (s0 & -> & Hs0).
  unfold projectStage in Hp. cbn in Hp.
  destruct (users db !! s_userId s0); [|done]. cbn in Hp. injection Hp as <-.
  cbn. split; [|done]. unfold windowScores, sessionsOf.
  intros Hnil. apply fmap_nil_inv in Hnil.
  assert (s0 ∈ filter (λ s, s_userId s = s_userId s0) (matchStage start (sessions db)))
    as Hin by (by apply list_elem_of_filter).
  rewrite Hnil in Hin. by apply elem_of_nil in Hin.
Qed.

Lemma findIndex_none {A} (p : A → bool) (l : list A) :
  (∀ x, x ∈ l → p x = false) → findIndex p l = -1.
Proof.
  induction l as [|x l IH]; intros Hall; cbn; [done|].
  rewrite (Hall x) by apply list_elem_of_here.
  rewrite IH by (intros y Hy; by apply Hall, list_elem_of_further). done.
Qed.

(** X20 (one entry per user).  In a leaderboard answer no user appears
    twice; an entry is flagged [isCurrentUser] exactly when it is the
    requesting user's, and when there is such an entry [currentUserRank] is
    its rank. *)
Theorem leaderboard_users_distinct me tf limit c db board :
  getLeaderboard me tf limit c db = Some board →
  NoDup (e_userId ∘ entry <$> leaderboard board)
  ∧ (∀ r, r ∈ leaderboard board → (isCurrentUser r = true ↔ e_userId (entry r) = me))
  ∧ (∀ r, r ∈ leaderboard board → isCurrentUser r = true → currentUserRank board = rank r).
Proof.
  intros Hb.
  assert (∀ r, r ∈ leaderboard board → (isCurrentUser r = true ↔ e_userId (entry r) = me))
    as Hflag.
  { intros r (i & Hr)%list_elem_of_lookup.
    destruct (leaderboard_lookup _ _ _ _ _ _ _ _ Hb Hr) as (_ & _ & _ & _ & ->).
    apply bool_decide_eq_true. }
  assert (NoDup (e_userId ∘ entry <$> leaderboard board)) as Hnd.
  { assert (entry <$> leaderboard board
            = take (Z.to_nat limit) (aggregate (startDate tf c) db)) as Hentries.
    { unfold getLeaderboard in Hb. case_bool_decide; [done|]. injection Hb as <-.
      cbn [leaderboard]. unfold addRank. apply list_eq. intros i.
      rewrite list_lookup_fmap, list_lookup_imap. by destruct (take _ _ !! i). }
    rewrite list_fmap_compose, Hentries.
    eapply sublist_NoDup; [apply aggregate_ids_NoDup | apply fmap_sublist, sublist_take]. }
  split; [done|]. split; [done|].
  intros r Hr Hcur.
  assert (currentUserRank board
          = match List.find isCurrentUser (leaderboard board) with
            | Some r' => rank r'
            | None => currentUserRank board
            end) as ->.
  { unfold getLeaderboard in Hb. case_bool_decide; [done|]. injection Hb as <-.
    cbn [leaderboard currentUserRank]. by destruct (List.find _ _). }
  destruct (List.find isCurrentUser (leaderboard board)) as [r'|] eqn:Hfind.
  - apply find_some in Hfind as [Hin' Hcur']. apply list_elem_of_In in Hin'.
    f_equal. apply list_elem_of_lookup in Hr as (i & Hi).
    apply list_elem_of_lookup in Hin' as (j & Hj).
    assert (i = j) as ->; [|congruence].
    apply (NoDup_lookup _ i j me Hnd); rewrite list_lookup_fmap.
    + rewrite Hi. cbn. f_equal. by apply Hflag; [eapply list_elem_of_lookup_2|].
    + rewrite Hj. cbn. f_equal. by apply Hflag; [eapply list_elem_of_lookup_2|].
  - exfalso. apply list_elem_of_In in Hr.
    by rewrite (find_none _ _ Hfind r Hr) in Hcur.
Qed.

Lemma leaderboard_users_distinct_witness :
  ∃ board, getLeaderboard 1 "weekly" 10 sampleClock tieStore = Some board
    ∧ currentUserRank board = 2.
Proof.
  destruct (getLeaderboard 1 "weekly" 10 sampleClock tieStore) as [board|] eqn:Hb;
    [|vm_compute in Hb; discriminate].
  exists board. split; [reflexivity|].
  destruct (leaderboard_users_distinct _ _ _ _ _ _ Hb) as (_ & _ & Hrank).
  assert (∃ r, r ∈ leaderboard board ∧ isCurrentUser r = true ∧ rank r = 2)
    as (r & Hr & Hcur & <-).
  { vm_compute in Hb. injection Hb as <-. eexists. split.
    - cbn [leaderboard]. apply list_elem_of_further, list_elem_of_here.
    - split; reflexivity. }
  by apply Hrank.
Defined.

(** X21 (no session in the window).  A requesting user without a session in
    the window is in no entry of the leaderboard and gets [currentUserRank]
    0. *)
Theorem leaderboard_rank_zero me tf limit c db board :
  getLeaderboard me tf limit c db = Some board →
  windowScores me (startDate tf c) db = [] →
  currentUserRank board = 0
  ∧ ∀ r, r ∈ leaderboard board → isCurrentUser r = false.
Proof.
  intros Hb Hnone.
  assert (me ∉ s_userId <$> matchStage (startDate tf c) (sessions db)) as Hme.
  { intros (s & Hs & Hin)%list_elem_of_fmap.
    assert (s_score s ∈ windowScores me (startDate tf c) db) as H.
    { unfold windowScores, sessionsOf. apply list_elem_of_fmap_2.
      by apply list_elem_of_filter. }
    rewrite Hnone in H. by apply elem_of_nil in H. }
  assert (∀ r, r ∈ leaderboard board → isCurrentUser r = false) as Hnot.
  { intros r (i & Hr)%list_elem_of_lookup.
    destruct (leaderboard_lookup _ _ _ _ _ _ _ _ Hb Hr) as (_ & _ & He & _ & ->).
    apply bool_decide_eq_false. intros Heq.
    apply list_elem_of_lookup_2, aggregate_best in He as [Hne _].
    by rewrite Heq in Hne. }
  split; [|done].
  unfold getLeaderboard in Hb. case_bool_decide; [done|].
  injection Hb as Hb. rewrite <- Hb in *. cbn [leaderboard currentUserRank] in *.
  destruct (List.find isCurrentUser _) as [r|] eqn:Hfind.
  - apply find_some in Hfind as [Hin Hcur]. apply list_elem_of_In in Hin.
    by rewrite (Hnot r Hin) in Hcur.
  - rewrite findIndex_none; [done|].
    intros g Hg. rewrite merge_sort_Permutation in Hg.
    apply bool_decide_eq_false. intros Heq. apply Hme.
    rewrite <- Heq, <- elem_of_remove_dups, <- groupStage_ids.
    by apply list_elem_of_fmap_2.
Qed.

Lemma leaderboard_rank_zero_witness :
  ∃ board, getLeaderboard 5 "weekly" 10 sampleClock tieStore = Some board
    ∧ currentUserRank board = 0.
Proof.
  destruct (getLeaderboard 5 "weekly" 10 sampleClock tieStore) as [board|] eqn:Hb;
    [|vm_compute in Hb; discriminate].
  exists board. split; [reflexivity|].
  by destruct (leaderboard_rank_zero _ _ _ _ _ _ Hb eq_refl).
Defined.

(** X22 (best score).  The [bestScore] of a leaderboard entry is the score of
    one of the user's sessions in the window, no session of the user in the
    window has a higher score, and the user's mean score in the window is not
    above it. *)
Theorem leaderboard_bestScore me tf limit c db board r :
  getLeaderboard me tf limit c db = Some board →
  r ∈ leaderboard board →
  let scores := windowScores (e_userId (entry r)) (startDate tf c) db in
  e_bestScore (entry r) ∈ scores
  ∧ (∀ x, x ∈ scores → (x <= e_bestScore (entry r))%Q)
  ∧ (mean scores <= e_bestScore (entry r))%Q.
Proof.
  intros Hb (i & Hr)%list_elem_of_lookup. cbn zeta.
  destruct (leaderboard_lookup _ _ _ _ _ _ _ _ Hb Hr) as (_ & _ & He & _).
  apply list_elem_of_lookup_2, aggregate_best in He as [Hne ->].
  destruct (maxScore_spec _ Hne) as [Hin Hall].
  split; [done|]. split; [done|]. by apply mean_le_max.
Qed.

Lemma leaderboard_bestScore_witness :
  ∃ board r, getLeaderboard 1 "weekly" 10 sampleClock tieStore = Some board
    ∧ leaderboard board !! 1%nat = Some r
    ∧ e_bestScore (entry r) ∈ windowScores 1 (startDate "weekly" sampleClock) tieStore.
Proof.
  destruct (getLeaderboard 1 "weekly" 10 sampleClock tieStore) as [board|] eqn:Hb;
    [|vm_compute in Hb; discriminate].
  destruct (leaderboard board !! 1%nat) as [r|] eqn:Hr.
  2: { vm_compute in Hb. injection Hb as <-. discriminate Hr. }
  exists board, r. split; [reflexivity|]. split; [exact Hr|].
  destruct (leaderboard_bestScore _ _ _ _ _ _ r Hb) as (Hin & _).
  { eapply list_elem_of_lookup_2. exact Hr. }
  replace 1 with (e_userId (entry r)); [exact Hin|].
  vm_compute in Hb. injection Hb as <-. by injection Hr as <-.
Defined.

End LeaderboardMoreFacts.

(** ** More on the tokens *)

Section TokenMoreFacts.

Import Tokens AccessTokens.

Implicit Types (db : Store) (l : list RefreshToken) (j : string) (e : Env).

Lemma find_app_skip {A} (p : A → bool) (l1 l2 : list A) :
  (∀ x, x ∈ l1 → p x = false) → List.find p (l1 ++ l2) = List.find p l2.
Proof.
  induction l1 as [|x l1 IH]; cbn; intros Hall; [done|].
  rewrite (Hall x) by apply list_elem_of_here.
  apply IH. intros y Hy. by apply Hall, list_elem_of_further.
Qed.

Lemma updateOne_app_skip p l1 l2 :
  (∀ x, x ∈ l1 → p x = false) → updateOne p (l1 ++ l2) = l1 ++ updateOne p l2.
Proof.
  induction l1 as [|x l1 IH]; cbn; intros Hall; [done|].
  rewrite (Hall x) by apply list_elem_of_here.
  f_equal. apply IH. intros y Hy. by apply Hall, list_elem_of_further.
Qed.

Lemma updateOne_singleton p d :
  updateOne p [d] = if p d then [blacklist d] else [d].
Proof. cbn. by destruct (p d). Qed.

Lemma fresh_jti_no_match j l x :
  j ∉ jti <$> l → x ∈ l → bool_decide (Some (jti x) = Some j) = false.
Proof.
  intros Hfresh Hx. apply bool_decide_eq_false.
  intros [= Hj]. apply Hfresh. rewrite <- Hj. by apply list_elem_of_fmap_2.
Qed.

Lemma revoke_other_user cfg token e uid l acc :
  jwt_userId token ≠ uid →
  verifyRefreshToken cfg token e (revokeAllUserTokens uid (mkStore l acc))
  = verifyRefreshToken cfg token e (mkStore l acc).
Proof.
  intros Hne. unfold verifyRefreshToken, verify.
  destruct (_ && _); cbn; [|done].
  induction l as [|d l IH]; cbn; [done|].
  destruct (bool_decide (userId d = uid) && negb (isBlacklisted d)) eqn:Hd.
  - apply andb_true_iff in Hd as [Hu Hb]. apply bool_decide_eq_true in Hu.
    cbn. rewrite andb_false_r.
    rewrite (bool_decide_eq_false_2 (userId d = jwt_userId token)) by congruence.
    rewrite andb_false_r. cbn. exact IH.
  - destruct (bool_decide (Some (jti d) = jwt_jti token)
              && bool_decide (userId d = jwt_userId token)
              && negb (isBlacklisted d)); [done | exact IH].
Qed.

Lemma revoke_same_user cfg token e db :
  verifyRefreshToken cfg token e (revokeAllUserTokens (jwt_userId token) db) = None.
Proof.
  unfold verifyRefreshToken, verify.
  destruct (_ && _); cbn; [|done].
  destruct (List.find _ _) as [d|] eqn:Hf; [|done]. exfalso.
  apply find_some in Hf as [Hin Hp].
  apply list_elem_of_In, list_elem_of_fmap in Hin as (d0 & -> & _).
  destruct (bool_decide (userId d0 = jwt_userId token) && negb (isBlacklisted d0)) eqn:Hd.
  - cbn in Hp. by rewrite andb_false_r in Hp.
  - apply andb_true_iff in Hp as [Hp Hb]. apply andb_true_iff in Hp as [_ Hu].
    by rewrite Hu, Hb in Hd.
Qed.

(** X23 (logout).  After [revokeAllUserTokens] for a user, a refresh that
    presents a refresh token of that user is answered 401 and changes
    nothing, whenever it comes; the verification of a refresh token of
    another user is as before. *)
Theorem logout_revokes_the_user cfg uid db token :
  (jwt_userId token = uid →
   ∀ req e, cookie_refreshToken req = Some token →
     refreshTokenMiddleware cfg req e (step cfg db (Logout uid))
     = (Unauthorized "Invalid refresh token.", step cfg db (Logout uid)))
  ∧ (jwt_userId token ≠ uid →
     ∀ e, verifyRefreshToken cfg token e (step cfg db (Logout uid))
          = verifyRefreshToken cfg token e db).
Proof.
  split.
  - intros <- req e Hcookie. unfold refreshTokenMiddleware. rewrite Hcookie.
    cbn [step]. by rewrite revoke_same_user.
  - intros Hne e. destruct db as [l acc]. by apply revoke_other_user.
Qed.

Lemma logout_revokes_the_user_witness :
  refreshTokenMiddleware sampleConfig (presenting issued.1) refreshEnv
    (step sampleConfig issued.2 (Logout 7))
  = (Unauthorized "Invalid refresh token.", step sampleConfig issued.2 (Logout 7))
  ∧ verifyRefreshToken sampleConfig issued.1 refreshEnv (step sampleConfig issued.2 (Logout 8))
    = verifyRefreshToken sampleConfig issued.1 refreshEnv issued.2.
Proof.
  destruct (logout_revokes_the_user sampleConfig 7 issued.2 issued.1) as [Hown _].
  destruct (logout_revokes_the_user sampleConfig 8 issued.2 issued.1) as [_ Hother].
  split.
  - apply Hown; reflexivity.
  - apply Hother. vm_compute. discriminate.
Defined.

Lemma seconds_week (t : Z) :
  seconds (t + 7 * 24 * 60 * 60 * 1000) = seconds t + 7 * 24 * 60 * 60.
Proof.
  unfold seconds. change (7 * 24 * 60 * 60 * 1000) with (604800 * 1000).
  by rewrite Z.div_add by lia.
Qed.

(** X24 (a fresh refresh token works, once, until it expires).  The refresh
    token that [generateRefreshToken] returns for an existing user is, while
    its seven days are not over, exchanged by the middleware for a new pair
    for the same user: its document is blacklisted and the document of the new
    token is appended; the other documents stay.  From the expiry on the
    answer is 401 and the store stays as it is. *)
Theorem fresh_token_round_trip cfg uid agent ip e db t db1 req e' :
  generateRefreshToken cfg uid agent ip e db = Some (t, db1) →
  uid ∈ accounts db →
  cookie_refreshToken req = Some t →
  (uuid e' ∉ jti <$> refreshTokens db1) →
  (seconds (now e') < seconds (now e) + 7 * 24 * 60 * 60 →
   ∃ old new db2,
     refreshTokenMiddleware cfg req e' db1
     = (Next uid (generateAccessToken cfg uid e')
          (sign uid (Some (uuid e')) (JWT_REFRESH_SECRET cfg) (7 * 24 * 60 * 60) e'), db2)
     ∧ refreshTokens db2 = refreshTokens db ++ [old; new]
     ∧ jti old = uuid e ∧ userId old = uid ∧ isBlacklisted old = true
     ∧ jti new = uuid e' ∧ userId new = uid ∧ isBlacklisted new = false
     ∧ expiresAt new = now e' + 7 * 24 * 60 * 60 * 1000)
  ∧ (seconds (now e) + 7 * 24 * 60 * 60 ≤ seconds (now e') →
     refreshTokenMiddleware cfg req e' db1 = (Unauthorized "Invalid refresh token.", db1)).
Proof.
  unfold generateRefreshToken. case_bool_decide as Hfresh; [done|].
  intros [= <- <-] Hacc Hcookie Hfresh'.
  unfold refreshTokenMiddleware, verifyRefreshToken, verify. rewrite Hcookie.
  unfold sign at 1 2 3 4 5 6 7.
  cbn [jwt_secret jwt_exp jwt_jti jwt_userId setTokens refreshTokens accounts].
  rewrite String.eqb_refl. cbn [andb]. split.
  - intros Hlive. rewrite bool_decide_eq_true_2 by done.
    cbn [mbind option_bind jwt_jti jwt_userId].
    rewrite find_app_skip; last first.
    { intros x Hx. by rewrite (fresh_jti_no_match (uuid e) (refreshTokens db) x). }
    cbn [List.find userId jti isBlacklisted].
    rewrite !bool_decide_eq_true_2 by done. cbn [andb negb mbind option_bind].
    cbn [jwt_userId jwt_jti]. rewrite bool_decide_eq_true_2 by done.
    unfold generateRefreshToken, blacklistRefreshToken.
    cbn [setTokens refreshTokens accounts].
    rewrite updateOne_app_skip; last first.
    { intros x Hx. by apply (fresh_jti_no_match _ (refreshTokens db)). }
    rewrite updateOne_singleton. cbn beta. cbn [jti].
    rewrite (bool_decide_eq_true_2 (Some (uuid e) = Some (uuid e))) by done.
    rewrite bool_decide_eq_false_2; last first.
    { intros Hin. apply Hfresh'. cbn [setTokens refreshTokens].
      rewrite fmap_app in Hin |- *. exact Hin. }
    eexists _, _, _. split; [reflexivity|].
    cbn [setTokens refreshTokens]. rewrite <- app_assoc. cbn [app].
    split; [reflexivity|]. done.
  - intros Hdead. rewrite bool_decide_eq_false_2 by lia. done.
Qed.

Lemma fresh_token_round_trip_witness :
  isNext (refreshTokenMiddleware sampleConfig (presenting issued.1) refreshEnv issued.2).1
  = true.
Proof.
  destruct (fresh_token_round_trip sampleConfig 7 (Some "agent") None loginEnv emptyStore
              issued.1 issued.2 (presenting issued.1) refreshEnv) as [Hlive _].
  - reflexivity.
  - apply (bool_decide_unpack _). vm_compute. exact I.
  - reflexivity.
  - apply (bool_decide_unpack _). vm_compute. exact I.
  - destruct Hlive as (old & new & db2 & -> & _); [vm_compute; reflexivity|].
    reflexivity.
Defined.

(** X25 (two kinds of token).  With different secrets for the two kinds, a
    refresh token is never accepted by [verifyAccessToken] and an access token
    never by [verifyRefreshToken]; an access token is accepted by
    [verifyAccessToken] during the fifteen minutes after it was signed and not
    afterwards. *)
Theorem token_kinds_are_separate cfg uid agent ip e db t db1 e' :
  JWT_ACCESS_SECRET cfg ≠ JWT_REFRESH_SECRET cfg →
  generateRefreshToken cfg uid agent ip e db = Some (t, db1) →
  verifyAccessToken cfg t e' = None
  ∧ (∀ db', verifyRefreshToken cfg (generateAccessToken cfg uid e) e' db' = None)
  ∧ (seconds (now e') < seconds (now e) + accessLifetime →
     verifyAccessToken cfg (generateAccessToken cfg uid e) e'
     = Some (generateAccessToken cfg uid e))
  ∧ (seconds (now e) + accessLifetime ≤ seconds (now e') →
     verifyAccessToken cfg (generateAccessToken cfg uid e) e' = None).
Proof.
  intros Hsecrets. unfold generateRefreshToken. case_bool_decide; [done|].
  intros [= <- <-].
  unfold verifyAccessToken, verifyRefreshToken, verify, generateAccessToken, accessLifetime,
    sign.
  cbn [jwt_secret jwt_exp].
  assert (String.eqb (JWT_REFRESH_SECRET cfg) (JWT_ACCESS_SECRET cfg) = false) as Hra
    by (apply String.eqb_neq; congruence).
  assert (String.eqb (JWT_ACCESS_SECRET cfg) (JWT_REFRESH_SECRET cfg) = false) as Har
    by (by apply String.eqb_neq).
  rewrite Hra, Har, String.eqb_refl. cbn [andb].
  split; [done|]. split; [done|]. split.
  - intros Hlive. by rewrite bool_decide_eq_true_2.
  - intros Hdead. by rewrite bool_decide_eq_false_2 by lia.
Qed.

Lemma token_kinds_are_separate_witness :
  verifyAccessToken sampleConfig issued.1 refreshEnv = None
  ∧ verifyAccessToken sampleConfig (generateAccessToken sampleConfig 7 loginEnv) refreshEnv
    = Some (generateAccessToken sampleConfig 7 loginEnv).
Proof.
  destruct (token_kinds_are_separate sampleConfig 7 (Some "agent") None loginEnv emptyStore
              issued.1 issued.2 refreshEnv) as (Hrefresh & _ & Hlive & _).
  - vm_compute. discriminate.
  - reflexivity.
  - split; [exact Hrefresh|]. apply Hlive. vm_compute. reflexivity.
Defined.

(** X26 (cleaning).  [cleanExpiredTokens] never takes away a refresh token
    that is still good: for a token returned by [generateRefreshToken],
    verification after a cleaning that ran at or before the time of the
    verification gives what it gives without the cleaning. *)
Theorem cleaning_spares_live_tokens cfg uid agent ip e0 db t db1 e e' :
  generateRefreshToken cfg uid agent ip e0 db = Some (t, db1) →
  now e ≤ now e' →
  verifyRefreshToken cfg t e' (cleanExpiredTokens e db1) = verifyRefreshToken cfg t e' db1.
Proof.
  unfold generateRefreshToken. case_bool_decide as Hfresh; [done|].
  intros [= <- <-] Hle.
  unfold verifyRefreshToken, verify, cleanExpiredTokens, sign.
  cbn [jwt_secret jwt_exp jwt_jti jwt_userId setTokens refreshTokens accounts].
  rewrite String.eqb_refl. cbn [andb].
  case_bool_decide as Hlive; [|done]. cbn [mbind option_bind jwt_jti jwt_userId].
  rewrite filter_app, filter_cons_True, filter_nil; last first.
  { cbn [expiresAt]. rewrite <- seconds_week in Hlive. unfold seconds in Hlive.
    intros Hlt. apply Z.lt_nge in Hlive. apply Hlive.
    apply Z.div_le_mono; lia. }
  rewrite !find_app_skip; [done| |].
  - intros x Hx. by rewrite (fresh_jti_no_match (uuid e0) (refreshTokens db) x).
  - intros x [_ Hx]%list_elem_of_filter.
    by rewrite (fresh_jti_no_match (uuid e0) (refreshTokens db) x).
Qed.

Lemma cleaning_spares_live_tokens_witness :
  ∃ doc, verifyRefreshToken sampleConfig issued.1 refreshEnv
           (cleanExpiredTokens refreshEnv issued.2) = Some (issued.1, doc).
Proof.
  rewrite (cleaning_spares_live_tokens sampleConfig 7 (Some "agent") None loginEnv
             emptyStore issued.1 issued.2 refreshEnv refreshEnv).
  - eexists. vm_compute. reflexivity.
  - reflexivity.
  - vm_compute. discriminate.
Defined.

End TokenMoreFacts.

(** ** The insight helpers *)

Section InsightFacts.

Import Analytics Insights.

Implicit Types (sessions : list Session).




End InsightFacts.

(** ** The improvement figure *)

Section ImprovementFacts.

Import Double Trends.

Implicit Types (sessions : list Session) (x : double).

Lemma recent_five sessions :
  (5 ≤ length sessions)%nat → length (slice 0 5 sessions) = 5%nat.
Proof. intros H. unfold slice. rewrite length_take, length_drop. lia. Qed.

Lemma older_empty sessions :
  length sessions = 5%nat → slice 5 10 sessions = [].
Proof.
  intros H. unfold slice. apply length_zero_iff_nil.
  rewrite length_take, length_drop. lia.
Qed.

(** Against a baseline that is [NaN] or a zero, the figure is not a number
    that could be reported: it is [NaN] or an infinity. *)
Lemma no_baseline x y :
  isNaN y = true ∨ isZero y = true →
  match mul (div (sub x y) y) hundred with
  | S754_nan | S754_infinity _ => True
  | S754_zero _ | S754_finite _ _ _ => False
  end.
Proof.
  destruct hundred_finite as (mh & eh & ->).
  destruct y as [t|t| |t m e]; intros [H|H]; try discriminate H.
  - by destruct x as [s|s| |s mx ex]; try destruct s; destruct t.
  - by destruct x.
Qed.

(** X28 (improvement, first copy).  For five sessions or more, the first
    [calculateImprovementTrend] has nothing to report when the sessions at
    positions 5 to 9 give no baseline: with exactly five sessions it gives
    [NaN], and whenever the mean score of those sessions comes out as 0 (or
    there are none) it gives [NaN] or an infinity. *)
Theorem improvement_needs_baseline sessions :
  (5 ≤ length sessions)%nat →
  (length sessions = 5%nat → calculateImprovementTrend sessions = S754_nan)
  ∧ (isNaN (meanScore (slice 5 10 sessions)) = true
     ∨ isZero (meanScore (slice 5 10 sessions)) = true →
     match calculateImprovementTrend sessions with
     | S754_nan | S754_infinity _ => True
     | S754_zero _ | S754_finite _ _ _ => False
     end).
Proof.
  intros Hlen. unfold calculateImprovementTrend.
  rewrite bool_decide_eq_false_2 by lia. cbv zeta.
  fold (meanScore (slice 0 5 sessions)). fold (meanScore (slice 5 10 sessions)).
  split.
  - intros H5. rewrite (older_empty _ H5), meanScore_nil.
    by destruct (meanScore (slice 0 5 sessions)).
  - apply no_baseline.
Qed.

Lemma improvement_needs_baseline_witness :
  calculateImprovementTrend (replicate 5 (scored 70)) = S754_nan
  ∧ calculateImprovementTrend (replicate 5 (scored 70) ++ replicate 5 (scored 0))
    = S754_infinity false.
Proof.
  destruct (improvement_needs_baseline (replicate 5 (scored 70)))
    as [Hnan _]; [cbn; lia|].
  split; [by apply Hnan|].
  destruct (improvement_needs_baseline (replicate 5 (scored 70) ++ replicate 5 (scored 0)))
    as [_ Hnone]; [cbn; lia|].
  specialize (Hnone (or_intror eq_refl)).
  destruct (calculateImprovementTrend _) as [s|s| |s m e] eqn:Hv; try done;
    vm_compute in Hv; congruence.
Defined.

(** X29 (improvement, second copy).  For five sessions or more, when the
    sessions at positions 5 to 9 give no baseline (there are none, or their
    mean score comes out as 0), the second [calculateImprovementTrend] takes
    the recent mean as the baseline: it gives a zero when that mean is a
    finite number other than 0, and [NaN] otherwise; in particular it gives no
    infinity there. *)
Theorem improvement_with_fallback sessions :
  (5 ≤ length sessions)%nat →
  isNaN (meanScore (slice 5 10 sessions)) = true
  ∨ isZero (meanScore (slice 5 10 sessions)) = true →
  match meanScore (slice 0 5 sessions) with
  | S754_finite _ _ _ => isZero (calculateImprovementTrend' sessions) = true
  | _ => isNaN (calculateImprovementTrend' sessions) = true
  end.
Proof.
  intros Hlen Hnone. unfold calculateImprovementTrend'.
  rewrite bool_decide_eq_false_2 by lia. cbv zeta.
  fold (meanScore (slice 0 5 sessions)). fold (meanScore (slice 5 10 sessions)).
  assert (or (meanScore (slice 5 10 sessions)) (meanScore (slice 0 5 sessions))
          = meanScore (slice 0 5 sessions)) as ->.
  { unfold or. destruct (meanScore (slice 5 10 sessions)); destruct Hnone; done. }
  apply same_baseline.
Qed.

Lemma improvement_with_fallback_witness :
  calculateImprovementTrend' (replicate 5 (scored 70)) = S754_zero false.
Proof.
  pose proof (improvement_with_fallback (replicate 5 (scored 70))) as H.
  destruct (meanScore (slice 0 5 (replicate 5 (scored 70)))) as [s|s| |s m e] eqn:Hm;
    try (vm_compute in Hm; discriminate Hm).
  assert (isZero (calculateImprovementTrend' (replicate 5 (scored 70))) = true) as Hz.
  { apply H; [cbn; lia|]. left. vm_compute. reflexivity. }
  destruct (calculateImprovementTrend' _) as [t|t| |t m' e'] eqn:Hv; try discriminate Hz.
  vm_compute in Hv. congruence.
Defined.

End ImprovementFacts.

(** ** A body with a [userId] of its own *)

Section OverrideFacts.

Import SessionRecorder.

Lemma wire_updateUser_stats b s u lr u' :
  Wire.updateUser b s u = Some (lr, u') →
  ∃ st, Wire.updateStats b (stats u) = Some st ∧ stats u' = st.
Proof.
  unfold Wire.updateUser.
  destruct (Wire.updateStats b (stats u)) as [st|]; [|done]. cbn [mbind option_bind].
  destruct (Wire.xpGained b) as [g|]; [|done]. cbn [mbind option_bind].
  destruct (addXP g (set_stats st u)) as [lr0 u2] eqn:Hxp. intros [= <- <-].
  exists st. split; [done|].
  destruct (awardLoop_untouched (candidateBadges u2 s) u2) as [Hst _].
  unfold checkAndAwardBadges. rewrite Hst.
  pose proof (addXP_frame g (set_stats st u)) as Hf. cbn zeta in Hf.
  rewrite Hxp in Hf. cbn [snd] in Hf. by destruct Hf as (_ & -> & _).
Qed.

(** X30 (whose session, whose stats).  When a submission is answered 201,
    exactly one session is stored, under the [userId] of the body when the
    body has one and under the requesting user otherwise; the user document
    that is updated is always the requesting user's, whose [totalSessions]
    grows by one. *)
Theorem body_userId_wins uid b e db answer db' :
  Wire.postSession uid b e db = Some (answer, db') →
  isCreated answer = true →
  ∃ s u u',
    sessions db' = sessions db ++ [s]
    ∧ s_userId s = default uid (Wire.raw_userId b)
    ∧ users db !! uid = Some u
    ∧ users db' = <[uid := u']> (users db)
    ∧ totalSessions (stats u') = totalSessions (stats u) + 1.
Proof.
  unfold Wire.postSession.
  destruct (Wire.validationResult b) as [[|err errs]|]; cbn [mbind option_bind];
    [|by intros [= <- <-]|done].
  destruct (Wire.newSession uid b e) as [session|] eqn:Hs; cbn [mbind option_bind]; [|done].
  destruct (negb (schema_valid session)); [by intros [= <- <-]|].
  destruct (users db !! uid) as [user|] eqn:Hu; [|by intros [= <- <-]].
  destruct (Wire.updateUser b session user) as [[lr user']|] eqn:Hup;
    cbn [mbind option_bind]; [|done].
  destruct (Wire.xpGained b) as [g|]; cbn [mbind option_bind]; [|done].
  destruct (match mlResponse e with
            | Some p => Some p
            | None => Wire.mockPredictions b e
            end) as [predictions|]; cbn [mbind option_bind]; [|done].
  intros [= <- <-] _. cbn [sessions users fst snd].
  exists (set_mlPredictions predictions session), user, user'.
  split; [done|]. split.
  - unfold Wire.newSession in Hs.
    destruct (Wire.numberOf (Wire.raw_duration b)); [|done].
    destruct (Wire.numberOf (Wire.raw_score b)); [|done].
    destruct (Wire.numberOf (Wire.raw_accuracy b)); [|done].
    cbn in Hs. by injection Hs as <-.
  - split; [done|]. split; [done|].
    apply wire_updateUser_stats in Hup as (st & Hst & ->).
    unfold Wire.updateStats in Hst.
    destruct (Wire.plus _ (Wire.raw_duration b)); [|done].
    destruct (Wire.plus _ (Wire.raw_score b)); [|done].
    cbn in Hst. by injection Hst as <-.
Qed.

Lemma body_userId_wins_witness :
  ∃ answer db' s u',
    Wire.postSession 7 (Wire.foreignBody 8 100) Wire.servedEnv sampleStore
    = Some (answer, db')
    ∧ sessions db' = [s] ∧ s_userId s = 8
    ∧ users db' !! 7 = Some u' ∧ totalSessions (stats u') = 1.
Proof.
  destruct (Wire.postSession 7 (Wire.foreignBody 8 100) Wire.servedEnv sampleStore)
    as [[answer db']|] eqn:Hpost; [|vm_compute in Hpost; discriminate].
  destruct (body_userId_wins _ _ _ _ _ _ Hpost) as (s & u & u' & Hs & Hid & Hu & Hus & Hn).
  { vm_compute in Hpost. by injection Hpost as <- _. }
  exists answer, db', s, u'. split; [reflexivity|]. split; [exact Hs|].
  split; [exact Hid|]. split.
  - rewrite Hus. apply lookup_insert_eq.
  - rewrite Hn. vm_compute in Hu. by injection Hu as <-.
Defined.

(** The badge goes to the requesting user and the session to the other: after
    Ada has sent a perfect session under Alan's id, she holds the badge
    "perfect-score" and has no session of her own, and her achievement
    "perfect-score" is not completed. *)
Example foreign_session_splits_badge_and_achievement :
  ∃ answer db' u' achieved,
    Wire.postSession 7 (Wire.foreignBody 8 100) Wire.servedEnv sampleStore
    = Some (answer, db')
    ∧ users db' !! 7 = Some u'
    ∧ "perfect-score" ∈ badge_id <$> badges u'
    ∧ filter (λ s, s_userId s = 7) (sessions db') = []
    ∧ Achievements.getAchievements 7 db' = Some achieved
    ∧ Achievements.completed <$> Achievements.achievements achieved
      = [true; false; false; false; false].
Proof.
  eexists _, _, _, _. split; [vm_compute; reflexivity|].
  split; [vm_compute; reflexivity|]. split.
  - apply (bool_decide_unpack _). vm_compute. exact I.
  - split; [vm_compute; reflexivity|]. split; vm_compute; reflexivity.
Qed.

End OverrideFacts.
